(** * Hybrid retrieval engine of agentic-proof-pack: a shallow embedding

    The development follows [app/retrieval.py], [app/faiss_index.py] and
    [app/reranker.py], and from their callers [handle_ask] of
    [app/orchestrator.py], [detect_injection] of [app/guardrails.py] and
    [kb_raw] of [app/main.py].  Python integers are [Z]; strings are
    [string] (one character per code point below 256); lists are [list];
    the candidate set of [hybrid_search] is a [gset nat].  Scores, which
    the program keeps in floating point, are exact rationals [Q] here: the
    statements below are about thresholds, ordering and index bookkeeping
    and never about rounding.  A function that can raise returns an
    [option]: [None] is the exception leaving it, be it the [IndexError]
    of a list lookup or the [ValueError] of a vectorizer that found no
    term.

    Third-party code (scikit-learn's vectorizer and SVD, rank_bm25,
    rapidfuzz, faiss, numpy's argsort) is not part of the repository; it
    enters through the class [Env], and the part of its documented
    behaviour a proof relies on is a hypothesis of that proof.  The disk
    and the PDF and DOCX readers enter through the class [Files].

    Part I is the program, Part II the vocabulary of the statements and
    an executable stand-in for the libraries and the disk, Part III the
    proofs. *)

From Stdlib Require Import ZArith QArith Ascii String List Lia Bool.
From stdpp Require Import gmap strings list sets sorting.

Local Open Scope Z_scope.

(** * Part I: the program *)

(** ** Python primitives *)

Module Py.

(** [str.isspace] on the code points below 256: 9 to 13, 28 to 32, 133
    and 160. *)
Definition is_space (c : ascii) : bool :=
  let n := nat_of_ascii c in
  ((9 <=? n)%nat && (n <=? 13)%nat)
  || ((28 <=? n)%nat && (n <=? 32)%nat)
  || (n =? 133)%nat || (n =? 160)%nat.

Fixpoint lstrip (s : string) : string :=
  match s with
  | EmptyString => EmptyString
  | String c s' => if is_space c then lstrip s' else s
  end.

Fixpoint rstrip (s : string) : string :=
  match s with
  | EmptyString => EmptyString
  | String c s' =>
      match rstrip s' with
      | EmptyString => if is_space c then EmptyString else String c EmptyString
      | r => String c r
      end
  end.

(** [s.strip()] *)
Definition strip (s : string) : string := rstrip (lstrip s).

(** Truth value of a string: [if txt:]. *)
Definition truthy (s : string) : bool :=
  match s with EmptyString => false | _ => true end.

Definition nl : string := String (ascii_of_nat 10) EmptyString.

(** [sep.join(xs)] *)
Definition join (sep : string) (xs : list string) : string := String.concat sep xs.

(** A slice bound as Python normalises it for a sequence of length [n]. *)
Definition slice_bound (n k : Z) : Z :=
  if k <? 0 then Z.max 0 (k + n) else Z.min k n.

(** [l[lo:hi]] *)
Definition slice {A} (l : list A) (lo hi : Z) : list A :=
  let n := Z.of_nat (length l) in
  let lo' := slice_bound n lo in
  let hi' := slice_bound n hi in
  firstn (Z.to_nat (hi' - lo')) (skipn (Z.to_nat lo') l).

(** [l[:hi]] *)
Definition take {A} (l : list A) (hi : Z) : list A := slice l 0 hi.

(** [x or ""] for an optional string. *)
Definition or_empty (x : option string) : string := default EmptyString x.

Definition LF : ascii := ascii_of_nat 10.
Definition CR : ascii := ascii_of_nat 13.

(** [len(s)] *)
Definition len (s : string) : Z := Z.of_nat (String.length s).

(** [str.isalpha] on the code points below 256: the ASCII letters, 170,
    181, 186, and 192 to 255 without 215 and 247. *)
Definition is_alpha (c : ascii) : bool :=
  let n := nat_of_ascii c in
  ((65 <=? n)%nat && (n <=? 90)%nat) || ((97 <=? n)%nat && (n <=? 122)%nat)
  || (n =? 170)%nat || (n =? 181)%nat || (n =? 186)%nat
  || ((192 <=? n)%nat && (n <=? 214)%nat) || ((216 <=? n)%nat && (n <=? 246)%nat)
  || (248 <=? n)%nat.

(** [str.lower] on the code points below 256. *)
Definition lower_char (c : ascii) : ascii :=
  let n := nat_of_ascii c in
  if ((65 <=? n)%nat && (n <=? 90)%nat) || ((192 <=? n)%nat && (n <=? 214)%nat)
     || ((216 <=? n)%nat && (n <=? 222)%nat)
  then ascii_of_nat (n + 32) else c.

Fixpoint lower (s : string) : string :=
  match s with
  | EmptyString => EmptyString
  | String c s' => String (lower_char c) (lower s')
  end.

(** [s.startswith(p)] *)
Fixpoint startswith (s p : string) : bool :=
  match p with
  | EmptyString => true
  | String a p' =>
      match s with
      | EmptyString => false
      | String b s' => Ascii.eqb a b && startswith s' p'
      end
  end.

(** [p in s] *)
Fixpoint contains (s p : string) : bool :=
  startswith s p
  || match s with
     | EmptyString => false
     | String _ s' => contains s' p
     end.

(** [s.endswith(p)] *)
Fixpoint endswith (s p : string) : bool :=
  String.eqb s p
  || match s with
     | EmptyString => false
     | String _ s' => endswith s' p
     end.

(** The line boundaries of [str.splitlines] below 256: 10 to 13, 28 to 30
    and 133; a carriage return followed by a line feed is one boundary. *)
Definition is_linebreak (c : ascii) : bool :=
  let n := nat_of_ascii c in
  ((10 <=? n)%nat && (n <=? 13)%nat) || ((28 <=? n)%nat && (n <=? 30)%nat)
  || (n =? 133)%nat.

Fixpoint splitlines_from (s cur : string) : list string :=
  match s with
  | EmptyString => if truthy cur then [cur] else []
  | String c rest =>
      if is_linebreak c then
        cur :: match rest with
               | String c' rest' =>
                   if Ascii.eqb c CR && Ascii.eqb c' LF
                   then splitlines_from rest' EmptyString
                   else splitlines_from rest EmptyString
               | EmptyString => []
               end
      else splitlines_from rest (cur +:+ String c EmptyString)
  end.

(** [s.splitlines()] *)
Definition splitlines (s : string) : list string := splitlines_from s EmptyString.

(** [s.replace(a, b)] for single characters. *)
Fixpoint replace_char (a b : ascii) (s : string) : string :=
  match s with
  | EmptyString => EmptyString
  | String c s' => String (if Ascii.eqb c a then b else c) (replace_char a b s')
  end.

Fixpoint split_from (sep : ascii) (s cur : string) : list string :=
  match s with
  | EmptyString => [cur]
  | String c rest =>
      if Ascii.eqb c sep then cur :: split_from sep rest EmptyString
      else split_from sep rest (cur +:+ String c EmptyString)
  end.

(** [s.split(sep)] for a single character. *)
Definition split_char (sep : ascii) (s : string) : list string :=
  split_from sep s EmptyString.

Definition slash : ascii := ascii_of_nat 47.
Definition dot : ascii := ascii_of_nat 46.

Fixpoint basename_from (p cur : string) : string :=
  match p with
  | EmptyString => cur
  | String c rest =>
      if Ascii.eqb c slash then basename_from rest EmptyString
      else basename_from rest (cur +:+ String c EmptyString)
  end.

(** [os.path.basename(p)]: what follows the last slash. *)
Definition basename (p : string) : string := basename_from p EmptyString.

Fixpoint drop_dots (s : string) : string :=
  match s with
  | EmptyString => EmptyString
  | String c s' => if Ascii.eqb c dot then drop_dots s' else s
  end.

(** The last dot of [s] and what follows it. *)
Fixpoint last_dot (s : string) : option string :=
  match s with
  | EmptyString => None
  | String c s' =>
      match last_dot s' with
      | Some e => Some e
      | None => if Ascii.eqb c dot then Some s else None
      end
  end.

(** [os.path.splitext(p)[1]]: the last dot of the base name and what
    follows it; leading dots of the base name do not count. *)
Definition splitext (p : string) : string :=
  default EmptyString (last_dot (drop_dots (basename p))).

(** [os.path.join(a, b)] *)
Definition path_join (a b : string) : string :=
  if startswith b (String slash EmptyString) then b
  else if negb (truthy a) || endswith a (String slash EmptyString) then a +:+ b
  else a +:+ String slash b.

(** [int(x)] of a number: rounding toward zero. *)
Definition int (x : Q) : Z := Z.quot (Qnum x) (Z.pos (Qden x)).

End Py.

(** ** The chunker: [make_chunks] *)

Definition chunk_t : Type := Z * Z * string.

Section Chunker.

Variable lines : list string.
Variables window stride : Z.

Definition n_lines : Z := Z.of_nat (length lines).

(** One pass through the body of the [while] loop, from index [i]. *)
Definition chunk_body (i : Z) (out : list chunk_t) : Z * list chunk_t :=
  let s := i in
  let e := Z.min (n_lines - 1) (i + window - 1) in
  let txt := Py.strip (Py.join Py.nl (Py.slice lines s (e + 1))) in
  let out' := if Py.truthy txt then out ++ [(s, e, txt)] else out in
  (i + Z.max 1 stride, out').

(** The loop [while i < n], with the number of passes it made.  [None]
    means the fuel ran out before the guard failed. *)
Fixpoint chunk_loop (fuel : nat) (i : Z) (out : list chunk_t) (passes : nat)
  : option (list chunk_t * nat) :=
  if i <? n_lines then
    match fuel with
    | O => None
    | S fuel' =>
        let '(i', out') := chunk_body i out in
        chunk_loop fuel' i' out' (S passes)
    end
  else Some (out, passes).

Definition make_chunks_run (fuel : nat) : option (list chunk_t * nat) :=
  chunk_loop fuel 0 [] O.

(** [make_chunks(lines, window, stride)]; the fuel [len(lines)] is enough,
    see [chunk_loop_enough]. *)
Definition make_chunks : list chunk_t :=
  match make_chunks_run (length lines) with
  | Some (out, _) => out
  | None => []
  end.

End Chunker.

(** ** The vector index: [FaissIndex] *)

Module Faiss.

(** The object after [__init__]: [svd] is the component count of the
    fitted reduction, [index] the dimension of the inner-product index
    and the number of vectors added to it. *)
Record t := mk {
  texts : list string;
  enabled : bool;
  svd : option Z;
  index : option (Z * nat)
}.

Definition disabled (texts : list string) : t :=
  {| texts := texts; enabled := false; svd := None; index := None |}.

(** [eff_dims = min(dims, max(2, n_features - 1, 8))] *)
Definition eff_dims (dims n_features : Z) : Z :=
  Z.min dims (Z.max 2 (Z.max (n_features - 1) 8)).

(** [texts or ["placeholder"]] *)
Definition or_placeholder (texts : list string) : list string :=
  match texts with [] => ["placeholder"%string] | _ => texts end.

Section Init.

(** [faiss is not None] *)
Variable faiss_present : bool.
(** [X.shape[1]] of [self.vec.fit_transform(self.texts)]; [None] when the
    vectorizer raised. *)
Variable vec_fit : list string -> option Z.
(** Whether [TruncatedSVD(n_components).fit_transform(X)], the
    normalisation and [index.add] ran without raising. *)
Variable svd_fit_add : list string -> Z -> bool.

Definition init (texts0 : list string) (dims : Z) : t :=
  let texts := or_placeholder texts0 in
  match vec_fit texts with
  | None => disabled texts
  | Some n_features =>
      if negb faiss_present || (n_features <? 3) then disabled texts
      else
        let eff := eff_dims dims n_features in
        if svd_fit_add texts eff
        then {| texts := texts; enabled := true; svd := Some eff;
                index := Some (eff, length texts) |}
        else disabled texts
  end.

End Init.

Section Search.

(** [self.index.search(qv, top_k)] after the query was vectorised, reduced
    and normalised: the row [I[0]] of labels, or [None] when any of these
    steps raised.  The first argument stands for the fitted objects. *)
Variable raw_search : list string -> string -> Z -> option (list Z).

(** [FaissIndex.search(query, top_k)]; a label is kept when it is not
    negative. *)
Definition search (ix : t) (query : string) (top_k : Z) : list nat :=
  if negb (enabled ix) || negb (Py.truthy (Py.strip query)) then []
  else
    match raw_search (texts ix) query top_k with
    | Some labels => map Z.to_nat (List.filter (fun i => 0 <=? i) labels)
    | None => []
    end.

End Search.

(** scikit-learn's randomized solver as documented since 1.1:
    [n_components] must be at least 1 and at most [n_features]. *)
Definition sklearn_randomized (n_features : Z) (n_components : Z) : bool :=
  (1 <=? n_components) && (n_components <=? n_features).

(** Eight one-word chunks: a vocabulary of eight terms. *)
Definition eight_words : list string :=
  ["alpha"; "bravo"; "charlie"; "delta"; "echo"; "foxtrot"; "golf"; "hotel"]%string.

End Faiss.

(** ** The index: [KBIndex] *)

(** [a < b] on scores, as a test. *)
Definition Qlt_bool (a b : Q) : bool := negb (Qle_bool b a).

(** [scores[i]] *)
Definition score_at (scores : list Q) (i : nat) : Q := nth i scores 0%Q.

Definition is_token_char (c : ascii) : bool :=
  let n := nat_of_ascii c in
  ((65 <=? n)%nat && (n <=? 90)%nat) || ((97 <=? n)%nat && (n <=? 122)%nat)
  || ((48 <=? n)%nat && (n <=? 57)%nat) || (n =? 95)%nat.

Definition lower_char (c : ascii) : ascii :=
  let n := nat_of_ascii c in
  if ((65 <=? n)%nat && (n <=? 90)%nat) then ascii_of_nat (n + 32) else c.

Fixpoint lower (s : string) : string :=
  match s with
  | EmptyString => EmptyString
  | String c s' => String (lower_char c) (lower s')
  end.

(** [_token_re.findall(text)] for the pattern [[A-Za-z0-9_]+]; [cur] is
    the run being read. *)
Fixpoint findall_tokens (text cur : string) : list string :=
  match text with
  | EmptyString => if Py.truthy cur then [cur] else []
  | String c rest =>
      if is_token_char c then findall_tokens rest (cur +:+ String c EmptyString)
      else (if Py.truthy cur then [cur] else []) ++ findall_tokens rest EmptyString
  end.

Definition _tokenize (text : string) : list string :=
  map lower (findall_tokens text EmptyString).

Record Chunk := mkChunk {
  doc_id : string;
  start_line : Z;
  end_line : Z;
  text : string
}.

(** The two rerankers; [HFCEC] holds the loaded model's [predict]. *)
Inductive Reranker :=
| TfidfReranker
| HFCEC (predict : list (string * string) -> list Q).

Record Settings := mkSettings {
  faiss_enabled : bool;
  svd_components : Z;
  sencoder_model : option string
}.

(** A built index.  A fitted third-party object is represented by the
    texts it was fitted on: [lex_mx] for the TF-IDF matrix, [_bm25] for
    the BM25 structure ([None] when the signal is off). *)
Record KBIndex := mkKBIndex {
  chunks : list Chunk;
  _empty : bool;
  lex_mx : list string;
  _bm25 : option (list (list string));
  _bm25_corpus_tokens : option (list (list string));
  faiss : option Faiss.t;
  reranker : Reranker
}.

Definition space : string := String (ascii_of_nat 32) EmptyString.

(** [cand_ids = set(lexical); for i in bm25: cand_ids.add(i); for i in
    vector: cand_ids.add(i)] *)
Definition fuse (lexical_ids bm25_ids vector_ids : list nat) : gset nat :=
  foldl (fun s i => {[ i ]} ∪ s)
        (foldl (fun s i => {[ i ]} ∪ s) (list_to_set lexical_ids) bm25_ids)
        vector_ids.

(** The keys of the same set in the order they entered it: [set(l)] and
    [add] put a key in once, and adding it again changes nothing. *)
Definition set_keys (l : list nat) : list nat :=
  foldl (fun s i => if bool_decide (i ∈ s) then s else s ++ [i]) [] l.

Definition doc_chunks (doc : string * list string) : list Chunk :=
  let '(doc_id, lines) := doc in
  map (fun c : chunk_t => let '(s, e, txt) := c in mkChunk doc_id s e txt)
      (make_chunks lines 4 3).

(** [s = fuzz.token_set_ratio(qstr, " ".join(toks)) / 100.0] *)
Definition similarity (ratio : string -> string -> Q) (qstr : string)
    (toks : list string) : Q :=
  (ratio qstr (Py.join space toks) / 100)%Q.

(** The loop over [enumerate(self._bm25_corpus_tokens)], from position [i].
    [boost] has the length of the scores, one per corpus entry, so
    [boost[i]] stays inside the array. *)
Fixpoint boost_loop (ratio : string -> string -> Q) (qstr : string) (i : nat)
    (corpus : list (list string)) (boost : list Q) : list Q :=
  match corpus with
  | [] => boost
  | toks :: rest =>
      match toks with
      | [] => boost_loop ratio qstr (S i) rest boost
      | _ =>
          let s := similarity ratio qstr toks in
          if Qlt_bool (85 # 100) s
          then boost_loop ratio qstr (S i) rest
                 (alter (fun b => (b + (15 # 100) * s)%Q) i boost)
          else boost_loop ratio qstr (S i) rest boost
      end
  end.

(** What the process finds installed and configured.  A fitted object is
    a function of the texts it was fitted on; a call that raises is
    [None] or [false]. *)
Class Env := {
  (** CPython: the order in which [for i in cand_ids] walks a set of
      integers, given its keys in the order they entered it. *)
  set_order : list nat -> list nat;
  (** numpy: [np.argsort(scores)]. *)
  argsort : list Q -> list nat;
  (** scikit-learn: [(lex_vec.transform([query]) @ lex_mx.T).toarray().ravel()]
      for the matrix fitted on the given texts. *)
  tfidf_scores : list string -> string -> list Q;
  (** rank_bm25: whether [BM25Okapi] could be imported, whether
      [BM25Okapi(corpus)] returned (it divides by the number of distinct
      terms), and [get_scores] of the structure built on the given
      corpus. *)
  BM25Okapi : bool;
  bm25_init : list (list string) -> bool;
  bm25_get_scores : list (list string) -> list string -> list Q;
  (** rapidfuzz: [fuzz.token_set_ratio], [None] when the import failed. *)
  fuzz : option (string -> string -> Q);
  (** faiss and the SVD, see [Faiss].  [vec_fit] is
      [TfidfVectorizer(ngram_range=(1, 2), min_df=1,
      stop_words="english").fit_transform(texts).shape[1]], [None] when it
      raised: [ValueError] on an empty vocabulary.  [KBIndex.__init__]
      fits a vectorizer with the same settings on the same texts. *)
  faiss_present : bool;
  vec_fit : list string -> option Z;
  svd_fit_add : list string -> Z -> bool;
  raw_search : list string -> string -> Z -> option (list Z);
  (** scikit-learn in the reranker:
      [cosine_similarity(X[0], X[1:]).ravel()] after
      [X = self.vec.fit_transform([query] + texts)]; [None] when the fit
      raised, which it does on an empty vocabulary. *)
  tfidf_cosine : string -> list string -> option (list Q);
  (** sentence_transformers: [CrossEncoder(model)], [None] when importing
      or loading raised, otherwise its [predict]. *)
  cross_encoder : string -> option (list (string * string) -> list Q);
  (** Configuration: [settings] and the [BM25_ENABLED] switch. *)
  settings : Settings;
  bm25_enabled : bool
}.

Section Retrieval.

Context {env : Env}.

(** The scores a reranker sorts by: [sim] in [TfidfReranker.rerank],
    [scores] in [HFCEC.rerank]; [None] is the [ValueError] of the
    vectorizer, which nothing in [rerank] catches. *)
Definition rerank_scores (r : Reranker) (query : string)
    (candidates : list (nat * string)) : option (list Q) :=
  match r with
  | TfidfReranker =>
      let texts := match map snd candidates with
                   | [] => [EmptyString]
                   | l => l
                   end in
      tfidf_cosine query texts
  | HFCEC predict =>
      let pairs := map (fun c : nat * string => (query, snd c)) candidates in
      Some (predict pairs)
  end.

(** [rerank]: [list(np.argsort(scores)[::-1])] in both classes. *)
Definition rerank (r : Reranker) (query : string) (candidates : list (nat * string))
  : option (list nat) :=
  scores ← rerank_scores r query candidates;
  Some (rev (argsort scores)).

Definition build_reranker : Reranker :=
  match sencoder_model settings with
  | None => TfidfReranker
  | Some model =>
      if Py.truthy model then
        match cross_encoder model with
        | Some predict => HFCEC predict
        | None => TfidfReranker
        end
      else TfidfReranker
  end.

(** The chunk list [KBIndex.__init__] fills first, from what
    [iter_docs(kb_dir)] yields. *)
Definition build_chunks (docs : list (string * list string)) : list Chunk :=
  flat_map doc_chunks docs.

(** The fields [KBIndex.__init__] assigns, in the run where no call
    raises. *)
Definition KBIndex_object (docs : list (string * list string)) : KBIndex :=
  let chunks := build_chunks docs in
  let texts := Faiss.or_placeholder (map text chunks) in
  let empty := bool_decide (texts = ["placeholder"%string]) in
  let use_bm25 := BM25Okapi && negb empty && bm25_enabled in
  let corpus := map _tokenize texts in
  {| chunks := chunks;
     _empty := empty;
     lex_mx := texts;
     _bm25 := if use_bm25 then Some corpus else None;
     _bm25_corpus_tokens := if use_bm25 then Some corpus else None;
     faiss := if faiss_enabled settings
              then Some (Faiss.init faiss_present vec_fit svd_fit_add texts
                                    (svd_components settings))
              else None;
     reranker := build_reranker |}.

(** [KBIndex.__init__]; [None] when it raised.  Two calls are not
    guarded: [self.lex_vec.fit_transform(texts)] and
    [BM25Okapi(self._bm25_corpus_tokens)]; the vector index and the
    reranker are built under [try]. *)
Definition KBIndex_init (docs : list (string * list string)) : option KBIndex :=
  let ix := KBIndex_object docs in
  match vec_fit (lex_mx ix) with
  | None => None
  | Some _ =>
      match _bm25 ix with
      | Some corpus => if bm25_init corpus then Some ix else None
      | None => Some ix
      end
  end.

(** [idx = np.argsort(scores)[::-1]; [int(i) for i in idx[:n] if scores[i] > 0]] *)
Definition topn (scores : list Q) (n : Z) : list nat :=
  List.filter (fun i => Qlt_bool 0 (score_at scores i))
              (Py.take (rev (argsort scores)) n).

Definition lexical_topn (ix : KBIndex) (query : string) (n : Z) : list nat :=
  if _empty ix then []
  else
    let scores := tfidf_scores (lex_mx ix) query in
    if (length scores =? 0)%nat then [] else topn scores n.

(** The scores [bm25_topn] sorts: [get_scores(qtok)], plus the boost when
    rapidfuzz is there and the query has at most three tokens. *)
Definition bm25_scores (ix : KBIndex) (corpus : list (list string))
    (query : string) : list Q :=
  let qtok := _tokenize query in
  let scores := bm25_get_scores corpus qtok in
  match fuzz with
  | Some ratio =>
      if (length qtok <=? 3)%nat then
        let boost := map (fun _ => 0%Q) scores in
        let qstr := Py.join space qtok in
        let boost := boost_loop ratio qstr 0
                       (default [] (_bm25_corpus_tokens ix)) boost in
        zip_with Qplus scores boost
      else scores
  | None => scores
  end.

Definition bm25_topn (ix : KBIndex) (query : string) (n : Z) : list nat :=
  match _bm25 ix with
  | None => []
  | Some corpus =>
      if _empty ix || negb (Py.truthy (Py.strip query)) then []
      else topn (bm25_scores ix corpus query) n
  end.

Definition faiss_topn (ix : KBIndex) (query : string) (n : Z) : list nat :=
  if _empty ix then []
  else
    match faiss ix with
    | None => []
    | Some fx => Faiss.search raw_search fx query n
    end.

Definition candidate_ids (ix : KBIndex) (query : string) : gset nat :=
  fuse (lexical_topn ix query 25) (bm25_topn ix query 25) (faiss_topn ix query 25).

(** [for i in cand_ids]: the keys of [cand_ids] in the order the set is
    walked. *)
Definition candidate_walk (ix : KBIndex) (query : string) : list nat :=
  set_order (set_keys (lexical_topn ix query 25 ++ bm25_topn ix query 25
                       ++ faiss_topn ix query 25)).

(** [KBIndex.hybrid_search]; [None] is an exception that leaves the
    method: an [IndexError] from [self.chunks[i]] or [candidates[i]], or
    the [ValueError] of the reranker. *)
Definition KBIndex_hybrid_search (ix : KBIndex) (query : string) (top_k : Z)
  : option (list Chunk) :=
  if negb (Py.truthy (Py.strip query)) then Some []
  else
    let cand_ids := candidate_ids ix query in
    if bool_decide (cand_ids = ∅) then Some []
    else
      candidates ← mapM (fun i => c ← chunks ix !! i; Some (i, text c))
                        (candidate_walk ix query);
      order ← rerank (reranker ix) query candidates;
      selected_ids ← mapM (fun i => fst <$> candidates !! i)
                          (Py.take order (Z.max 1 top_k));
      mapM (fun i => chunks ix !! i) selected_ids.

(** The process-wide [_index] and the functions around it; [docs] is what
    the knowledge-base directory holds when the index is built.  Each
    returns its result, [None] when it raised, and the new value of
    [_index]: a build that raises leaves [None] there. *)
Definition get_index (docs : list (string * list string)) (_index : option KBIndex)
  : option KBIndex * option KBIndex :=
  match _index with
  | Some ix => (Some ix, Some ix)
  | None =>
      match KBIndex_init docs with
      | Some ix => (Some ix, Some ix)
      | None => (None, None)
      end
  end.

(** [_index = None; return get_index()] *)
Definition rebuild_index (docs : list (string * list string))
    (_index : option KBIndex) : option KBIndex * option KBIndex :=
  get_index docs None.

Definition hybrid_search (docs : list (string * list string))
    (_index : option KBIndex) (query : string) (top_k : Z)
  : option (list Chunk) * option KBIndex :=
  match get_index docs _index with
  | (Some ix, st) => (KBIndex_hybrid_search ix query top_k, st)
  | (None, st) => (None, st)
  end.

End Retrieval.

(** ** The loader: [_is_noise_line], [read_doc_lines], [iter_docs] *)

(** [sum(ch.isalpha() for ch in s)] *)
Fixpoint count_alpha (s : string) : Z :=
  match s with
  | EmptyString => 0
  | String c s' => (if Py.is_alpha c then 1 else 0) + count_alpha s'
  end.

(** The quotient [letters / max(1, len(s))] is compared with [0.25] as an
    exact rational. *)
Definition _is_noise_line (ln : string) : bool :=
  let s := Py.strip ln in
  if negb (Py.truthy s) then true
  else if Py.startswith s "http://" || Py.startswith s "https://"
          || Py.startswith s "www." then true
  else if Py.contains s "Learn About Vorne XL" then true
  else
    let letters := count_alpha s in
    Qlt_bool (inject_Z letters / inject_Z (Z.max 1 (Py.len s))) (25 # 100).

(** What the process finds on disk and which readers are installed.  A
    call that raises is [None]. *)
Class Files := {
  isdir : string -> bool;
  isfile : string -> bool;
  listdir : string -> list string;
  (** [open(path, "r", encoding="utf-8", errors="ignore").read()] *)
  read_text : string -> option string;
  (** [PyPDF2 is not None], and [pg.extract_text()] for the pages of
      [PyPDF2.PdfReader(f).pages]. *)
  PyPDF2 : bool;
  pdf_pages : string -> option (list (option string));
  (** [docx is not None], and [p.text] for the paragraphs of
      [docx.Document(path).paragraphs]. *)
  docx : bool;
  docx_paragraphs : string -> option (list (option string))
}.

(** [if ln and not _is_noise_line(ln)] *)
Definition keep_line (ln : string) : bool :=
  Py.truthy ln && negb (_is_noise_line ln).

(** The lines one PDF page adds to [out]. *)
Definition page_lines (txt : string) : list string :=
  List.filter keep_line
    (map Py.strip (Py.split_char Py.LF (Py.replace_char Py.CR Py.LF txt))).

(** [ext in (".md", ".txt")] *)
Definition is_text_ext (ext : string) : bool :=
  String.eqb ext ".md" || String.eqb ext ".txt".

Section Loader.

Context {files : Files}.

Definition read_doc_lines (path : string) : list string :=
  let ext := Py.lower (Py.splitext path) in
  if is_text_ext ext then
    match read_text path with
    | Some content =>
        List.filter (fun ln => negb (_is_noise_line ln)) (Py.splitlines content)
    | None => []
    end
  else if String.eqb ext ".pdf" && PyPDF2 then
    match pdf_pages path with
    | Some pages => flat_map (fun pg => page_lines (Py.or_empty pg)) pages
    | None => []
    end
  else if String.eqb ext ".docx" && docx then
    match docx_paragraphs path with
    | Some paragraphs =>
        List.filter keep_line (map (fun p => Py.strip (Py.or_empty p)) paragraphs)
    | None => []
    end
  else [].

(** [fn.lower().endswith((".md", ".txt", ".pdf", ".docx"))] *)
Definition supported (fn : string) : bool :=
  let l := Py.lower fn in
  Py.endswith l ".md" || Py.endswith l ".txt" || Py.endswith l ".pdf"
  || Py.endswith l ".docx".

(** [list(iter_docs(kb_dir))] *)
Definition iter_docs (kb_dir : string) : list (string * list string) :=
  if negb (isdir kb_dir) then []
  else
    flat_map (fun fn =>
                if negb (supported fn) then []
                else
                  let path := Py.path_join kb_dir fn in
                  let lines := read_doc_lines path in
                  match lines with
                  | [] => []
                  | _ => [(fn, lines)]
                  end)
             (listdir kb_dir).

(** ** [kb_raw] of [app/main.py] *)

Inductive Response :=
| PlainTextResponse (body : string)
| HTTPException (status_code : Z) (detail : string).

Definition kb_raw (kb_dir doc_id : string) (start end_ : Z) : Response :=
  let path := Py.path_join kb_dir (Py.basename doc_id) in
  if negb (isfile path) then HTTPException 404 "doc not found"
  else
    let ext := Py.lower (Py.splitext path) in
    let lines :=
      if is_text_ext ext then Py.splitlines <$> read_text path
      else Some (read_doc_lines path) in
    match lines with
    | None => HTTPException 500 "read_error"
    | Some lines =>
        let s := Z.max 0 start in
        let e := Z.max s end_ in
        let snippet := Py.join Py.nl (Py.slice lines s (e + 1)) in
        PlainTextResponse (if Py.truthy snippet then snippet else "(empty)")
    end.

End Loader.

(** ** The guardrail: [detect_injection] of [app/guardrails.py] *)

(** The pieces of an alternative of [_INJECTION]: a word, [\s+], [\s*]. *)
Inductive piece :=
| word (w : string)
| spaces1
| spaces0.

(** What follows [w] when the text starts with [w] in any case
    ([re.IGNORECASE]; the words of the pattern are in lower case). *)
Fixpoint after_word (w s : string) : option string :=
  match w with
  | EmptyString => Some s
  | String a w' =>
      match s with
      | EmptyString => None
      | String b s' =>
          if Ascii.eqb a (Py.lower_char b) then after_word w' s' else None
      end
  end.

(** The alternative matches at the start of the text.  A run of white
    space is taken whole: what follows it in the pattern is a word, which
    starts with no white space. *)
Fixpoint match_here (p : list piece) (s : string) : bool :=
  match p with
  | [] => true
  | word w :: p' =>
      match after_word w s with
      | Some rest => match_here p' rest
      | None => false
      end
  | spaces1 :: p' =>
      match s with
      | EmptyString => false
      | String c s' => Py.is_space c && match_here p' (Py.lstrip s')
      end
  | spaces0 :: p' => match_here p' (Py.lstrip s)
  end.

(** The alternative matches somewhere in the text. *)
Fixpoint search (p : list piece) (s : string) : bool :=
  match_here p s
  || match s with
     | EmptyString => false
     | String _ s' => search p s'
     end.

Definition _INJECTION : list (list piece) :=
  [ [word "ignore"; spaces1; word "previous"];
    [word "disregard"; spaces1; word "all"; spaces1; word "prior"];
    [word "system"; spaces0; word "prompt"];
    [word "jailbreak"];
    [word "do"; spaces1; word "anything"; spaces1; word "now"];
    [word "pretend"];
    [word "override"];
    [word "act"; spaces1; word "as"; spaces1; word "if"] ].

Definition detect_injection (text : string) : bool :=
  if negb (Py.truthy text) then false
  else existsb (fun p => search p text) _INJECTION.

(** ** The orchestrator: [handle_ask] of [app/orchestrator.py] *)

Module Ask.

Record Citation := mkCitation {
  doc_id : string;
  start_line : Z;
  end_line : Z;
  snippet : string
}.

Record Metrics := mkMetrics {
  latency_ms : Z;
  grounded_ratio : Q;
  schema_repairs : Z
}.

Record Request := mkRequest {
  question : string;
  top_k : Z
}.

Record Response := mkResponse {
  answer : string;
  citations : list Citation;
  metrics : Metrics;
  insufficient_context : bool
}.

End Ask.

Definition refusal : string :=
  "Your query appears unsafe or under-grounded. Please rephrase or add sources.".

Definition citation_of (c : Chunk) : Ask.Citation :=
  Ask.mkCitation (doc_id c) (start_line c) (end_line c) (text c).

Section Orchestrator.

Context {env : Env}.

(** [scrub_pii] and [compose_answer] rewrite text with regular
    expressions; they are total on strings and enter as they are. *)
Variable scrub_pii : string -> string.
Variable compose_answer : string -> list Ask.Citation -> string.
(** [settings.default_top_k] *)
Variable default_top_k : Z.

(** [handle_ask(req)]: [docs] and [_index] as for [hybrid_search]; [t0]
    and [t1] are the two readings of the clock.  [None] is an exception
    that leaves the function: whatever [hybrid_search] raised, since
    nothing here catches it. *)
Definition handle_ask (docs : list (string * list string))
    (_index : option KBIndex) (t0 t1 : Q) (req : Ask.Request)
  : option Ask.Response * option KBIndex :=
  let q := scrub_pii (Ask.question req) in
  let inj := detect_injection q in
  let topk := Z.max 1 (if Ask.top_k req =? 0 then default_top_k
                       else Ask.top_k req) in
  let '(found, st) := if inj then (Some [], _index)
                      else hybrid_search docs _index q topk in
  match found with
  | None => (None, st)
  | Some chunks =>
      let latency := Py.int ((t1 - t0) * 1000) in
      if inj || match chunks with [] => true | _ => false end then
        (Some (Ask.mkResponse refusal []
                 (Ask.mkMetrics latency 0 0) true), st)
      else
        let citations := map citation_of chunks in
        let answer_text := compose_answer q citations in
        (Some (Ask.mkResponse answer_text citations
                 (Ask.mkMetrics latency
                    (match citations with [] => 0 | _ => 1 end) 0)
                 false), st)
  end.

End Orchestrator.

(** ** [kb_reindex] of [app/main.py] *)

Section Reindex.

Context {env : Env} {files : Files}.

(** The fields [ok], [chunks] and [ms] of the answer, [None] when
    [rebuild_index] raised, and the new value of [_index]; [t0] and [t1]
    are the two readings of the clock. *)
Definition kb_reindex (kb_dir : string) (_index : option KBIndex) (t0 t1 : Q)
  : option (bool * Z * Z) * option KBIndex :=
  match rebuild_index (iter_docs kb_dir) _index with
  | (Some idx, st) =>
      (Some (true, Z.of_nat (length (chunks idx)), Py.int ((t1 - t0) * 1000)), st)
  | (None, st) => (None, st)
  end.

End Reindex.

(** * Part II: vocabulary of the statements, and stand-in libraries *)

(** The string holds white space only. *)
Fixpoint all_space (s : string) : bool :=
  match s with
  | EmptyString => true
  | String c s' => Py.is_space c && all_space s'
  end.

(** The lines of a document at the positions [s], [s+1], ..., [e]. *)
Definition lines_between (lines : list string) (s e : Z) : list string :=
  firstn (Z.to_nat (e - s + 1)) (skipn (Z.to_nat s) lines).

(** Line [j] lies in the range of an emitted chunk. *)
Definition covered (out : list chunk_t) (j : Z) : bool :=
  existsb (fun c : chunk_t => let '(s, e, _) := c in (s <=? j) && (j <=? e)) out.

Definition covers_all (lines : list string) (window stride : Z) : Prop :=
  forall j, 0 <= j < n_lines lines ->
    covered (make_chunks lines window stride) j = true.

(** A line the loader keeps: [_is_noise_line] rejects a line whose
    [strip()] is empty. *)
Definition not_blank (ln : string) : Prop := Py.strip ln <> EmptyString.

(** Chunk [c1] starts on an earlier line than chunk [c2]. *)
Definition start_before (c1 c2 : chunk_t) : Prop := fst (fst c1) < fst (fst c2).

(** The reading of "text is the newline-joined slice" without trimming. *)
Definition text_is_joined_slice (lines : list string) (window stride : Z) : Prop :=
  forall s e txt, (s, e, txt) ∈ make_chunks lines window stride ->
    txt = Py.join Py.nl (lines_between lines s e).

(** Position [a] scores no more than position [b]; and the converse
    order, best first. *)
Definition ascending (scores : list Q) (a b : nat) : Prop :=
  (score_at scores a <= score_at scores b)%Q.
Definition best_first (scores : list Q) (a b : nat) : Prop :=
  (score_at scores b <= score_at scores a)%Q.

(** What one pass of the loop makes of the entry [b] of [boost]. *)
Definition boosted_entry (ratio : string -> string -> Q) (qstr : string)
    (toks : list string) (b : Q) : Q :=
  match toks with
  | [] => b
  | _ => if Qlt_bool (85 # 100) (similarity ratio qstr toks)
         then (b + (15 # 100) * similarity ratio qstr toks)%Q
         else b
  end.

(** A loaded model scores every pair it is given. *)
Definition reranker_ok (r : Reranker) : Prop :=
  match r with
  | TfidfReranker => True
  | HFCEC predict => forall pairs, length (predict pairs) = length pairs
  end.

(** The process-wide index is either not built yet or the result of a
    build from a directory listing, whose file names are distinct. *)
Definition live {env : Env} (_index : option KBIndex) : Prop :=
  match _index with
  | None => True
  | Some ix => exists docs, NoDup (map fst docs) /\ KBIndex_init docs = Some ix
  end.

(** What the interpreter and the libraries promise, in one record: a set
    is walked key by key, each key once; [argsort] returns the positions
    in ascending order of value; there is one score per indexed text, per
    reranked text and per predicted pair; a faiss label is [-1] or the
    position of a stored vector. *)
Record LibsOk {env : Env} : Prop := {
  ok_set_order : forall keys, NoDup keys -> set_order keys ≡ₚ keys;
  ok_argsort_perm : forall l, argsort l ≡ₚ seq 0 (length l);
  ok_argsort_sorted : forall l, StronglySorted (ascending l) (argsort l);
  ok_tfidf_scores : forall texts q, length (tfidf_scores texts q) = length texts;
  ok_bm25_scores : forall corpus q,
    length (bm25_get_scores corpus q) = length corpus;
  ok_raw_search : forall texts q k labels,
    raw_search texts q k = Some labels ->
    Forall (fun i => i < Z.of_nat (length texts)) labels;
  ok_tfidf_cosine : forall q texts scores,
    tfidf_cosine q texts = Some scores -> length scores = length texts;
  ok_predict : forall model predict pairs,
    cross_encoder model = Some predict -> length (predict pairs) = length pairs
}.

(** One more promise of scikit-learn, used where the return of a search
    is at stake: the index and the TF-IDF reranker build their
    vectorizers with the same settings, so a text that scored above 0
    against some query holds a term the vectorizer keeps, and a fit on
    texts that include it finds a vocabulary. *)
Definition positive_fits {env : Env} : Prop :=
  forall texts q i t,
    texts !! i = Some t -> (0 < score_at (tfidf_scores texts q) i)%Q ->
    forall q' texts', t ∈ texts' -> is_Some (tfidf_cosine q' texts').


(** A chunk of the index comes from a document of the directory: its line
    range lies inside the document and its text is the trimmed join of
    these lines. *)
Definition chunk_of_docs (docs : list (string * list string)) (c : Chunk) : Prop :=
  exists lines,
    (doc_id c, lines) ∈ docs
    /\ 0 <= start_line c <= end_line c /\ end_line c < n_lines lines
    /\ text c = Py.strip (Py.join Py.nl
                           (lines_between lines (start_line c) (end_line c)))
    /\ text c <> EmptyString.

(** Every character of the string passes the test. *)
Fixpoint all_chars (p : ascii -> bool) (s : string) : bool :=
  match s with
  | EmptyString => true
  | String c s' => p c && all_chars p s'
  end.

(** [[a-z0-9_]] *)
Definition is_lower_token_char (c : ascii) : bool :=
  let n := nat_of_ascii c in
  ((97 <=? n)%nat && (n <=? 122)%nat) || ((48 <=? n)%nat && (n <=? 57)%nat)
  || (n =? 95)%nat.

(** A token as the index stores it: not empty, of lower-case letters,
    digits and underscores. *)
Definition clean_token (t : string) : bool :=
  Py.truthy t && all_chars is_lower_token_char t.

(** A line the loader lets through: not blank, no bare link, not the
    known boilerplate, and at least a quarter of its characters (white
    space at both ends aside) are letters. *)
Definition clean_line (ln : string) : Prop :=
  let s := Py.strip ln in
  s <> EmptyString
  /\ Py.startswith s "http://" = false
  /\ Py.startswith s "https://" = false
  /\ Py.startswith s "www." = false
  /\ Py.contains s "Learn About Vorne XL" = false
  /\ Py.len s <= 4 * count_alpha s.

(** The run the tokenizer is reading, when the text ends here. *)
Definition flush (cur : string) : list string :=
  if Py.truthy cur then [cur] else [].

(** The range of the window that starts [j] steps after line [i]. *)
Definition window_range (lines : list string) (window stride : Z) (i : Z)
    (j : nat) : Z * Z :=
  (i + Z.of_nat j * Z.max 1 stride,
   Z.min (n_lines lines - 1) (i + Z.of_nat j * Z.max 1 stride + window - 1)).

(** How many windows start at or after line [i]. *)
Definition windows_left (lines : list string) (stride : Z) (i : Z) : nat :=
  Z.to_nat ((n_lines lines - i + Z.max 1 stride - 1) / Z.max 1 stride).

(** ** An executable stand-in for the libraries

    Small functions with the promised shape: ascending order for the walk
    of a set, a merge sort of the positions for [argsort], shared-term
    counts for the scores, exact match for the fuzzy ratio; a vectorizer
    that keeps the tokens of two characters or more that are no stop word
    and fails when it keeps none.  They serve to run the model and to
    show that the promises above can be met together. *)

Module Ref.

#[local] Instance ascending_dec l : RelDecision (ascending l).
Proof.
  intros a b. unfold ascending.
  destruct (Qle_bool (score_at l a) (score_at l b)) eqn:H.
  - left. apply Qle_bool_iff, H.
  - right. intros Hle. apply Qle_bool_iff in Hle. congruence.
Defined.

Definition set_order (keys : list nat) : list nat := merge_sort le keys.

Definition argsort (l : list Q) : list nat :=
  merge_sort (ascending l) (seq 0 (length l)).

(** How many tokens of [q] occur in [t]. *)
Definition overlap (q t : list string) : Q :=
  inject_Z (Z.of_nat (length (List.filter (fun w => existsb (String.eqb w) t) q))).

(** A few of the English stop words. *)
Definition stop_words : list string :=
  ["a"; "an"; "and"; "in"; "is"; "of"; "the"; "to"]%string.

(** The terms the vectorizer keeps of a text. *)
Definition terms (t : string) : list string :=
  List.filter (fun w => (2 <=? String.length w)%nat
                        && negb (existsb (String.eqb w) stop_words))
              (_tokenize t).

Definition tfidf_scores (texts : list string) (query : string) : list Q :=
  map (fun t => overlap (terms query) (terms t)) texts.

Definition bm25_get_scores (corpus : list (list string)) (qtok : list string)
  : list Q :=
  map (overlap qtok) corpus.

Definition token_set_ratio (a b : string) : Q :=
  if Py.truthy a && Py.truthy b && String.eqb a b then 100%Q else 0%Q.

Definition bm25_init (corpus : list (list string)) : bool :=
  match concat corpus with [] => false | _ => true end.

Definition vec_fit (texts : list string) : option Z :=
  match concat (map terms texts) with
  | [] => None
  | vocabulary => Some (Z.of_nat (length vocabulary))
  end.

Definition svd_fit_add (texts : list string) (n_components : Z) : bool :=
  match vec_fit texts with
  | Some n_features => Faiss.sklearn_randomized n_features n_components
  | None => false
  end.

Definition raw_search (texts : list string) (query : string) (top_k : Z)
  : option (list Z) :=
  Some (firstn (Z.to_nat top_k) (map Z.of_nat (seq 0 (length texts)) ++ [-1])).

Definition tfidf_cosine (query : string) (texts : list string)
  : option (list Q) :=
  match vec_fit (query :: texts) with
  | Some _ => Some (tfidf_scores texts query)
  | None => None
  end.

Definition cross_encoder (model : string)
  : option (list (string * string) -> list Q) :=
  if String.eqb model "pairwise"
  then Some (map (fun p : string * string =>
                    overlap (_tokenize (fst p)) (_tokenize (snd p))))
  else None.

Definition settings : Settings :=
  {| faiss_enabled := true; svd_components := 256; sencoder_model := None |}.

(** A knowledge base of two files. *)
Definition docs : list (string * list string) :=
  [("a.md", ["Alpha is a test term."; "Beta is unrelated."]);
   ("b.txt", ["alpha"])]%string.

(** A knowledge base whose only file holds stop words, and one of three
    files of which the last holds stop words only. *)
Definition stop_docs : list (string * list string) :=
  [("s.md", ["the and of"])]%string.

Definition mixed_docs : list (string * list string) :=
  [("a.md", ["alpha beta"]); ("b.md", ["gamma"]); ("c.md", ["is a"])]%string.

End Ref.

Definition ref_env : Env := {|
  set_order := Ref.set_order;
  argsort := Ref.argsort;
  tfidf_scores := Ref.tfidf_scores;
  BM25Okapi := true;
  bm25_init := Ref.bm25_init;
  bm25_get_scores := Ref.bm25_get_scores;
  fuzz := Some Ref.token_set_ratio;
  faiss_present := true;
  vec_fit := Ref.vec_fit;
  svd_fit_add := Ref.svd_fit_add;
  raw_search := Ref.raw_search;
  tfidf_cosine := Ref.tfidf_cosine;
  cross_encoder := Ref.cross_encoder;
  settings := Ref.settings;
  bm25_enabled := true
|}.

(** The index of the two-file knowledge base, and its corpus tokens. *)
Definition ref_index : KBIndex := KBIndex_object (env := ref_env) Ref.docs.

(** The index of the three-file knowledge base. *)
Definition mixed_index : KBIndex := KBIndex_object (env := ref_env) Ref.mixed_docs.

Definition ref_corpus : list (list string) :=
  [["alpha"; "is"; "a"; "test"; "term"; "beta"; "is"; "unrelated"]; ["alpha"]]%string.

(** The stand-in libraries on a machine without rank_bm25 and faiss. *)
Definition lexical_env : Env := {|
  set_order := Ref.set_order;
  argsort := Ref.argsort;
  tfidf_scores := Ref.tfidf_scores;
  BM25Okapi := false;
  bm25_init := Ref.bm25_init;
  bm25_get_scores := Ref.bm25_get_scores;
  fuzz := Some Ref.token_set_ratio;
  faiss_present := false;
  vec_fit := Ref.vec_fit;
  svd_fit_add := Ref.svd_fit_add;
  raw_search := Ref.raw_search;
  tfidf_cosine := Ref.tfidf_cosine;
  cross_encoder := Ref.cross_encoder;
  settings := Ref.settings;
  bm25_enabled := true
|}.

(** The same knowledge base on that machine, and its two chunks. *)
Definition lexical_index : KBIndex :=
  KBIndex_object (env := lexical_env) Ref.docs.

Definition chunk_a : Chunk :=
  mkChunk "a.md" 0 1 ("Alpha is a test term." +:+ Py.nl +:+ "Beta is unrelated.").

Definition chunk_b : Chunk := mkChunk "b.txt" 0 0 "alpha".

(** A knowledge-base directory on disk: a text file of two lines, a text
    file with an empty line, a PDF of two pages, the second without text,
    and a file the loader does not read. *)
Definition notes_md : string :=
  "one" +:+ Py.nl +:+ Py.nl +:+ "two" +:+ Py.nl +:+ "three" +:+ Py.nl
  +:+ "four" +:+ Py.nl +:+ "five".

Definition ref_files : Files := {|
  isdir d := String.eqb d "kb";
  isfile p :=
    existsb (String.eqb p) ["kb/a.md"; "kb/notes.md"; "kb/c.pdf"; "kb/skip.bin"]%string;
  listdir d :=
    if String.eqb d "kb" then ["a.md"; "notes.md"; "c.pdf"; "skip.bin"]%string
    else [];
  read_text p :=
    if String.eqb p "kb/a.md"
    then Some ("Alpha is a test term." +:+ Py.nl +:+ "Beta is unrelated.")%string
    else if String.eqb p "kb/notes.md" then Some notes_md
    else None;
  PyPDF2 := true;
  pdf_pages p :=
    if String.eqb p "kb/c.pdf"
    then Some [Some ("  Gamma rays  " +:+ String Py.CR " 12 " +:+ Py.nl
                     +:+ "www.example.org")%string; None]
    else None;
  docx := false;
  docx_paragraphs _ := None
|}.

(** Stand-ins for the two text rewriters of the orchestrator. *)
Definition ref_scrub_pii (text : string) : string := text.

Definition ref_compose_answer (question : string) (citations : list Ask.Citation)
  : string :=
  Py.join space (map Ask.snippet citations).

(** * Part III: proofs *)

Example make_chunks_two_lines :
  make_chunks ["Alpha is a test term."; "Beta is unrelated."]%string 4 3
  = [(0, 1, "Alpha is a test term." +:+ Py.nl +:+ "Beta is unrelated.")]%string.
Proof. reflexivity. Qed.

(** ** Facts about the Python primitives *)

Module PyFacts.

Lemma all_space_app a b : all_space (a +:+ b) = all_space a && all_space b.
Proof.
  induction a as [|c a IH]; simpl; [reflexivity|].
  rewrite IH. apply andb_assoc.
Qed.

Lemma rstrip_keeps_head c t :
  Py.is_space c = false -> Py.rstrip (String c t) <> EmptyString.
Proof.
  intros Hc. simpl. destruct (Py.rstrip t); [rewrite Hc|]; discriminate.
Qed.

Lemma lstrip_shape s :
  (all_space s = true /\ Py.lstrip s = EmptyString)
  \/ (all_space s = false /\
      exists c t, Py.lstrip s = String c t /\ Py.is_space c = false).
Proof.
  induction s as [|c s IH]; simpl.
  - left; split; reflexivity.
  - destruct (Py.is_space c) eqn:Hc; simpl.
    + exact IH.
    + right. split; [reflexivity|]. exists c, s. split; [reflexivity|exact Hc].
Qed.

(** [s.strip()] is empty exactly when [s] holds white space only. *)
Lemma strip_empty_iff s : Py.strip s = EmptyString <-> all_space s = true.
Proof.
  unfold Py.strip. destruct (lstrip_shape s) as [[Ha Hl]|[Ha (c & t & Hl & Hc)]].
  - rewrite Hl. simpl. split; intros _; [exact Ha|reflexivity].
  - rewrite Hl, Ha. split; [|discriminate].
    intros H. exfalso. exact (rstrip_keeps_head c t Hc H).
Qed.

Lemma truthy_strip s : Py.truthy (Py.strip s) = negb (all_space s).
Proof.
  destruct (all_space s) eqn:Ha.
  - apply strip_empty_iff in Ha. rewrite Ha. reflexivity.
  - destruct (Py.strip s) eqn:Hs; [|reflexivity].
    apply strip_empty_iff in Hs. congruence.
Qed.

Lemma join_cons sep x rest :
  exists tail, Py.join sep (x :: rest) = x +:+ tail.
Proof.
  destruct rest as [|y rest]; unfold Py.join; simpl.
  - exists EmptyString. induction x as [|c x IH]; [reflexivity|].
    change (String c x = String c (x +:+ EmptyString)). congruence.
  - eexists. reflexivity.
Qed.

Lemma join_head_not_blank sep x rest :
  all_space x = false -> all_space (Py.join sep (x :: rest)) = false.
Proof.
  intros Hx. destruct (join_cons sep x rest) as [tail ->].
  rewrite all_space_app, Hx. reflexivity.
Qed.

(** Inside the bounds a slice is the plain sub-list. *)
Lemma slice_inside {A} (l : list A) (lo hi : Z) :
  0 <= lo -> lo <= hi -> hi <= Z.of_nat (length l) ->
  Py.slice l lo hi = firstn (Z.to_nat (hi - lo)) (skipn (Z.to_nat lo) l).
Proof.
  intros H0 H1 H2. unfold Py.slice, Py.slice_bound.
  destruct (Z.ltb_spec lo 0); [lia|].
  destruct (Z.ltb_spec hi 0); [lia|].
  rewrite !Z.min_l by lia. reflexivity.
Qed.

Lemma slice_inside_head {A} (l : list A) (lo hi : Z) :
  0 <= lo -> lo < hi -> hi <= Z.of_nat (length l) ->
  exists x rest, Py.slice l lo hi = x :: rest /\ l !! Z.to_nat lo = Some x.
Proof.
  intros H0 H1 H2. rewrite slice_inside by lia.
  destruct (l !! Z.to_nat lo) as [x|] eqn:Hx.
  - destruct (Z.to_nat (hi - lo)) as [|k] eqn:Hk; [lia|].
    destruct (skipn (Z.to_nat lo) l) as [|y rest] eqn:Hd.
    + apply (f_equal length) in Hd. rewrite length_skipn in Hd. simpl in Hd. lia.
    + assert (Hy : (y :: rest) !! 0%nat = Some x).
      { rewrite <- Hd, lookup_drop, Nat.add_0_r. exact Hx. }
      simpl in Hy. injection Hy as ->.
      exists x, (firstn k rest). split; reflexivity.
  - apply lookup_ge_None in Hx. lia.
Qed.

End PyFacts.

(** ** What the chunker guarantees *)

Lemma StronglySorted_NoDup {A} (R : relation A) (l : list A) :
  (forall x, ~ R x x) -> StronglySorted R l -> NoDup l.
Proof.
  intros Hirr. induction 1 as [|x l Hl IH Hx]; [constructor|].
  apply NoDup_cons. split; [|exact IH].
  intros Hin. rewrite Forall_forall in Hx. exact (Hirr x (Hx x Hin)).
Qed.

Section ChunkerFacts.

Variable lines : list string.
Variables window stride : Z.

#[local] Abbreviation n := (n_lines lines).
#[local] Abbreviation body := (chunk_body lines window stride).
#[local] Abbreviation loop := (chunk_loop lines window stride).

Lemma chunk_body_index i out : fst (body i out) = i + Z.max 1 stride.
Proof. reflexivity. Qed.

Lemma chunk_loop_exit fuel i out p : n <= i -> loop fuel i out p = Some (out, p).
Proof.
  intros H. destruct fuel; simpl; destruct (Z.ltb_spec i n); (lia || reflexivity).
Qed.

Lemma chunk_loop_step fuel i out p :
  i < n ->
  loop (S fuel) i out p = loop fuel (fst (body i out)) (snd (body i out)) (S p).
Proof.
  intros H. simpl. destruct (Z.ltb_spec i n); [reflexivity|lia].
Qed.

(** Fuel [n - i] is enough from index [i], and then at most [n - i]
    passes are made. *)
Lemma chunk_loop_enough fuel : forall i out p,
  0 <= i -> n - i <= Z.of_nat fuel ->
  exists res k, loop fuel i out p = Some (res, k)
    /\ (p <= k)%nat /\ Z.of_nat (k - p) <= Z.max 0 (n - i).
Proof.
  induction fuel as [|fuel IH]; intros i out p Hi Hf.
  - exists out, p. rewrite chunk_loop_exit by lia. split; [reflexivity|]. lia.
  - destruct (Z.lt_ge_cases i n) as [Hlt|Hge].
    + rewrite chunk_loop_step by exact Hlt. rewrite chunk_body_index.
      destruct (IH (i + Z.max 1 stride) (snd (body i out)) (S p))
        as (res & k & Hrun & Hpk & Hk); [lia|lia|].
      exists res, k. split; [exact Hrun|]. lia.
    + exists out, p. rewrite chunk_loop_exit by lia. split; [reflexivity|]. lia.
Qed.

(** More fuel never changes a result. *)
Lemma chunk_loop_more fuel : forall fuel' i out p r,
  (fuel <= fuel')%nat -> loop fuel i out p = Some r -> loop fuel' i out p = Some r.
Proof.
  induction fuel as [|fuel IH]; intros fuel' i out p r Hle Hrun.
  - simpl in Hrun. destruct (Z.ltb_spec i n); [discriminate|].
    rewrite chunk_loop_exit by lia. exact Hrun.
  - destruct (Z.lt_ge_cases i n) as [Hlt|Hge].
    + destruct fuel' as [|fuel']; [lia|].
      rewrite chunk_loop_step in * by exact Hlt. apply IH; [lia|exact Hrun].
    + rewrite chunk_loop_exit in * by lia. exact Hrun.
Qed.

Lemma make_chunks_run_some :
  exists passes, make_chunks_run lines window stride (length lines)
                 = Some (make_chunks lines window stride, passes)
                 /\ (passes <= length lines)%nat.
Proof.
  destruct (chunk_loop_enough (length lines) 0 [] O) as (res & k & Hrun & _ & Hk);
    [lia|unfold n_lines; lia|].
  exists k. unfold make_chunks, make_chunks_run. rewrite Hrun.
  split; [reflexivity|]. unfold n_lines in Hk. lia.
Qed.

(** A property of chunks that every pass establishes holds of the result. *)
Lemma chunk_loop_all (P : chunk_t -> Prop) :
  (forall i, 0 <= i < n ->
     let e := Z.min (n - 1) (i + window - 1) in
     let txt := Py.strip (Py.join Py.nl (Py.slice lines i (e + 1))) in
     Py.truthy txt = true -> P (i, e, txt)) ->
  forall fuel i out p res k,
    0 <= i -> Forall P out -> loop fuel i out p = Some (res, k) -> Forall P res.
Proof.
  intros HP. induction fuel as [|fuel IH]; intros i out p res k Hi Hout Hrun.
  - simpl in Hrun. destruct (i <? n); [discriminate|]. congruence.
  - destruct (Z.lt_ge_cases i n) as [Hlt|Hge].
    + rewrite chunk_loop_step in Hrun by exact Hlt.
      eapply IH; [| |exact Hrun].
      * rewrite chunk_body_index. lia.
      * unfold chunk_body. simpl.
        destruct (Py.truthy _) eqn:Ht; [|exact Hout].
        apply Forall_app. split; [exact Hout|].
        constructor; [|constructor]. apply HP; [lia|exact Ht].
    + rewrite chunk_loop_exit in Hrun by lia. congruence.
Qed.

(** Every emitted chunk is what one pass of the loop computes. *)
Lemma make_chunks_elem s e txt :
  (s, e, txt) ∈ make_chunks lines window stride ->
  0 <= s < n /\ e = Z.min (n - 1) (s + window - 1)
  /\ txt = Py.strip (Py.join Py.nl (Py.slice lines s (e + 1)))
  /\ txt <> EmptyString.
Proof.
  destruct make_chunks_run_some as (k & Hrun & _).
  pose (P := fun c : chunk_t =>
    let '(s, e, txt) := c in
    0 <= s < n /\ e = Z.min (n - 1) (s + window - 1)
    /\ txt = Py.strip (Py.join Py.nl (Py.slice lines s (e + 1)))
    /\ txt <> EmptyString).
  assert (Hall : Forall P (make_chunks lines window stride)).
  { eapply (chunk_loop_all P); [| |constructor|exact Hrun]; [|lia].
    intros i Hi e0 txt0 Ht. subst P. simpl. repeat split; try lia.
    intros Hempty. subst txt0. rewrite Hempty in Ht. discriminate. }
  intros Hin. rewrite Forall_forall in Hall. exact (Hall _ Hin).
Qed.

Lemma covered_app out extra j :
  covered (out ++ extra) j = covered out j || covered extra j.
Proof. unfold covered. apply existsb_app. Qed.

(** With a positive window no smaller than the stride, and no blank
    line, every pass emits its window and the windows leave no gap. *)
Lemma chunk_loop_covers :
  1 <= window -> stride <= window -> Forall not_blank lines ->
  forall fuel i out p res k,
    0 <= i ->
    (forall j, 0 <= j < Z.min i n -> covered out j = true) ->
    loop fuel i out p = Some (res, k) ->
    forall j, 0 <= j < n -> covered res j = true.
Proof.
  intros Hw Hs Hnb. induction fuel as [|fuel IH]; intros i out p res k Hi Hcov Hrun j Hj.
  - simpl in Hrun. destruct (Z.ltb_spec i n); [discriminate|].
    injection Hrun as <- <-. apply Hcov. lia.
  - destruct (Z.lt_ge_cases i n) as [Hlt|Hge].
    2:{ rewrite chunk_loop_exit in Hrun by lia. injection Hrun as <- <-.
        apply Hcov. lia. }
    rewrite chunk_loop_step in Hrun by exact Hlt.
    eapply IH; [| |exact Hrun|exact Hj].
    { rewrite chunk_body_index. lia. }
    rewrite chunk_body_index. unfold chunk_body. cbn [snd].
    set (e := Z.min (n - 1) (i + window - 1)).
    assert (He : i <= e < n) by (unfold e; lia).
    destruct (PyFacts.slice_inside_head lines i (e + 1))
      as (x & rest & Hsl & Hx); [lia|lia|unfold n_lines in He; lia|].
    rewrite Hsl, PyFacts.truthy_strip.
    assert (Hxb : all_space x = false).
    { apply list_elem_of_lookup_2 in Hx.
      rewrite Forall_forall in Hnb. specialize (Hnb x Hx).
      unfold not_blank in Hnb. rewrite PyFacts.strip_empty_iff in Hnb.
      destruct (all_space x); congruence. }
    rewrite PyFacts.join_head_not_blank by exact Hxb. cbn [negb].
    intros j' Hj'. rewrite covered_app.
    destruct (Z.lt_ge_cases j' i) as [Hold|Hnew].
    + rewrite Hcov by lia. reflexivity.
    + apply orb_true_iff. right. unfold covered. cbn [existsb].
      rewrite orb_false_r. apply andb_true_iff.
      split; apply Z.leb_le; unfold e; lia.
Qed.

(** Chunks are emitted in order of their start line. *)
Lemma chunk_loop_starts fuel : forall i out p res k,
  0 <= i -> StronglySorted start_before out ->
  Forall (fun c : chunk_t => fst (fst c) < i) out ->
  loop fuel i out p = Some (res, k) -> StronglySorted start_before res.
Proof.
  induction fuel as [|fuel IH]; intros i out p res k Hi Hsorted Hbelow Hrun.
  - simpl in Hrun. destruct (i <? n); [discriminate|]. congruence.
  - destruct (Z.lt_ge_cases i n) as [Hlt|Hge].
    2:{ rewrite chunk_loop_exit in Hrun by lia. congruence. }
    rewrite chunk_loop_step in Hrun by exact Hlt.
    eapply IH; [| | |exact Hrun]; rewrite ?chunk_body_index; [lia| |].
    + unfold chunk_body. cbn [snd]. destruct (Py.truthy _); [|exact Hsorted].
      apply StronglySorted_app_2; [|exact Hsorted|repeat constructor].
      intros c1 c2 H1 H2. apply list_elem_of_singleton in H2 as ->.
      rewrite Forall_forall in Hbelow. exact (Hbelow c1 H1).
    + unfold chunk_body. cbn [snd].
      assert (Hold : Forall (fun c : chunk_t => fst (fst c) < i + Z.max 1 stride) out).
      { eapply Forall_impl; [exact Hbelow|]. intros c Hc. simpl in Hc. lia. }
      destruct (Py.truthy _); [|exact Hold].
      apply Forall_app. split; [exact Hold|].
      constructor; [simpl; lia|constructor].
Qed.

Lemma make_chunks_NoDup : NoDup (make_chunks lines window stride).
Proof.
  destruct make_chunks_run_some as (k & Hrun & _).
  apply (StronglySorted_NoDup start_before).
  - intros c. unfold start_before. lia.
  - eapply chunk_loop_starts; [| | |exact Hrun]; [lia|constructor|constructor].
Qed.

End ChunkerFacts.

(** C10: [make_chunks] terminates on every input.  Each pass moves the
    index forward by [max(1, stride)], which is at least 1 whatever the
    stride; with fuel [len(lines)] the loop reaches its exit after at most
    [len(lines)] passes, and more fuel gives the same result. *)
Theorem make_chunks_terminates (lines : list string) (window stride : Z) :
  (forall i out,
     fst (chunk_body lines window stride i out) = i + Z.max 1 stride
     /\ 1 <= Z.max 1 stride)
  /\ exists out passes,
       make_chunks_run lines window stride (length lines) = Some (out, passes)
       /\ (passes <= length lines)%nat
       /\ out = make_chunks lines window stride
       /\ forall fuel, (length lines <= fuel)%nat ->
            make_chunks_run lines window stride fuel = Some (out, passes).
Proof.
  split.
  - intros i out. rewrite chunk_body_index. lia.
  - destruct (make_chunks_run_some lines window stride) as (k & Hrun & Hk).
    exists (make_chunks lines window stride), k.
    repeat split; [exact Hrun|exact Hk|].
    intros fuel Hfuel. unfold make_chunks_run in *.
    eapply chunk_loop_more; [exact Hfuel|exact Hrun].
Qed.

(** C4 as stated fails: a line of a text file keeps its indentation, the
    chunk text does not.  (And a negative window makes Python's slice
    count from the end: the chunk [(0, -3, ...)] of five lines holds the
    first three.) *)
Lemma chunk_text_is_trimmed :
  ~ text_is_joined_slice ["  indented line"]%string 4 3
  /\ ~ text_is_joined_slice ["a"; "b"; "c"; "d"; "e"]%string (-2) 1.
Proof.
  split; intros H.
  - specialize (H 0 0 "indented line"%string).
    assert (Hin : (0, 0, "indented line"%string)
                  ∈ make_chunks ["  indented line"]%string 4 3)
      by (vm_compute; constructor).
    specialize (H Hin). vm_compute in H. discriminate.
  - specialize (H 0 (-3) ("a" +:+ Py.nl +:+ "b" +:+ Py.nl +:+ "c")%string).
    assert (Hin : (0, -3, ("a" +:+ Py.nl +:+ "b" +:+ Py.nl +:+ "c")%string)
                  ∈ make_chunks ["a"; "b"; "c"; "d"; "e"]%string (-2) 1)
      by (vm_compute; constructor).
    specialize (H Hin). vm_compute in H. discriminate.
Qed.

(** C4 (amended): with a window of at least one line (the chunker's is 4),
    every chunk has [0 <= start_line <= end_line < n] and its text is the
    newline-joined lines [start_line .. end_line], trimmed of leading and
    trailing white space. *)
Theorem make_chunks_text (lines : list string) (window stride : Z) (s e : Z)
    (txt : string) :
  1 <= window ->
  (s, e, txt) ∈ make_chunks lines window stride ->
  0 <= s <= e /\ e < n_lines lines
  /\ txt = Py.strip (Py.join Py.nl (lines_between lines s e)).
Proof.
  intros Hw Hin. apply make_chunks_elem in Hin as (Hs & He & Htxt & _).
  assert (Hr : s <= e < n_lines lines) by lia.
  repeat split; try lia.
  rewrite Htxt. unfold lines_between.
  rewrite PyFacts.slice_inside by (unfold n_lines in *; lia).
  do 3 f_equal. lia.
Qed.

Lemma make_chunks_text_witness :
  1 <= 4
  /\ (0, 1, "indented" +:+ Py.nl +:+ "b")%string
       ∈ make_chunks ["  indented"; "b  "]%string 4 3
  /\ (0 <= 0 <= 1 /\ 1 < n_lines ["  indented"; "b  "]%string
      /\ ("indented" +:+ Py.nl +:+ "b")%string
         = Py.strip (Py.join Py.nl
                       (lines_between ["  indented"; "b  "]%string 0 1))).
Proof.
  assert (Hin : (0, 1, "indented" +:+ Py.nl +:+ "b")%string
                ∈ make_chunks ["  indented"; "b  "]%string 4 3)
    by (vm_compute; constructor).
  split; [lia|]. split; [exact Hin|].
  apply (make_chunks_text ["  indented"; "b  "]%string 4 3 0 1); [lia|exact Hin].
Defined.

(** C2 as stated fails twice: a window of white space is not emitted, and
    a window of zero lines (with stride [0 <= 0]) covers nothing. *)
Lemma chunk_coverage_fails :
  (3 <= 4 /\ ~ covers_all [" "]%string 4 3)
  /\ (0 <= 0 /\ ~ covers_all ["a"]%string 0 0).
Proof.
  split; (split; [lia|]); intros H;
    specialize (H 0); vm_compute in H;
    (assert (Hf : false = true) by (apply H; split; congruence));
    discriminate.
Qed.

(** C2 (amended): for a document without blank lines (the loader drops
    them), a window of at least one line and a stride no larger than the
    window, every line index in [0, n-1] lies in the range of an emitted
    chunk. *)
Theorem make_chunks_coverage (lines : list string) (window stride : Z) :
  1 <= window -> stride <= window -> Forall not_blank lines ->
  covers_all lines window stride.
Proof.
  intros Hw Hs Hnb j Hj.
  destruct (make_chunks_run_some lines window stride) as (k & Hrun & _).
  eapply (chunk_loop_covers lines window stride Hw Hs Hnb);
    [| |exact Hrun|exact Hj]; [lia|].
  intros j' Hj'. lia.
Qed.

Lemma make_chunks_coverage_witness :
  1 <= 2 /\ 2 <= 2
  /\ Forall not_blank
       ["Alpha is a test term."; "Beta is unrelated."; "c"; "d"; "e"]%string
  /\ covers_all
       ["Alpha is a test term."; "Beta is unrelated."; "c"; "d"; "e"]%string 2 2.
Proof.
  assert (Hnb : Forall not_blank
            ["Alpha is a test term."; "Beta is unrelated."; "c"; "d"; "e"]%string)
    by (repeat constructor; intros H; vm_compute in H; discriminate).
  split; [lia|]. split; [lia|]. split; [exact Hnb|].
  apply make_chunks_coverage; [lia|lia|exact Hnb].
Defined.

(** ** The vector index *)

Module FaissFacts.

Import Faiss.

Lemma init_texts faiss_present vec_fit svd_fit_add texts0 dims :
  texts (init faiss_present vec_fit svd_fit_add texts0 dims) = or_placeholder texts0.
Proof.
  unfold init. destruct (vec_fit _); [|reflexivity].
  destruct (_ || _); [reflexivity|]. destruct (svd_fit_add _ _); reflexivity.
Qed.

Lemma init_enabled_dims faiss_present vec_fit svd_fit_add texts0 dims :
  enabled (init faiss_present vec_fit svd_fit_add texts0 dims) = true ->
  exists n_features,
    vec_fit (or_placeholder texts0) = Some n_features /\ 3 <= n_features
    /\ svd (init faiss_present vec_fit svd_fit_add texts0 dims)
       = Some (Z.min dims (Z.max 2 (Z.max (n_features - 1) 8))).
Proof.
  unfold init. destruct (vec_fit _) as [nf|]; [|discriminate].
  destruct (Z.ltb_spec nf 3); [rewrite orb_true_r; discriminate|].
  destruct faiss_present; [|discriminate]. simpl.
  destruct (svd_fit_add _ _); [|discriminate].
  intros _. exists nf. split; [reflexivity|]. split; [lia|reflexivity].
Qed.

(** Where the formula does keep the count below the vocabulary size. *)
Lemma eff_dims_below dims n_features :
  9 <= n_features \/ dims < n_features -> eff_dims dims n_features < n_features.
Proof. unfold eff_dims. lia. Qed.

Lemma eff_dims_floor dims n_features : 2 <= dims -> 2 <= eff_dims dims n_features.
Proof. unfold eff_dims. lia. Qed.

(** C3: the code's own comment asks for a count that is at least 2 and
    strictly below [n_features]; the [8] inside [max] breaks the second
    for every vocabulary of 3 to 8 terms, and [min] with the configured
    count breaks the first.  With 8 terms and the default 256 components
    the index is enabled with 8 components, as many as there are terms;
    with [SVD_COMPONENTS=1] it is enabled with a single component. *)
Theorem eff_dims_reaches_vocabulary :
  (forall dims n_features,
     3 <= n_features <= 8 -> n_features <= dims ->
     n_features <= eff_dims dims n_features)
  /\ (forall dims n_features, dims < 2 -> eff_dims dims n_features < 2)
  /\ init true (fun _ => Some 8) (fun _ => sklearn_randomized 8) eight_words 256
     = {| texts := eight_words; enabled := true; svd := Some 8;
          index := Some (8, 8%nat) |}
  /\ init true (fun _ => Some 8) (fun _ => sklearn_randomized 8) eight_words 1
     = {| texts := eight_words; enabled := true; svd := Some 1;
          index := Some (1, 8%nat) |}.
Proof.
  split; [|split; [|split; reflexivity]].
  - intros dims nf Hnf Hd. unfold eff_dims. lia.
  - intros dims nf Hd. unfold eff_dims. lia.
Qed.

End FaissFacts.

(** ** Lists: slices and sorted lists *)

Lemma firstn_In {A} (k : nat) (l : list A) x : In x (firstn k l) -> In x l.
Proof.
  intros H. apply list_elem_of_In, (subseteq_take k l), list_elem_of_In, H.
Qed.

Lemma take_firstn {A} (l : list A) (n : Z) :
  Py.take l n = firstn (Z.to_nat (Py.slice_bound (Z.of_nat (length l)) n)) l.
Proof.
  unfold Py.take, Py.slice. replace (Py.slice_bound _ 0) with 0.
  - simpl. f_equal. lia.
  - unfold Py.slice_bound. simpl. lia.
Qed.

Lemma take_nonneg {A} (l : list A) (n : Z) :
  0 <= n -> Py.take l n = firstn (Z.to_nat n) l.
Proof.
  intros Hn. rewrite take_firstn. unfold Py.slice_bound.
  destruct (Z.ltb_spec n 0); [lia|].
  destruct (Z.le_gt_cases n (Z.of_nat (length l))).
  - rewrite Z.min_l by lia. reflexivity.
  - rewrite Z.min_r by lia. rewrite Nat2Z.id.
    rewrite !firstn_all2; [reflexivity|lia|lia].
Qed.

Lemma take_In {A} (l : list A) (n : Z) x : In x (Py.take l n) -> In x l.
Proof. rewrite take_firstn. apply firstn_In. Qed.

Lemma length_take_le {A} (l : list A) (n : Z) :
  (length (Py.take l n) <= length l)%nat
  /\ (0 <= n -> (length (Py.take l n) <= Z.to_nat n)%nat).
Proof.
  split.
  - rewrite take_firstn, length_firstn. lia.
  - intros Hn. rewrite take_nonneg, length_firstn by exact Hn. lia.
Qed.

Section Sorted.

Context {A : Type} (R : relation A).

Lemma StronglySorted_rev l :
  StronglySorted R l -> StronglySorted (flip R) (rev l).
Proof.
  induction 1 as [|x l Hl IH Hx]; simpl; [constructor|].
  apply StronglySorted_app_2; [|exact IH|repeat constructor].
  intros a b Ha Hb. apply list_elem_of_singleton in Hb as ->.
  rewrite Forall_forall in Hx. apply Hx.
  apply list_elem_of_In, in_rev, list_elem_of_In. exact Ha.
Qed.

Lemma StronglySorted_firstn k l :
  StronglySorted R l -> StronglySorted R (firstn k l).
Proof.
  intros Hl. revert k. induction Hl as [|x l Hl IH Hx]; intros [|k]; simpl;
    try constructor; [apply IH|].
  rewrite Forall_forall in *. intros y Hy. apply Hx.
  apply list_elem_of_In. apply list_elem_of_In in Hy.
  eapply firstn_In. exact Hy.
Qed.

Lemma StronglySorted_filter (f : A -> bool) l :
  StronglySorted R l -> StronglySorted R (List.filter f l).
Proof.
  induction 1 as [|x l Hl IH Hx]; simpl; [constructor|].
  destruct (f x); [|exact IH]. constructor; [exact IH|].
  rewrite Forall_forall in *. intros y Hy. apply Hx.
  apply list_elem_of_In. apply list_elem_of_In, filter_In in Hy. tauto.
Qed.

(** In a sorted list whose rejected elements stay rejected further on,
    cutting then filtering is filtering then cutting. *)
Lemma filter_firstn_sorted (f : A -> bool) k l :
  StronglySorted R l ->
  (forall x y, R x y -> f x = false -> f y = false) ->
  List.filter f (firstn k l) = firstn k (List.filter f l).
Proof.
  intros Hl Hf. revert k. induction Hl as [|x l Hl IH Hx]; intros k.
  - rewrite !firstn_nil. reflexivity.
  - destruct k as [|k]; [reflexivity|]. simpl.
    destruct (f x) eqn:Hfx; simpl; [rewrite IH; reflexivity|].
    assert (Hnone : forall m, List.filter f m = [] \/ ~ incl m l).
    { intros m. destruct (List.filter f m) as [|y r] eqn:Hm; [left; reflexivity|].
      right. intros Hincl.
      assert (Hy : In y (List.filter f m)) by (rewrite Hm; left; reflexivity).
      apply filter_In in Hy as [Hy Hfy].
      rewrite Forall_forall in Hx.
      assert (Hxy : R x y) by (apply Hx, list_elem_of_In, Hincl, Hy).
      rewrite (Hf _ _ Hxy Hfx) in Hfy. discriminate. }
    destruct (Hnone (firstn k l)) as [->|Hbad].
    + destruct (Hnone l) as [->|Hbad]; [rewrite firstn_nil; reflexivity|].
      exfalso. apply Hbad. intros z Hz. exact Hz.
    + exfalso. apply Hbad. intros z Hz. eapply firstn_In. exact Hz.
Qed.

End Sorted.

(** ** Scores *)

Lemma Qlt_bool_iff a b : Qlt_bool a b = true <-> (a < b)%Q.
Proof.
  unfold Qlt_bool. rewrite negb_true_iff. split.
  - intros H. apply Qnot_le_lt. intros Hle.
    apply Qle_bool_iff in Hle. congruence.
  - intros H. destruct (Qle_bool b a) eqn:Hb; [|reflexivity].
    apply Qle_bool_iff in Hb. exfalso. exact (Qlt_not_le _ _ H Hb).
Qed.

(** ** Fusion is a union *)

Lemma foldl_add (l : list nat) : forall s : gset nat,
  foldl (fun s i => {[ i ]} ∪ s) s l = list_to_set l ∪ s.
Proof.
  induction l as [|x l IH]; intros s; simpl.
  - apply set_eq. intros y.
    rewrite elem_of_union, elem_of_empty. tauto.
  - rewrite IH. apply set_eq. intros y. rewrite !elem_of_union. tauto.
Qed.

Lemma fuse_union a b c :
  fuse a b c = list_to_set a ∪ list_to_set b ∪ list_to_set c.
Proof.
  unfold fuse. rewrite !foldl_add. apply set_eq. intros y.
  rewrite !elem_of_union. tauto.
Qed.

Lemma fuse_lexical a b c : (list_to_set a : gset nat) ⊆ fuse a b c.
Proof.
  rewrite fuse_union. intros y Hy. rewrite !elem_of_union. tauto.
Qed.

(** ** The keys of a set, in the order they entered it *)

Lemma set_keys_from (l : list nat) : forall acc,
  NoDup acc ->
  let keys := foldl (fun s i => if bool_decide (i ∈ s) then s else s ++ [i]) acc l in
  NoDup keys /\ (forall i, i ∈ keys <-> i ∈ acc \/ i ∈ l)
  /\ ((forall i, i ∈ l -> i ∈ acc) -> keys = acc).
Proof.
  induction l as [|x l IH]; intros acc Hacc; cbn [foldl].
  - split; [exact Hacc|]. split; [|reflexivity].
    intros i. rewrite elem_of_nil. tauto.
  - destruct (bool_decide (x ∈ acc)) eqn:Hx.
    + apply bool_decide_eq_true in Hx.
      destruct (IH acc Hacc) as (Hnd & Hin & Hsame).
      split; [exact Hnd|]. split.
      * intros i. rewrite Hin, elem_of_cons.
        split; [tauto|]. intros [H|[->|H]]; tauto.
      * intros Hall. apply Hsame. intros i Hi. apply Hall. right. exact Hi.
    + apply bool_decide_eq_false in Hx.
      assert (Hacc' : NoDup (acc ++ [x])).
      { apply NoDup_app. split; [exact Hacc|]. split; [|apply NoDup_singleton].
        intros i Hi Hix. apply list_elem_of_singleton in Hix as ->. contradiction. }
      destruct (IH (acc ++ [x]) Hacc') as (Hnd & Hin & _).
      split; [exact Hnd|]. split.
      * intros i. rewrite Hin, elem_of_app, list_elem_of_singleton, elem_of_cons.
        tauto.
      * intros Hall. exfalso. apply Hx, Hall. left.
Qed.

Lemma set_keys_NoDup l : NoDup (set_keys l).
Proof. apply (set_keys_from l []). constructor. Qed.

Lemma set_keys_elem l i : i ∈ set_keys l <-> i ∈ l.
Proof.
  destruct (set_keys_from l [] (NoDup_nil_2)) as (_ & Hin & _).
  unfold set_keys. rewrite Hin, elem_of_nil. tauto.
Qed.


(** ** The index *)

Section RetrievalFacts.

Context {env : Env}.

(** *** Chunks of a built index are pairwise distinct *)

Lemma doc_chunks_doc_id doc c : c ∈ doc_chunks doc -> doc_id c = fst doc.
Proof.
  destruct doc as [id lines]. unfold doc_chunks.
  intros Hc. apply list_elem_of_In, in_map_iff in Hc as ([[s e] txt] & <- & _).
  reflexivity.
Qed.

Lemma doc_chunks_NoDup doc : NoDup (doc_chunks doc).
Proof.
  destruct doc as [id lines]. unfold doc_chunks.
  apply (NoDup_fmap_2_strong _); [|apply make_chunks_NoDup].
  intros [[s1 e1] t1] [[s2 e2] t2] _ _ H. injection H as -> -> ->. reflexivity.
Qed.

(** File names in a directory are distinct, hence so are the chunks. *)
Lemma flat_map_doc_chunks_NoDup docs :
  NoDup (map fst docs) -> NoDup (flat_map doc_chunks docs).
Proof.
  induction docs as [|d ds IH]; simpl; [constructor|].
  rewrite NoDup_cons. intros [Hd Hds].
  apply NoDup_app. split; [apply doc_chunks_NoDup|]. split; [|apply IH, Hds].
  intros c Hc Hc'. apply Hd.
  apply list_elem_of_In, in_flat_map in Hc' as (d' & Hd' & Hc').
  apply list_elem_of_In, doc_chunks_doc_id in Hc'.
  apply doc_chunks_doc_id in Hc. rewrite <- Hc, Hc'.
  apply list_elem_of_In, in_map, Hd'.
Qed.

(** C8: the candidate set [hybrid_search] assembles is the union of the
    three top-25 lists, so it contains everything [lexical_topn] returned
    for the query. *)
Theorem fusion_contains_lexical (ix : KBIndex) (query : string) :
  candidate_ids ix query
  = list_to_set (lexical_topn ix query 25)
    ∪ list_to_set (bm25_topn ix query 25)
    ∪ list_to_set (faiss_topn ix query 25)
  /\ (list_to_set (lexical_topn ix query 25) : gset nat) ⊆ candidate_ids ix query
  /\ forall i, In i (lexical_topn ix query 25) -> i ∈ candidate_ids ix query.
Proof.
  unfold candidate_ids. split; [apply fuse_union|].
  split; [apply fuse_lexical|].
  intros i Hi. apply fuse_lexical, elem_of_list_to_set, list_elem_of_In, Hi.
Qed.

(** *** Empty queries *)

Lemma hybrid_search_blank ix query top_k :
  all_space query = true -> KBIndex_hybrid_search ix query top_k = Some [].
Proof.
  intros Hq. unfold KBIndex_hybrid_search.
  rewrite PyFacts.truthy_strip, Hq. reflexivity.
Qed.

(** The module-level function looks the index up first and builds it at
    first use: with an index in place, or one that can be built, a blank
    query gets the empty sequence from it too. *)
Lemma hybrid_search_blank_facade docs ix query top_k :
  all_space query = true ->
  hybrid_search docs (Some ix) query top_k = (Some [], Some ix)
  /\ (KBIndex_init docs = Some ix ->
      hybrid_search docs None query top_k = (Some [], Some ix)).
Proof.
  intros Hq. unfold hybrid_search, get_index. split.
  - rewrite (hybrid_search_blank ix query top_k Hq). reflexivity.
  - intros ->. rewrite (hybrid_search_blank ix query top_k Hq). reflexivity.
Qed.

(** A build that raises leaves the module-level function before the
    query is looked at, and leaves no index behind. *)
Lemma hybrid_search_build_raises docs query top_k :
  KBIndex_init docs = None -> hybrid_search docs None query top_k = (None, None).
Proof. intros H. unfold hybrid_search, get_index. rewrite H. reflexivity. Qed.

(** C7: for every [top_k] and every index, searching for the empty string
    or for a query of white space only (three spaces, say) returns the
    empty sequence and raises nothing; the module-level function does the
    same on the index in place, and on a fresh process once the index is
    built. *)
Theorem hybrid_search_empty_query (docs : list (string * list string))
    (ix : KBIndex) (top_k : Z) :
  KBIndex_hybrid_search ix EmptyString top_k = Some []
  /\ KBIndex_hybrid_search ix "   "%string top_k = Some []
  /\ hybrid_search docs (Some ix) EmptyString top_k = (Some [], Some ix)
  /\ hybrid_search docs (Some ix) "   "%string top_k = (Some [], Some ix)
  /\ forall query, all_space query = true ->
       KBIndex_hybrid_search ix query top_k = Some []
       /\ hybrid_search docs (Some ix) query top_k = (Some [], Some ix)
       /\ (KBIndex_init docs = Some ix ->
           hybrid_search docs None query top_k = (Some [], Some ix)).
Proof.
  split; [apply hybrid_search_blank; reflexivity|].
  split; [apply hybrid_search_blank; reflexivity|].
  split; [apply hybrid_search_blank_facade; reflexivity|].
  split; [apply hybrid_search_blank_facade; reflexivity|].
  intros query Hq. split; [apply hybrid_search_blank, Hq|].
  apply hybrid_search_blank_facade, Hq.
Qed.

(** *** What the libraries promise *)

(** A set is walked key by key, each key once. *)
Hypothesis set_order_perm : forall keys, NoDup keys -> set_order keys ≡ₚ keys.
(** [argsort] returns the positions of its argument, in ascending order
    of value. *)
Hypothesis argsort_perm : forall l, argsort l ≡ₚ seq 0 (length l).
Hypothesis argsort_sorted : forall l, StronglySorted (ascending l) (argsort l).
(** One score per indexed text. *)
Hypothesis tfidf_scores_length : forall texts q,
  length (tfidf_scores texts q) = length texts.
Hypothesis bm25_scores_length : forall corpus q,
  length (bm25_get_scores corpus q) = length corpus.
(** A label is [-1] or the position of a stored vector. *)
Hypothesis raw_search_labels : forall texts q k labels,
  raw_search texts q k = Some labels ->
  Forall (fun i => i < Z.of_nat (length texts)) labels.
(** One similarity per text, one prediction per pair. *)
Hypothesis tfidf_cosine_length : forall q texts scores,
  tfidf_cosine q texts = Some scores -> length scores = length texts.
Hypothesis predict_length : forall model predict pairs,
  cross_encoder model = Some predict -> length (predict pairs) = length pairs.

(** *** Top-N selection *)

Lemma argsort_In l i : In i (argsort l) <-> (i < length l)%nat.
Proof.
  rewrite <- list_elem_of_In, (argsort_perm l), list_elem_of_In, in_seq. lia.
Qed.

Lemma topn_In scores n i :
  In i (topn scores n) -> (i < length scores)%nat /\ (0 < score_at scores i)%Q.
Proof.
  unfold topn. rewrite filter_In, Qlt_bool_iff. intros [Hi Hpos].
  split; [|exact Hpos].
  apply take_In, in_rev in Hi. apply argsort_In. exact Hi.
Qed.

Lemma rev_argsort_sorted scores :
  StronglySorted (best_first scores) (rev (argsort scores)).
Proof. apply (StronglySorted_rev (ascending scores)), argsort_sorted. Qed.

Lemma topn_sorted scores n : StronglySorted (best_first scores) (topn scores n).
Proof.
  unfold topn. apply StronglySorted_filter. rewrite take_firstn.
  apply StronglySorted_firstn, rev_argsort_sorted.
Qed.

(** Filtering after the cut gives the first [n] positive entries. *)
Lemma topn_first_positive scores n :
  0 <= n ->
  topn scores n
  = firstn (Z.to_nat n)
      (List.filter (fun i => Qlt_bool 0 (score_at scores i)) (rev (argsort scores))).
Proof.
  intros Hn. unfold topn. rewrite take_nonneg by exact Hn.
  apply (filter_firstn_sorted (best_first scores)); [apply rev_argsort_sorted|].
  intros x y Hxy Hx. unfold best_first in Hxy.
  destruct (Qlt_bool 0 (score_at scores y)) eqn:Hy; [|reflexivity].
  apply Qlt_bool_iff in Hy.
  assert (Hx' : (0 < score_at scores x)%Q) by (eapply Qlt_le_trans; eassumption).
  apply Qlt_bool_iff in Hx'. congruence.
Qed.

Lemma length_topn scores n :
  0 <= n -> (length (topn scores n) <= Z.to_nat n)%nat.
Proof.
  intros Hn. rewrite topn_first_positive, length_firstn by exact Hn. lia.
Qed.

(** *** The fuzzy boost *)

Lemma boost_loop_cons ratio qstr i toks rest boost :
  boost_loop ratio qstr i (toks :: rest) boost
  = boost_loop ratio qstr (S i) rest (alter (boosted_entry ratio qstr toks) i boost).
Proof.
  destruct toks as [|t ts]; unfold boosted_entry; cbn [boost_loop].
  - rewrite list_alter_id by reflexivity. reflexivity.
  - destruct (Qlt_bool _ _); [reflexivity|].
    rewrite list_alter_id by reflexivity. reflexivity.
Qed.

Lemma boost_loop_length ratio qstr corpus : forall i boost,
  length (boost_loop ratio qstr i corpus boost) = length boost.
Proof.
  induction corpus as [|toks rest IH]; intros i boost; [reflexivity|].
  rewrite boost_loop_cons, IH. apply length_alter.
Qed.

(** Entry [j] of the result: touched once, by the pass for position [j]. *)
Lemma boost_loop_lookup ratio qstr corpus : forall i boost j,
  boost_loop ratio qstr i corpus boost !! j
  = match (if decide (i <= j)%nat then corpus !! (j - i)%nat else None) with
    | Some toks => boosted_entry ratio qstr toks <$> boost !! j
    | None => boost !! j
    end.
Proof.
  induction corpus as [|toks rest IH]; intros i boost j.
  - simpl. destruct (decide _); reflexivity.
  - rewrite boost_loop_cons, IH.
    destruct (decide (S i <= j)%nat) as [Hgt|Hle].
    + destruct (decide (i <= j)%nat); [|lia].
      replace (j - i)%nat with (S (j - S i)) by lia. simpl.
      rewrite list_lookup_alter_ne by lia. reflexivity.
    + destruct (decide (i <= j)%nat) as [Hij|Hij].
      * assert (j = i) as -> by lia. rewrite Nat.sub_diag. simpl.
        apply list_lookup_alter_eq.
      * rewrite list_lookup_alter_ne by lia. reflexivity.
Qed.

Lemma length_bm25_scores ix corpus query :
  length (bm25_scores ix corpus query) = length corpus.
Proof.
  unfold bm25_scores. destruct fuzz as [ratio|]; [|apply bm25_scores_length].
  destruct (_ <=? _)%nat; [|apply bm25_scores_length].
  rewrite length_zip_with_l_eq; [apply bm25_scores_length|].
  rewrite boost_loop_length, length_map. reflexivity.
Qed.

(** With the boost on, entry [i] of the sorted scores is the BM25 score
    plus what the loop left in [boost[i]], which started at zero. *)
Lemma bm25_scores_entry ix corpus query ratio i toks :
  fuzz = Some ratio ->
  (length (_tokenize query) <= 3)%nat ->
  _bm25_corpus_tokens ix = Some corpus ->
  corpus !! i = Some toks ->
  score_at (bm25_scores ix corpus query) i
  = (score_at (bm25_get_scores corpus (_tokenize query)) i
     + boosted_entry ratio (Py.join space (_tokenize query)) toks 0)%Q.
Proof.
  intros Hfuzz Hq Htoks Hi. unfold bm25_scores. rewrite Hfuzz, Htoks.
  apply Nat.leb_le in Hq. rewrite Hq. simpl.
  set (base := bm25_get_scores corpus (_tokenize query)).
  assert (Hlt : (i < length base)%nat).
  { unfold base. rewrite bm25_scores_length. eapply lookup_lt_Some, Hi. }
  destruct (lookup_lt_is_Some_2 base i Hlt) as [x Hx].
  unfold score_at. rewrite !nth_lookup, lookup_zip_with, Hx. simpl.
  rewrite boost_loop_lookup. destruct (decide (0 <= i)%nat); [|lia].
  rewrite Nat.sub_0_r, Hi.
  change (map (fun _ : Q => 0%Q) base) with ((fun _ : Q => 0%Q) <$> base).
  rewrite list_lookup_fmap, Hx. reflexivity.
Qed.

(** C6: on an index with BM25 on, when rapidfuzz is there and the query
    has at most three tokens, a chunk whose joined tokens have similarity
    [s > 0.85] with the joined query tokens is sorted under its BM25 score
    plus [0.15 * s], any other chunk under its BM25 score; [bm25_topn]
    returns, from these scores in descending order, the first [n] and of
    them the strictly positive ones, which are the first [n] strictly
    positive ones.  An empty string has similarity 0 in rapidfuzz. *)
Theorem bm25_fuzzy_boost (ix : KBIndex) (corpus : list (list string))
    (ratio : string -> string -> Q) (query : string) (n : Z) :
  fuzz = Some ratio ->
  (forall a, ratio a EmptyString == 0)%Q ->
  _bm25 ix = Some corpus ->
  _bm25_corpus_tokens ix = Some corpus ->
  _empty ix = false ->
  Py.strip query <> EmptyString ->
  (length (_tokenize query) <= 3)%nat ->
  let qstr := Py.join space (_tokenize query) in
  let base := bm25_get_scores corpus (_tokenize query) in
  let boosted := bm25_scores ix corpus query in
  let positive := fun i => Qlt_bool 0 (score_at boosted i) in
  (forall i toks, corpus !! i = Some toks ->
     let s := (ratio qstr (Py.join space toks) / 100)%Q in
     ((85 # 100 < s)%Q ->
        (score_at boosted i == score_at base i + (15 # 100) * s)%Q)
     /\ ((s <= 85 # 100)%Q -> (score_at boosted i == score_at base i)%Q))
  /\ bm25_topn ix query n
     = List.filter positive (Py.take (rev (argsort boosted)) n)
  /\ (0 <= n ->
      bm25_topn ix query n
      = firstn (Z.to_nat n) (List.filter positive (rev (argsort boosted))))
  /\ StronglySorted (best_first boosted) (bm25_topn ix query n)
  /\ (forall i, In i (bm25_topn ix query n) ->
        (i < length corpus)%nat /\ (0 < score_at boosted i)%Q).
Proof.
  intros Hfuzz Hratio Hbm25 Htoks Hempty Hquery Hlen qstr base boosted positive.
  assert (Htop : bm25_topn ix query n = topn boosted n).
  { unfold bm25_topn. rewrite Hbm25, Hempty.
    destruct (Py.strip query); [congruence|reflexivity]. }
  split; [|rewrite Htop; repeat split].
  - intros i toks Hi s.
    assert (Hentry := bm25_scores_entry ix corpus query ratio i toks
                        Hfuzz Hlen Htoks Hi).
    fold base boosted qstr in Hentry. rewrite Hentry. clear Hentry.
    destruct toks as [|t ts].
    + assert (Hs : (s == 0)%Q).
      { unfold s. simpl. rewrite Hratio. reflexivity. }
      simpl. split; intros H.
      * rewrite Hs in H. discriminate.
      * ring.
    + unfold boosted_entry, similarity. fold s. split; intros H.
      * apply Qlt_bool_iff in H. rewrite H. ring.
      * destruct (Qlt_bool (85 # 100) s) eqn:Hb; [|ring].
        apply Qlt_bool_iff in Hb. exfalso. exact (Qlt_not_le _ _ Hb H).
  - apply topn_first_positive.
  - apply topn_sorted.
  - apply topn_In in H. unfold boosted. rewrite <- (length_bm25_scores ix corpus query).
    tauto.
  - apply topn_In in H. tauto.
Qed.

(** *** The rerankers *)

Lemma build_reranker_ok : reranker_ok build_reranker.
Proof.
  unfold build_reranker. destruct (sencoder_model settings) as [m|]; [|exact I].
  destruct (Py.truthy m); [|exact I].
  destruct (cross_encoder m) as [p|] eqn:Hp; [|exact I].
  intros pairs. eapply predict_length. exact Hp.
Qed.

Lemma length_rerank_scores r query candidates scores :
  reranker_ok r -> candidates <> [] ->
  rerank_scores r query candidates = Some scores ->
  length scores = length candidates.
Proof.
  intros Hr Hne. destruct r as [|predict]; simpl.
  - intros H. rewrite (tfidf_cosine_length _ _ _ H).
    destruct candidates as [|c cs]; [congruence|]. simpl. rewrite length_map.
    reflexivity.
  - intros [= <-]. rewrite Hr, length_map. reflexivity.
Qed.

(** A reranker that returns has sorted the scores it was given. *)
Lemma rerank_Some r query candidates order :
  rerank r query candidates = Some order ->
  exists scores,
    rerank_scores r query candidates = Some scores
    /\ order = rev (argsort scores).
Proof.
  unfold rerank. destruct (rerank_scores r query candidates) as [scores|];
    [|discriminate].
  intros [= <-]. exists scores. split; reflexivity.
Qed.

(** The vectorizer's error leaves [rerank] as it came. *)
Lemma rerank_None r query candidates :
  rerank r query candidates = None <-> rerank_scores r query candidates = None.
Proof.
  unfold rerank. destruct (rerank_scores r query candidates); simpl;
    split; congruence.
Qed.

Lemma rev_argsort_perm scores : rev (argsort scores) ≡ₚ seq 0 (length scores).
Proof. rewrite <- (argsort_perm _). symmetry. apply Permutation_rev. Qed.

(** Given no candidate, the TF-IDF reranker still scores its stand-in
    text and, when the fit goes through, returns position 0. *)
Lemma rerank_tfidf_nil query order :
  rerank TfidfReranker query [] = Some order -> order = [0%nat].
Proof.
  intros H. apply rerank_Some in H as (scores & Hs & ->).
  simpl in Hs. apply tfidf_cosine_length in Hs.
  pose proof (rev_argsort_perm scores) as Hp. rewrite Hs in Hp. simpl in Hp.
  apply Permutation_singleton_r in Hp. exact Hp.
Qed.

(** When [rerank] returns for a candidate list that is not empty, it
    returns a permutation of the positions [0 .. len(candidates)-1], in
    order of non-increasing score. *)
Lemma rerank_permutation (r : Reranker) (query : string)
    (candidates : list (nat * string)) (order : list nat) :
  reranker_ok r -> candidates <> [] ->
  rerank r query candidates = Some order ->
  order ≡ₚ seq 0 (length candidates)
  /\ exists scores,
       rerank_scores r query candidates = Some scores
       /\ length scores = length candidates
       /\ StronglySorted (best_first scores) order.
Proof.
  intros Hr Hne H. apply rerank_Some in H as (scores & Hs & ->).
  pose proof (length_rerank_scores r query candidates scores Hr Hne Hs) as Hl.
  split; [rewrite rev_argsort_perm, Hl; reflexivity|].
  exists scores. split; [exact Hs|]. split; [exact Hl|apply rev_argsort_sorted].
Qed.

(** *** A built index *)

Lemma or_placeholder_idem l :
  Faiss.or_placeholder (Faiss.or_placeholder l) = Faiss.or_placeholder l.
Proof. destruct l; reflexivity. Qed.

Lemma init_lex_mx docs :
  lex_mx (KBIndex_object docs)
  = Faiss.or_placeholder (map text (chunks (KBIndex_object docs))).
Proof. reflexivity. Qed.

Lemma init_empty docs :
  _empty (KBIndex_object docs)
  = bool_decide (lex_mx (KBIndex_object docs) = ["placeholder"%string]).
Proof. reflexivity. Qed.

Lemma init_bm25 docs :
  _bm25 (KBIndex_object docs)
  = if BM25Okapi && negb (_empty (KBIndex_object docs)) && bm25_enabled
    then Some (map _tokenize (lex_mx (KBIndex_object docs))) else None.
Proof. reflexivity. Qed.

Lemma init_faiss docs :
  faiss (KBIndex_object docs)
  = if faiss_enabled settings
    then Some (Faiss.init faiss_present vec_fit svd_fit_add
                 (lex_mx (KBIndex_object docs)) (svd_components settings))
    else None.
Proof. reflexivity. Qed.

Lemma init_reranker docs : reranker (KBIndex_object docs) = build_reranker.
Proof. reflexivity. Qed.

Lemma init_empty_corpus docs :
  chunks (KBIndex_object docs) = [] -> _empty (KBIndex_object docs) = true.
Proof.
  intros Hc. rewrite init_empty, init_lex_mx, Hc. reflexivity.
Qed.

(** Unless the index counts as empty, there is one text per chunk. *)
Lemma init_texts_length docs :
  _empty (KBIndex_object docs) = false ->
  length (lex_mx (KBIndex_object docs)) = length (chunks (KBIndex_object docs)).
Proof.
  rewrite init_empty, init_lex_mx.
  destruct (chunks (KBIndex_object docs)) as [|c cs]; simpl; [discriminate|].
  intros _. rewrite length_map. reflexivity.
Qed.

(** On an index without chunks every signal is silent. *)
Lemma topn_empty_corpus docs query n :
  chunks (KBIndex_object docs) = [] ->
  lexical_topn (KBIndex_object docs) query n = []
  /\ bm25_topn (KBIndex_object docs) query n = []
  /\ faiss_topn (KBIndex_object docs) query n = [].
Proof.
  intros Hc. apply init_empty_corpus in Hc. split; [|split].
  - unfold lexical_topn. rewrite Hc. reflexivity.
  - unfold bm25_topn. rewrite init_bm25, Hc. cbn [negb].
    rewrite andb_false_r. reflexivity.
  - unfold faiss_topn. rewrite Hc. reflexivity.
Qed.

(** An empty knowledge base: no chunk, and every search comes back empty. *)
Lemma hybrid_search_empty_corpus query top_k :
  chunks (KBIndex_object []) = []
  /\ KBIndex_hybrid_search (KBIndex_object []) query top_k = Some [].
Proof.
  split; [reflexivity|].
  unfold KBIndex_hybrid_search. destruct (negb _); [reflexivity|].
  unfold candidate_ids.
  destruct (topn_empty_corpus [] query 25 eq_refl) as (-> & -> & ->).
  reflexivity.
Qed.

Lemma lexical_topn_lt docs query n i :
  In i (lexical_topn (KBIndex_object docs) query n) ->
  (i < length (chunks (KBIndex_object docs)))%nat.
Proof.
  unfold lexical_topn. destruct (_empty _) eqn:He; [intros []|].
  destruct (_ =? _)%nat; [intros []|]. intros Hi.
  apply topn_In in Hi as [Hi _].
  rewrite tfidf_scores_length in Hi.
  rewrite init_texts_length in Hi by exact He. exact Hi.
Qed.

Lemma bm25_topn_lt docs query n i :
  In i (bm25_topn (KBIndex_object docs) query n) ->
  (i < length (chunks (KBIndex_object docs)))%nat.
Proof.
  unfold bm25_topn. rewrite init_bm25.
  destruct (_ && _ && _); [|intros []].
  destruct (_empty _) eqn:He; [intros []|]. rewrite orb_false_l.
  destruct (negb _); [intros []|]. intros Hi.
  apply topn_In in Hi as [Hi _].
  rewrite length_bm25_scores, length_map in Hi.
  rewrite init_texts_length in Hi by exact He. exact Hi.
Qed.

Lemma faiss_topn_lt docs query n i :
  In i (faiss_topn (KBIndex_object docs) query n) ->
  (i < length (chunks (KBIndex_object docs)))%nat.
Proof.
  unfold faiss_topn. destruct (_empty _) eqn:He; [intros []|].
  rewrite init_faiss. destruct (faiss_enabled settings); [|intros []].
  unfold Faiss.search. destruct (_ || _); [intros []|].
  rewrite FaissFacts.init_texts, init_lex_mx, or_placeholder_idem, <- init_lex_mx.
  destruct (raw_search _ _ _) as [labels|] eqn:Hraw; [|intros []].
  intros Hi. apply in_map_iff in Hi as (z & <- & Hz).
  apply filter_In in Hz as [Hz Hpos]. apply Z.leb_le in Hpos.
  apply raw_search_labels in Hraw. rewrite Forall_forall in Hraw.
  apply list_elem_of_In in Hz. specialize (Hraw z Hz).
  rewrite init_texts_length in Hraw by exact He. lia.
Qed.

Lemma candidate_ids_lt docs query i :
  i ∈ candidate_ids (KBIndex_object docs) query ->
  (i < length (chunks (KBIndex_object docs)))%nat.
Proof.
  unfold candidate_ids. rewrite fuse_union, !elem_of_union, !elem_of_list_to_set.
  rewrite !list_elem_of_In.
  intros [[H|H]|H];
    eauto using lexical_topn_lt, bm25_topn_lt, faiss_topn_lt.
Qed.

(** *** The search itself *)

(** The set is walked through its keys, each once. *)
Lemma candidate_walk_elem ix query i :
  i ∈ candidate_walk ix query <-> i ∈ candidate_ids ix query.
Proof.
  unfold candidate_walk, candidate_ids.
  rewrite (set_order_perm _ (set_keys_NoDup _)), set_keys_elem, fuse_union.
  rewrite !elem_of_app, !elem_of_union, !elem_of_list_to_set. tauto.
Qed.

Lemma candidate_walk_NoDup ix query : NoDup (candidate_walk ix query).
Proof.
  unfold candidate_walk.
  rewrite (set_order_perm _ (set_keys_NoDup _)). apply set_keys_NoDup.
Qed.

(** No more distinct positions below [n] than [n]. *)
Lemma walk_below ix query (n : nat) :
  (forall i, i ∈ candidate_ids ix query -> (i < n)%nat) ->
  (length (candidate_walk ix query) <= n)%nat.
Proof.
  intros Hlt.
  assert (Hsub : candidate_walk ix query ⊆+ seq 0 n).
  { apply NoDup_submseteq; [apply candidate_walk_NoDup|].
    intros i Hi. apply candidate_walk_elem in Hi.
    apply list_elem_of_In, in_seq. specialize (Hlt i Hi). lia. }
  apply submseteq_length in Hsub. rewrite length_seq in Hsub. exact Hsub.
Qed.

(** When every candidate is a position of the chunk array, no lookup of
    [hybrid_search] fails: the candidate list is there, and the method
    raises only what the reranker raised; what it returns is cut to
    [max(1, top_k)] chunks of the index, taken at candidate positions. *)
Lemma hybrid_search_outcome ix query top_k :
  reranker_ok (reranker ix) ->
  (forall i, i ∈ candidate_ids ix query -> (i < length (chunks ix))%nat) ->
  exists cands,
    mapM (fun i => c ← chunks ix !! i; Some (i, text c)) (candidate_walk ix query)
    = Some cands
    /\ match KBIndex_hybrid_search ix query top_k with
       | Some r =>
           (length r <= Z.to_nat (Z.max 1 top_k))%nat
           /\ (length r <= length (chunks ix))%nat
           /\ Forall (fun c => exists i, i ∈ candidate_ids ix query
                                         /\ chunks ix !! i = Some c) r
       | None =>
           Py.strip query <> EmptyString
           /\ candidate_ids ix query <> ∅
           /\ rerank (reranker ix) query cands = None
       end.
Proof.
  intros Hok Hlt. unfold KBIndex_hybrid_search.
  set (ids := candidate_ids ix query) in *.
  set (f := fun i : nat => c ← chunks ix !! i; Some (i, text c)).
  assert (Hc : is_Some (mapM f (candidate_walk ix query))).
  { apply mapM_is_Some_2, Forall_forall. intros i Hi.
    apply candidate_walk_elem in Hi.
    destruct (lookup_lt_is_Some_2 (chunks ix) i (Hlt i Hi)) as [c Hc].
    unfold compose, f. rewrite Hc. eexists; reflexivity. }
  destruct Hc as [cands Hc]. exists cands. split; [exact Hc|].
  destruct (Py.strip query) as [|q0 qs] eqn:Hq; cbn [Py.truthy negb].
  { repeat split; simpl; try lia. constructor. }
  destruct (bool_decide (ids = ∅)) eqn:Hemp.
  { repeat split; simpl; try lia. constructor. }
  apply bool_decide_eq_false in Hemp.
  rewrite Hc. cbn [mbind option_bind].
  assert (Hf2 := mapM_Some_1 _ _ _ Hc).
  assert (Hlen : length (candidate_walk ix query) = length cands)
    by (eapply Forall2_length, Hf2).
  assert (Hne : cands <> []).
  { intros ->. simpl in Hlen. apply length_zero_iff_nil in Hlen.
    apply Hemp, set_eq. intros i. rewrite elem_of_empty.
    unfold ids. rewrite <- candidate_walk_elem, Hlen, elem_of_nil. tauto. }
  assert (Hfst : forall p x, cands !! p = Some x -> fst x ∈ ids).
  { intros p x Hx.
    destruct (Forall2_lookup_r _ _ _ p x Hf2 Hx) as (i & Hi & Hfi).
    unfold f in Hfi. destruct (chunks ix !! i); [|discriminate].
    injection Hfi as <-. simpl.
    apply candidate_walk_elem, list_elem_of_lookup. eauto. }
  destruct (rerank (reranker ix) query cands) as [order|] eqn:Horder;
    cbn [mbind option_bind]; [|repeat split; [discriminate|exact Hemp]].
  assert (Hperm : order ≡ₚ seq 0 (length cands)).
  { destruct (rerank_Some _ _ _ _ Horder) as (scores & Hsc & ->).
    rewrite rev_argsort_perm, (length_rerank_scores _ _ _ _ Hok Hne Hsc).
    reflexivity. }
  set (g := fun i : nat => fst <$> cands !! i).
  assert (Hs : is_Some (mapM g (Py.take order (Z.max 1 top_k)))).
  { apply mapM_is_Some_2, Forall_forall. intros p Hp.
    apply list_elem_of_In, take_In, list_elem_of_In in Hp.
    rewrite Hperm in Hp. apply list_elem_of_In, in_seq in Hp.
    destruct (lookup_lt_is_Some_2 cands p) as [x Hx]; [lia|].
    unfold compose, g. rewrite Hx. eexists; reflexivity. }
  destruct Hs as [sel Hs]. rewrite Hs. cbn [mbind option_bind].
  assert (Hg2 := mapM_Some_1 _ _ _ Hs).
  assert (Hsel : Forall (fun i => i ∈ ids) sel).
  { apply Forall_forall. intros i Hi.
    apply list_elem_of_lookup in Hi as [p Hp].
    destruct (Forall2_lookup_r _ _ _ p i Hg2 Hp) as (q & _ & Hq').
    unfold g in Hq'. destruct (cands !! q) as [x|] eqn:Hx; [|discriminate].
    injection Hq' as <-. eapply Hfst, Hx. }
  assert (Hr : is_Some (mapM (fun i => chunks ix !! i) sel)).
  { apply mapM_is_Some_2. eapply Forall_impl; [exact Hsel|].
    intros i Hi. apply lookup_lt_is_Some_2, Hlt, Hi. }
  destruct Hr as [r Hr]. rewrite Hr.
  assert (Hh2 := mapM_Some_1 _ _ _ Hr).
  assert (Hlr : length r = length (Py.take order (Z.max 1 top_k))).
  { rewrite <- (Forall2_length _ _ _ Hh2). symmetry.
    eapply Forall2_length, Hg2. }
  destruct (length_take_le order (Z.max 1 top_k)) as [Hle1 Hle2].
  split; [rewrite Hlr; apply Hle2; lia|]. split.
  - rewrite Hlr. etransitivity; [exact Hle1|].
    rewrite (Permutation_length Hperm), length_seq, <- Hlen.
    apply walk_below, Hlt.
  - apply Forall_forall. intros c Hcin.
    apply list_elem_of_lookup in Hcin as [p Hp].
    destruct (Forall2_lookup_r _ _ _ p c Hh2 Hp) as (i & Hi & Hci).
    exists i. split; [|exact Hci].
    rewrite Forall_forall in Hsel. apply Hsel, list_elem_of_lookup. eauto.
Qed.

(** A build that returns leaves the object with the fields assigned. *)
Lemma init_Some docs ix : KBIndex_init docs = Some ix -> ix = KBIndex_object docs.
Proof.
  unfold KBIndex_init. destruct (vec_fit _); [|discriminate].
  destruct (_bm25 _); [destruct (bm25_init _)|]; congruence.
Qed.

(** The build raises exactly when the vectorizer finds no term or, with
    BM25 on, when [BM25Okapi] does. *)
Lemma init_None docs :
  KBIndex_init docs = None
  <-> vec_fit (lex_mx (KBIndex_object docs)) = None
      \/ exists corpus, _bm25 (KBIndex_object docs) = Some corpus
                        /\ bm25_init corpus = false.
Proof.
  unfold KBIndex_init. destruct (vec_fit _) as [n|].
  - destruct (_bm25 _) as [corpus|].
    + destruct (bm25_init corpus) eqn:Hb.
      * split; [discriminate|]. intros [H|(c & [= <-] & H)]; congruence.
      * split; [|reflexivity]. intros _. right. exists corpus. split; [reflexivity|exact Hb].
    + split; [discriminate|]. intros [H|(c & H & _)]; discriminate.
  - split; [|reflexivity]. intros _. left. reflexivity.
Qed.

Lemma hybrid_search_built docs query top_k :
  exists cands,
    mapM (fun i => c ← chunks (KBIndex_object docs) !! i; Some (i, text c))
         (candidate_walk (KBIndex_object docs) query) = Some cands
    /\ match KBIndex_hybrid_search (KBIndex_object docs) query top_k with
       | Some r =>
           (length r <= Z.to_nat (Z.max 1 top_k))%nat
           /\ (length r <= length (chunks (KBIndex_object docs)))%nat
           /\ Forall (fun c => exists i,
                         i ∈ candidate_ids (KBIndex_object docs) query
                         /\ chunks (KBIndex_object docs) !! i = Some c) r
       | None =>
           Py.strip query <> EmptyString
           /\ candidate_ids (KBIndex_object docs) query <> ∅
           /\ rerank (reranker (KBIndex_object docs)) query cands = None
       end.
Proof.
  apply hybrid_search_outcome.
  - rewrite init_reranker. apply build_reranker_ok.
  - apply candidate_ids_lt.
Qed.

(** C9: on a built index every position that [lexical_topn], [bm25_topn]
    or [faiss_topn] returns is below the number of chunks, so every
    lookup [self.chunks[i]] of [hybrid_search], which are made at the
    candidates, finds its chunk; when the corpus gave no chunk, all three
    return the empty list. *)
Theorem topn_within_chunks (docs : list (string * list string))
    (ix : KBIndex) (query : string) (n : Z) :
  KBIndex_init docs = Some ix ->
  (forall i, In i (lexical_topn ix query n) \/ In i (bm25_topn ix query n)
             \/ In i (faiss_topn ix query n) ->
             (i < length (chunks ix))%nat)
  /\ (forall i, i ∈ candidate_ids ix query \/ i ∈ candidate_walk ix query ->
        exists c, chunks ix !! i = Some c)
  /\ (chunks ix = [] ->
      lexical_topn ix query n = [] /\ bm25_topn ix query n = []
      /\ faiss_topn ix query n = []).
Proof.
  intros Hix. apply init_Some in Hix as ->. split; [|split].
  - intros i [H|[H|H]];
      eauto using lexical_topn_lt, bm25_topn_lt, faiss_topn_lt.
  - intros i Hi. apply lookup_lt_is_Some_2, (candidate_ids_lt docs query).
    destruct Hi as [Hi|Hi]; [exact Hi|apply candidate_walk_elem, Hi].
  - apply topn_empty_corpus.
Qed.

(** The module-level function returns what the method returns on the
    index in place, or on the index it builds at first use. *)
Lemma hybrid_search_Some docs _index query top_k r st :
  hybrid_search docs _index query top_k = (Some r, st) ->
  exists ix,
    st = Some ix
    /\ (_index = Some ix \/ _index = None /\ KBIndex_init docs = Some ix)
    /\ KBIndex_hybrid_search ix query top_k = Some r.
Proof.
  unfold hybrid_search, get_index. destruct _index as [ix|].
  - intros [= H <-]. exists ix. split; [reflexivity|]. split; [left; reflexivity|exact H].
  - destruct (KBIndex_init docs) as [ix|]; [|discriminate].
    intros [= H <-]. exists ix. split; [reflexivity|].
    split; [right; split; reflexivity|exact H].
Qed.

(** C1 (amended): whenever [hybrid_search(q, k)] returns, on the live
    index or on the one it builds at first use, it returns at most
    [max(1, k)] chunks (at most [k] when [k >= 1]) and no more than the
    index holds, all of which are distinct, for every query and every
    integer [k]. *)
Theorem hybrid_search_top_k (docs : list (string * list string))
    (_index : option KBIndex) (query : string) (top_k : Z)
    (r : list Chunk) (st : option KBIndex) :
  NoDup (map fst docs) ->
  live _index ->
  hybrid_search docs _index query top_k = (Some r, st) ->
  exists ix,
    st = Some ix
    /\ live (Some ix)
    /\ KBIndex_hybrid_search ix query top_k = Some r
    /\ Z.of_nat (length r) <= Z.max 1 top_k
    /\ (1 <= top_k -> Z.of_nat (length r) <= top_k)
    /\ (length r <= length (chunks ix))%nat
    /\ NoDup (chunks ix).
Proof.
  intros Hdocs Hlive Hrun.
  apply hybrid_search_Some in Hrun as (ix & -> & Hsrc & Hr).
  assert (Hbuilt : exists docs', NoDup (map fst docs')
                                 /\ KBIndex_init docs' = Some ix).
  { destruct Hsrc as [-> | [-> Hinit]]; [exact Hlive|].
    exists docs. split; assumption. }
  destruct Hbuilt as (docs' & Hnd & Hinit).
  exists ix. split; [reflexivity|].
  split; [exists docs'; split; assumption|]. split; [exact Hr|].
  apply init_Some in Hinit as ->.
  destruct (hybrid_search_built docs' query top_k) as (cands & _ & Hout).
  rewrite Hr in Hout. destruct Hout as (Hk & Hn & _).
  split; [lia|]. split; [lia|]. split; [exact Hn|].
  apply flat_map_doc_chunks_NoDup, Hnd.
Qed.

End RetrievalFacts.

(** ** The stand-in libraries keep the promises *)

Module RefFacts.

Import Ref.

#[local] Instance ascending_trans l : Transitive (ascending l).
Proof. intros a b c. unfold ascending. apply Qle_trans. Qed.

#[local] Instance ascending_total l : Total (ascending l).
Proof.
  intros a b. unfold ascending.
  destruct (Qlt_le_dec (score_at l a) (score_at l b)) as [H|H].
  - left. apply Qlt_le_weak, H.
  - right. exact H.
Qed.

Lemma set_order_perm keys : NoDup keys -> set_order keys ≡ₚ keys.
Proof. intros _. apply merge_sort_Permutation. Qed.

Lemma argsort_perm l : argsort l ≡ₚ seq 0 (length l).
Proof. apply merge_sort_Permutation. Qed.

Lemma argsort_sorted l : StronglySorted (ascending l) (argsort l).
Proof. apply (StronglySorted_merge_sort (ascending l)). Qed.

Lemma tfidf_scores_length texts q : length (tfidf_scores texts q) = length texts.
Proof. apply length_map. Qed.

Lemma bm25_scores_length corpus q :
  length (bm25_get_scores corpus q) = length corpus.
Proof. apply length_map. Qed.

Lemma raw_search_labels texts q k labels :
  raw_search texts q k = Some labels ->
  Forall (fun i => i < Z.of_nat (length texts)) labels.
Proof.
  unfold raw_search. intros [= <-]. apply Forall_forall. intros z Hz.
  apply subseteq_take, elem_of_app in Hz as [Hz|Hz].
  - apply list_elem_of_In, in_map_iff in Hz as (j & <- & Hj).
    apply in_seq in Hj. lia.
  - apply list_elem_of_singleton in Hz as ->. lia.
Qed.

Lemma tfidf_cosine_length q texts scores :
  tfidf_cosine q texts = Some scores -> length scores = length texts.
Proof.
  unfold tfidf_cosine. destruct (vec_fit _); [|discriminate].
  intros [= <-]. apply length_map.
Qed.

Lemma predict_length model predict pairs :
  cross_encoder model = Some predict -> length (predict pairs) = length pairs.
Proof.
  unfold cross_encoder. destruct (String.eqb _ _); [|discriminate].
  intros [= <-]. apply length_map.
Qed.

Lemma token_set_ratio_empty a : (token_set_ratio a EmptyString == 0)%Q.
Proof. unfold token_set_ratio. destruct (Py.truthy a); reflexivity. Qed.

Lemma docs_NoDup : NoDup (map fst docs).
Proof.
  apply NoDup_ListNoDup. repeat constructor; simpl; intuition discriminate.
Qed.

Lemma mixed_docs_NoDup : NoDup (map fst mixed_docs).
Proof.
  apply NoDup_ListNoDup. repeat constructor; simpl; intuition discriminate.
Qed.

Lemma ref_index_built : KBIndex_init (env := ref_env) docs = Some ref_index.
Proof. vm_compute. reflexivity. Qed.

Lemma mixed_index_built :
  KBIndex_init (env := ref_env) mixed_docs = Some mixed_index.
Proof. vm_compute. reflexivity. Qed.

End RefFacts.

(** ** The claims on the stand-in libraries *)

(** One document of two lines gives one chunk over lines 0 to 1, and
    asking for Alpha with [top_k = 1] returns it. *)
Example search_alpha :
  KBIndex_hybrid_search (env := ref_env)
    (KBIndex_object (env := ref_env)
       [("a.md", ["Alpha is a test term."; "Beta is unrelated."])]%string)
    "What is Alpha?"%string 1
  = Some [mkChunk "a.md" 0 1
            ("Alpha is a test term." +:+ Py.nl +:+ "Beta is unrelated.")]%string.
Proof. vm_compute. reflexivity. Qed.

(** The boost at work: the one-word chunk matches the query exactly and
    is sorted under [1 + 0.15]. *)
Example boosted_scores_alpha :
  (score_at (bm25_scores (env := ref_env) ref_index ref_corpus "alpha") 0 == 1)%Q
  /\ (score_at (bm25_scores (env := ref_env) ref_index ref_corpus "alpha") 1
      == 115 # 100)%Q
  /\ bm25_topn (env := ref_env) ref_index "alpha"%string 25 = [1%nat; 0%nat].
Proof. repeat split; unfold Qeq; vm_compute; reflexivity. Qed.

(** The stand-in vectorizer at its limit: a knowledge base of stop words
    cannot be indexed, and on the three-file knowledge base the query
    [is] reaches the reranker through BM25 with a candidate of stop words
    only, where the fit fails. *)
Example build_and_search_raise :
  KBIndex_init (env := ref_env) Ref.stop_docs = None
  /\ hybrid_search (env := ref_env) Ref.stop_docs None EmptyString 3 = (None, None)
  /\ candidate_walk (env := ref_env) mixed_index "is" = [2%nat]
  /\ KBIndex_hybrid_search (env := ref_env) mixed_index "is" 3 = None
  /\ exists c, KBIndex_hybrid_search (env := ref_env) mixed_index "alpha" 3
               = Some [c].
Proof.
  split; [vm_compute; reflexivity|]. split; [vm_compute; reflexivity|].
  split; [vm_compute; reflexivity|].
  split; [vm_compute; reflexivity|]. eexists. vm_compute. reflexivity.
Qed.

Lemma hybrid_search_empty_query_witness :
  all_space "   " = true
  /\ KBIndex_init (env := ref_env) Ref.docs = Some ref_index
  /\ KBIndex_hybrid_search (env := ref_env) ref_index "   " 3 = Some []
  /\ hybrid_search (env := ref_env) Ref.docs (Some ref_index) "   " 3
     = (Some [], Some ref_index)
  /\ hybrid_search (env := ref_env) Ref.docs None "   " 3
     = (Some [], Some ref_index).
Proof.
  destruct (hybrid_search_empty_query (env := ref_env) Ref.docs ref_index 3)
    as (_ & _ & _ & _ & H).
  destruct (H "   "%string eq_refl) as (H1 & H2 & H3).
  split; [reflexivity|]. split; [exact RefFacts.ref_index_built|].
  split; [exact H1|]. split; [exact H2|exact (H3 RefFacts.ref_index_built)].
Defined.

(** C1 as stated fails for [top_k = 0]: the cut is [max(1, top_k)], so a
    query with candidates gets one chunk back. *)
Lemma hybrid_search_top_k_zero :
  exists r,
    KBIndex_hybrid_search (env := ref_env) ref_index "What is Alpha?"%string 0
    = Some r
    /\ ~ Z.of_nat (length r) <= 0.
Proof.
  eexists. split; [vm_compute; reflexivity|]. simpl. lia.
Qed.

Lemma hybrid_search_top_k_witness :
  NoDup (map fst Ref.docs)
  /\ live (env := ref_env) None
  /\ exists r st,
       hybrid_search (env := ref_env) Ref.docs None "What is Alpha?"%string 1
       = (Some r, st)
       /\ exists ix,
            st = Some ix
            /\ live (env := ref_env) (Some ix)
            /\ KBIndex_hybrid_search (env := ref_env) ix "What is Alpha?"%string 1
               = Some r
            /\ Z.of_nat (length r) <= Z.max 1 1
            /\ (1 <= 1 -> Z.of_nat (length r) <= 1)
            /\ (length r <= length (chunks ix))%nat
            /\ NoDup (chunks ix).
Proof.
  split; [exact RefFacts.docs_NoDup|]. split; [exact I|].
  assert (Hrun : hybrid_search (env := ref_env) Ref.docs None
                   "What is Alpha?"%string 1
                 = (Some [mkChunk "b.txt" 0 0 "alpha"], Some ref_index))
    by (vm_compute; reflexivity).
  eexists _, _. split; [exact Hrun|].
  exact (hybrid_search_top_k (env := ref_env)
           RefFacts.set_order_perm RefFacts.argsort_perm
           RefFacts.tfidf_scores_length
           RefFacts.bm25_scores_length RefFacts.raw_search_labels
           RefFacts.tfidf_cosine_length RefFacts.predict_length
           Ref.docs None "What is Alpha?"%string 1 _ _
           RefFacts.docs_NoDup I Hrun).
Defined.

(** C5: the claim holds of no reranker that can raise.  Nothing in
    [TfidfReranker.rerank] catches the [ValueError] of the vectorizer:
    when the fit fails, so does [rerank], for any candidate list; with
    the stand-in vectorizer this happens for the query [is] and the one
    candidate [is a], which [hybrid_search] passes on the three-file
    knowledge base.  And for no candidate at all [rerank] returns
    position 0, which the empty list does not have, where the docstring
    of [BaseReranker.rerank] promises indices into [candidates]. *)
Theorem rerank_raises_on_stop_words :
  (forall (env : Env) query candidates,
     tfidf_cosine query (match map snd candidates with
                         | [] => [EmptyString]
                         | l => l
                         end) = None ->
     rerank TfidfReranker query candidates = None)
  /\ rerank (env := ref_env) TfidfReranker "is" [(2%nat, "is a"%string)] = None
  /\ mapM (fun i => c ← chunks mixed_index !! i; Some (i, text c))
          (candidate_walk (env := ref_env) mixed_index "is")
     = Some [(2%nat, "is a"%string)]
  /\ rerank (env := ref_env) TfidfReranker "alpha" [] = Some [0%nat]
  /\ ~ [0%nat] ≡ₚ seq 0 (length ([] : list (nat * string))).
Proof.
  split.
  { intros env query candidates H. apply rerank_None. exact H. }
  split; [vm_compute; reflexivity|]. split; [vm_compute; reflexivity|].
  split; [vm_compute; reflexivity|]. simpl. intros H.
  apply Permutation_length in H. discriminate.
Qed.

Lemma bm25_fuzzy_boost_witness :
  (fuzz (Env := ref_env) = Some Ref.token_set_ratio
   /\ _bm25 ref_index = Some ref_corpus
   /\ _bm25_corpus_tokens ref_index = Some ref_corpus
   /\ _empty ref_index = false
   /\ Py.strip "alpha" <> EmptyString
   /\ (length (_tokenize "alpha") <= 3)%nat)
  /\ (85 # 100 < Ref.token_set_ratio "alpha" (Py.join space ["alpha"%string]) / 100)%Q
  /\ (score_at (bm25_scores (env := ref_env) ref_index ref_corpus "alpha") 1
      == score_at (Ref.bm25_get_scores ref_corpus ["alpha"%string]) 1
         + (15 # 100)
           * (Ref.token_set_ratio "alpha" (Py.join space ["alpha"%string]) / 100))%Q.
Proof.
  assert (H0 : fuzz (Env := ref_env) = Some Ref.token_set_ratio) by reflexivity.
  assert (H1 : _bm25 ref_index = Some ref_corpus) by reflexivity.
  assert (H2 : _bm25_corpus_tokens ref_index = Some ref_corpus) by reflexivity.
  assert (H3 : _empty ref_index = false) by reflexivity.
  assert (H4 : Py.strip "alpha" <> EmptyString) by discriminate.
  assert (H5 : (length (_tokenize "alpha") <= 3)%nat) by (simpl; lia).
  assert (H6 : (85 # 100 < Ref.token_set_ratio "alpha"
                             (Py.join space ["alpha"%string]) / 100)%Q)
    by reflexivity.
  split; [repeat split; assumption|]. split; [exact H6|].
  destruct (bm25_fuzzy_boost (env := ref_env)
              RefFacts.argsort_perm RefFacts.argsort_sorted
              RefFacts.bm25_scores_length
              ref_index ref_corpus Ref.token_set_ratio "alpha"%string 25
              H0 RefFacts.token_set_ratio_empty H1 H2 H3 H4 H5) as [Hboost _].
  destruct (Hboost 1%nat ["alpha"%string] eq_refl) as [Hyes _].
  exact (Hyes H6).
Defined.

Lemma topn_within_chunks_witness :
  KBIndex_init (env := ref_env) Ref.docs = Some ref_index
  /\ (forall i,
        In i (lexical_topn (env := ref_env) ref_index "alpha" 25)
        \/ In i (bm25_topn (env := ref_env) ref_index "alpha" 25)
        \/ In i (faiss_topn (env := ref_env) ref_index "alpha" 25) ->
        (i < length (chunks ref_index))%nat)
  /\ (forall i,
        i ∈ candidate_ids (env := ref_env) ref_index "alpha"
        \/ i ∈ candidate_walk (env := ref_env) ref_index "alpha" ->
        exists c, chunks ref_index !! i = Some c)
  /\ (chunks ref_index = [] ->
      lexical_topn (env := ref_env) ref_index "alpha" 25 = []
      /\ bm25_topn (env := ref_env) ref_index "alpha" 25 = []
      /\ faiss_topn (env := ref_env) ref_index "alpha" 25 = []).
Proof.
  split; [exact RefFacts.ref_index_built|].
  exact (topn_within_chunks (env := ref_env)
           RefFacts.set_order_perm RefFacts.argsort_perm
           RefFacts.tfidf_scores_length
           RefFacts.bm25_scores_length RefFacts.raw_search_labels
           Ref.docs ref_index "alpha"%string 25 RefFacts.ref_index_built).
Defined.

(** * Part III, continued: beyond the claims *)

(** ** Lists in the option monad *)

Lemma mapM_app_Some {A B} (f : A -> option B) (l1 l2 : list A) (r : list B) :
  mapM f (l1 ++ l2) = Some r ->
  exists r1 r2, mapM f l1 = Some r1 /\ mapM f l2 = Some r2 /\ r = r1 ++ r2.
Proof.
  intros H. apply mapM_Some_1, Forall2_app_inv_l in H as (r1 & r2 & H1 & H2 & ->).
  exists r1, r2. split; [apply mapM_Some_2, H1|].
  split; [apply mapM_Some_2, H2|reflexivity].
Qed.

(** A relation that sends distinct elements to distinct images keeps a
    list free of repetitions. *)
Lemma Forall2_NoDup_r {A B} (P : A -> B -> Prop) (l : list A) (k : list B) :
  Forall2 P l k -> NoDup l ->
  (forall x y z, x ∈ l -> y ∈ l -> P x z -> P y z -> x = y) ->
  NoDup k.
Proof.
  induction 1 as [|x z l k Hxz Hlk IH]; intros Hnd Hinj; [constructor|].
  apply NoDup_cons in Hnd as [Hx Hnd]. apply NoDup_cons. split.
  - intros Hz. apply list_elem_of_lookup in Hz as [p Hp].
    destruct (Forall2_lookup_r _ _ _ p z Hlk Hp) as (y & Hy & Hyz).
    assert (Hyl : y ∈ l) by (apply list_elem_of_lookup; eauto).
    assert (x = y) as ->.
    { apply (Hinj x y z); [left|right; exact Hyl|exact Hxz|exact Hyz]. }
    contradiction.
  - apply IH; [exact Hnd|].
    intros a b c Ha Hb. apply Hinj; right; assumption.
Qed.

Lemma take_prefix_le {A} (l : list A) (a b : Z) :
  0 <= a <= b -> Py.take l a `prefix_of` Py.take l b.
Proof.
  intros Hab. rewrite !take_nonneg by lia.
  replace (Z.to_nat a) with (Z.to_nat a `min` Z.to_nat b)%nat by lia.
  rewrite <- take_take. apply prefix_take.
Qed.

(** ** What a search returns *)

Section SearchFacts.

Context {env : Env}.

(** The candidate list pairs every position of the walk with the text of
    its chunk. *)
Lemma candidates_walk ix (walk : list nat) cands :
  mapM (fun i => c ← chunks ix !! i; Some (i, text c)) walk = Some cands ->
  Forall2 (fun i c => exists ch, chunks ix !! i = Some ch /\ c = (i, text ch))
          walk cands.
Proof.
  intros Hc. apply mapM_Some_1 in Hc. eapply Forall2_impl; [exact Hc|].
  intros i c Hi. cbn beta in Hi.
  destruct (chunks ix !! i) as [ch|]; [|discriminate].
  injection Hi as <-. exists ch. split; reflexivity.
Qed.

Lemma candidates_fst ix (walk : list nat) cands :
  mapM (fun i => c ← chunks ix !! i; Some (i, text c)) walk = Some cands ->
  fst <$> cands = walk.
Proof.
  intros Hc. apply candidates_walk in Hc.
  induction Hc as [|i c l k (ch & _ & ->) _ IH]; [reflexivity|].
  cbn. f_equal. exact IH.
Qed.

(** The stages of a search that returns: it stopped early, on a blank
    query or an empty candidate set, or it went through the candidates
    in the walk order of the set, the positions chosen by the reranker,
    and the chunks. *)
Lemma hybrid_search_shape ix query top_k r :
  KBIndex_hybrid_search ix query top_k = Some r ->
  (r = [] /\ (Py.strip query = EmptyString \/ candidate_ids ix query = ∅))
  \/ (Py.strip query <> EmptyString /\ candidate_ids ix query <> ∅
      /\ exists cands order sel,
           mapM (fun i => c ← chunks ix !! i; Some (i, text c))
                (candidate_walk ix query) = Some cands
           /\ rerank (reranker ix) query cands = Some order
           /\ mapM (fun i => fst <$> cands !! i)
                   (Py.take order (Z.max 1 top_k)) = Some sel
           /\ mapM (fun i => chunks ix !! i) sel = Some r).
Proof.
  unfold KBIndex_hybrid_search.
  destruct (Py.strip query) as [|q0 qs] eqn:Hq; cbn [Py.truthy negb].
  { intros [= <-]. left. split; [reflexivity|left; reflexivity]. }
  destruct (bool_decide _) eqn:He.
  { intros [= <-]. left. split; [reflexivity|].
    right. apply bool_decide_eq_true in He. exact He. }
  apply bool_decide_eq_false in He.
  destruct (mapM _ (candidate_walk _ _)) as [cands|] eqn:Hc; [|discriminate].
  cbn [mbind option_bind].
  destruct (rerank _ _ _) as [order|] eqn:Ho; [|discriminate].
  cbn [mbind option_bind].
  destruct (mapM _ (Py.take _ _)) as [sel|] eqn:Hs; [|discriminate].
  cbn [mbind option_bind]. intros Hr. right.
  split; [discriminate|]. split; [exact He|].
  exists cands, order, sel. repeat split; assumption.
Qed.

(** Every returned chunk sits at a position of the chunk array that the
    walk of the candidate set visited. *)
Lemma hybrid_search_from_candidates ix query top_k r :
  KBIndex_hybrid_search ix query top_k = Some r ->
  Forall (fun c => exists i, i ∈ candidate_walk ix query
                             /\ chunks ix !! i = Some c) r.
Proof.
  intros H.
  apply hybrid_search_shape in H
    as [[-> _]|(_ & _ & cands & order & sel & Hc & _ & Hs & Hr)];
    [constructor|].
  pose proof (candidates_fst _ _ _ Hc) as Hfst.
  apply mapM_Some_1 in Hs. apply mapM_Some_1 in Hr.
  apply Forall_forall. intros c Hcin.
  apply list_elem_of_lookup in Hcin as [n Hn].
  destruct (Forall2_lookup_r _ _ _ n c Hr Hn) as (i & Hi & Hci).
  exists i. split; [|exact Hci].
  destruct (Forall2_lookup_r _ _ _ n i Hs Hi) as (p & _ & Hp).
  cbn beta in Hp. rewrite <- (list_lookup_fmap fst cands), Hfst in Hp.
  apply list_elem_of_lookup. eauto.
Qed.

(** Candidates there are when the set is not empty. *)
Lemma cands_nonempty ix query cands :
  LibsOk -> candidate_ids ix query <> ∅ ->
  mapM (fun i => c ← chunks ix !! i; Some (i, text c))
       (candidate_walk ix query) = Some cands ->
  cands <> [].
Proof.
  intros Hok He Hc ->. apply candidates_fst in Hc. cbn in Hc.
  apply He, set_eq. intros i.
  rewrite elem_of_empty, <- (candidate_walk_elem (ok_set_order Hok)), <- Hc.
  rewrite elem_of_nil. tauto.
Qed.

(** The selected ids are pairwise distinct: the reranker orders
    positions, each once, and the walk holds every id once. *)
Lemma selection_NoDup ix query top_k cands order sel :
  LibsOk ->
  mapM (fun i => c ← chunks ix !! i; Some (i, text c))
       (candidate_walk ix query) = Some cands ->
  rerank (reranker ix) query cands = Some order ->
  mapM (fun i => fst <$> cands !! i) (Py.take order (Z.max 1 top_k)) = Some sel ->
  NoDup sel.
Proof.
  intros Hok Hc Ho Hs.
  pose proof (candidates_fst _ _ _ Hc) as Hfst.
  apply rerank_Some in Ho as (scores & _ & ->).
  apply mapM_Some_1 in Hs.
  eapply Forall2_NoDup_r; [exact Hs| |].
  - rewrite take_firstn. eapply sublist_NoDup; [|apply sublist_take].
    rewrite (rev_argsort_perm (ok_argsort_perm Hok)). apply NoDup_seq.
  - intros p p' i _ _ Hp Hp'. cbn beta in Hp, Hp'.
    rewrite <- (list_lookup_fmap fst cands) in Hp, Hp'.
    eapply NoDup_lookup; [|exact Hp|exact Hp'].
    rewrite Hfst. apply (candidate_walk_NoDup (ok_set_order Hok)).
Qed.


Lemma doc_chunks_elem id lines c :
  c ∈ doc_chunks (id, lines) ->
  doc_id c = id
  /\ 0 <= start_line c <= end_line c /\ end_line c < n_lines lines
  /\ text c = Py.strip (Py.join Py.nl
                          (lines_between lines (start_line c) (end_line c)))
  /\ text c <> EmptyString.
Proof.
  unfold doc_chunks. intros Hc.
  apply list_elem_of_In, in_map_iff in Hc as ([[s e] txt] & <- & Hin).
  apply list_elem_of_In, make_chunks_elem in Hin as (Hs & He & Htxt & Hne).
  cbn [doc_id start_line end_line text].
  split; [reflexivity|]. split; [lia|]. split; [lia|]. split; [|exact Hne].
  rewrite Htxt. unfold lines_between.
  rewrite PyFacts.slice_inside by (unfold n_lines in *; lia).
  do 3 f_equal. lia.
Qed.

Lemma init_chunk_of_docs docs c :
  c ∈ build_chunks docs -> chunk_of_docs docs c.
Proof.
  unfold build_chunks. intros Hc.
  apply list_elem_of_In, in_flat_map in Hc as ([id lines] & Hd & Hc).
  apply list_elem_of_In, doc_chunks_elem in Hc as (Hid & Hr1 & Hr2 & Ht & Hne).
  exists lines. rewrite Hid. split; [apply list_elem_of_In, Hd|].
  repeat split; try lia; assumption.
Qed.

(** The chunks of a built index are the chunks the first loop of
    [KBIndex.__init__] made of the documents. *)
Lemma init_chunks docs ix :
  KBIndex_init docs = Some ix -> chunks ix = build_chunks docs.
Proof. intros H. apply init_Some in H as ->. reflexivity. Qed.

(** On a built index, under the promises of the libraries, a search
    raises only what the reranker raised. *)
Lemma libs_outcome docs ix query top_k :
  LibsOk -> KBIndex_init docs = Some ix ->
  exists cands,
    mapM (fun i => c ← chunks ix !! i; Some (i, text c)) (candidate_walk ix query)
    = Some cands
    /\ match KBIndex_hybrid_search ix query top_k with
       | Some r =>
           (length r <= Z.to_nat (Z.max 1 top_k))%nat
           /\ (length r <= length (chunks ix))%nat
           /\ Forall (fun c => exists i, i ∈ candidate_ids ix query
                                         /\ chunks ix !! i = Some c) r
       | None =>
           Py.strip query <> EmptyString
           /\ candidate_ids ix query <> ∅
           /\ rerank (reranker ix) query cands = None
       end.
Proof.
  intros [H0 H1 H2 H3 H4 H5 H6 H7] Hix. apply init_Some in Hix as ->.
  apply hybrid_search_built; assumption.
Qed.

(** What a search on a built index returns is bounded, comes from the
    documents and holds no chunk twice. *)
Lemma search_returned docs ix query top_k r :
  LibsOk -> KBIndex_init docs = Some ix ->
  KBIndex_hybrid_search ix query top_k = Some r ->
  (length r <= Z.to_nat (Z.max 1 top_k))%nat
  /\ Forall (chunk_of_docs docs) r
  /\ (NoDup (map fst docs) -> NoDup r).
Proof.
  intros Hok Hix Hr. pose proof (init_chunks _ _ Hix) as Hch. split; [|split].
  - destruct (libs_outcome docs ix query top_k Hok Hix) as (cands & _ & Hm).
    rewrite Hr in Hm. apply Hm.
  - apply hybrid_search_from_candidates in Hr.
    eapply Forall_impl; [exact Hr|].
    intros c (i & _ & Hi). apply init_chunk_of_docs. rewrite <- Hch.
    apply list_elem_of_lookup. eauto.
  - intros Hdocs.
    apply hybrid_search_shape in Hr
      as [[-> _]|(_ & _ & cands & order & sel & Hc & Ho & Hs & Hr)];
      [constructor|].
    pose proof (selection_NoDup ix query top_k cands order sel Hok Hc Ho Hs)
      as Hsel.
    apply mapM_Some_1 in Hr.
    eapply Forall2_NoDup_r; [exact Hr|exact Hsel|].
    intros i j c _ _ Hi Hj. cbn beta in Hi, Hj.
    eapply NoDup_lookup; [|exact Hi|exact Hj].
    rewrite Hch. apply flat_map_doc_chunks_NoDup, Hdocs.
Qed.

(** Every chunk a search returns, on an index built from the documents
    of the directory, comes from one of these documents, with a line
    range inside that document and the trimmed join of exactly these
    lines as its text. *)
Theorem search_result_provenance (docs : list (string * list string))
    (ix : KBIndex) (query : string) (top_k : Z) (r : list Chunk) :
  KBIndex_init docs = Some ix ->
  KBIndex_hybrid_search ix query top_k = Some r ->
  Forall (chunk_of_docs docs) r.
Proof.
  intros Hix Hr. apply init_chunks in Hix.
  apply hybrid_search_from_candidates in Hr.
  apply Forall_forall. intros c Hc. rewrite Forall_forall in Hr.
  destruct (Hr c Hc) as (i & _ & Hi).
  apply init_chunk_of_docs. rewrite <- Hix.
  apply list_elem_of_lookup. exists i. exact Hi.
Qed.

(** What a search returns holds no chunk twice (file names in a
    directory being distinct). *)
Theorem search_result_NoDup (docs : list (string * list string))
    (ix : KBIndex) (query : string) (top_k : Z) (r : list Chunk) :
  LibsOk -> NoDup (map fst docs) ->
  KBIndex_init docs = Some ix ->
  KBIndex_hybrid_search ix query top_k = Some r ->
  NoDup r.
Proof.
  intros Hok Hdocs Hix Hr.
  assert (Hchunks : NoDup (chunks ix)).
  { rewrite (init_chunks _ _ Hix). apply flat_map_doc_chunks_NoDup, Hdocs. }
  apply hybrid_search_shape in Hr
    as [[-> _]|(_ & _ & cands & order & sel & Hc & Ho & Hs & Hr)];
    [constructor|].
  assert (Hsel : NoDup sel) by (eapply selection_NoDup; eassumption).
  apply mapM_Some_1 in Hr.
  eapply Forall2_NoDup_r; [exact Hr|exact Hsel|].
  intros i j c _ _ Hi Hj. cbn beta in Hi, Hj.
  eapply NoDup_lookup; [exact Hchunks|exact Hi|exact Hj].
Qed.

(** Asking for more never changes what came first: when the search for
    [k'] chunks returns, the search for any smaller [k] returns as well,
    and its result is a prefix of the larger one. *)
Theorem search_result_prefix (ix : KBIndex) (query : string) (k k' : Z)
    (r' : list Chunk) :
  k <= k' ->
  KBIndex_hybrid_search ix query k' = Some r' ->
  exists r, KBIndex_hybrid_search ix query k = Some r /\ r `prefix_of` r'.
Proof.
  intros Hk. unfold KBIndex_hybrid_search.
  destruct (negb _); [intros [= <-]; exists []; split; reflexivity|].
  destruct (bool_decide _); [intros [= <-]; exists []; split; reflexivity|].
  destruct (mapM _ (candidate_walk _ _)) as [cands|]; [|discriminate].
  cbn [mbind option_bind].
  destruct (rerank _ _ _) as [order|]; [|discriminate].
  cbn [mbind option_bind].
  destruct (take_prefix_le order (Z.max 1 k) (Z.max 1 k')) as [rest Hrest]; [lia|].
  rewrite Hrest.
  destruct (mapM _ (_ ++ rest)) as [sel'|] eqn:Hs'; [|discriminate].
  cbn [mbind option_bind]. intros Hr'.
  apply mapM_app_Some in Hs' as (s1 & s2 & Hs1 & _ & ->).
  rewrite Hs1. cbn [mbind option_bind].
  apply mapM_app_Some in Hr' as (r1 & r2 & Hr1 & _ & ->).
  exists r1. split; [exact Hr1|]. apply prefix_app_r. reflexivity.
Qed.


(** *** Signals that are off *)

Lemma bm25_topn_off docs query n :
  BM25Okapi = false \/ bm25_enabled = false ->
  bm25_topn (KBIndex_object docs) query n = [].
Proof.
  intros H. unfold bm25_topn. rewrite init_bm25.
  destruct H as [-> | ->]; [reflexivity|]. rewrite andb_false_r. reflexivity.
Qed.

Lemma faiss_topn_off docs query n :
  faiss_enabled settings = false \/ faiss_present = false ->
  faiss_topn (KBIndex_object docs) query n = [].
Proof.
  intros H. unfold faiss_topn. destruct (_empty _); [reflexivity|].
  rewrite init_faiss. destruct (faiss_enabled settings); [|reflexivity].
  destruct H as [H|H]; [discriminate|].
  unfold Faiss.search, Faiss.init. rewrite H.
  destruct (vec_fit _); reflexivity.
Qed.

(** A position the lexical signal returned holds the text of its chunk
    in the matrix, with a score above 0. *)
Lemma lexical_topn_text docs query n i ch :
  LibsOk ->
  In i (lexical_topn (KBIndex_object docs) query n) ->
  chunks (KBIndex_object docs) !! i = Some ch ->
  lex_mx (KBIndex_object docs) !! i = Some (text ch)
  /\ (0 < score_at (tfidf_scores (lex_mx (KBIndex_object docs)) query) i)%Q.
Proof.
  intros Hok Hi Hch. split.
  - rewrite init_lex_mx.
    destruct (chunks (KBIndex_object docs)) as [|c cs] eqn:Hcs; [discriminate|].
    change (Faiss.or_placeholder (map text (c :: cs))) with (text <$> (c :: cs)).
    rewrite list_lookup_fmap, Hch. reflexivity.
  - unfold lexical_topn in Hi. destruct (_empty _); [destruct Hi|].
    destruct (_ =? _)%nat; [destruct Hi|].
    exact (proj2 (topn_In (ok_argsort_perm Hok) _ _ _ Hi)).
Qed.

(** With BM25 missing or switched off and the vector index missing or
    switched off, the candidates of a built index are the lexical top 25
    and nothing else, and every chunk a search returns has a strictly
    positive lexical score; the search does return when the vectorizer
    of the reranker, built like that of the index, finds a vocabulary in
    texts the index scored above 0. *)
Theorem lexical_only_search (docs : list (string * list string))
    (ix : KBIndex) (query : string) (top_k : Z) :
  LibsOk ->
  BM25Okapi = false \/ bm25_enabled = false ->
  faiss_enabled settings = false \/ faiss_present = false ->
  KBIndex_init docs = Some ix ->
  candidate_ids ix query = list_to_set (lexical_topn ix query 25)
  /\ (forall r,
        KBIndex_hybrid_search ix query top_k = Some r ->
        Forall (fun c => exists i,
                  chunks ix !! i = Some c
                  /\ In i (lexical_topn ix query 25)
                  /\ (0 < score_at (tfidf_scores (lex_mx ix) query) i)%Q) r)
  /\ (positive_fits -> exists r, KBIndex_hybrid_search ix query top_k = Some r).
Proof.
  intros Hok Hbm25 Hfaiss Hix. pose proof (init_Some _ _ Hix) as Hobj.
  assert (Hcand : candidate_ids ix query = list_to_set (lexical_topn ix query 25)).
  { rewrite Hobj. unfold candidate_ids. rewrite fuse_union.
    rewrite (bm25_topn_off docs query 25 Hbm25).
    rewrite (faiss_topn_off docs query 25 Hfaiss).
    apply set_eq. intros i. rewrite !elem_of_union, !elem_of_list_to_set.
    rewrite !elem_of_nil. tauto. }
  assert (Hlex : forall i, i ∈ candidate_walk ix query ->
                           In i (lexical_topn ix query 25)).
  { intros i Hi. apply (candidate_walk_elem (ok_set_order Hok)) in Hi.
    rewrite Hcand in Hi. apply elem_of_list_to_set, list_elem_of_In in Hi.
    exact Hi. }
  split; [exact Hcand|]. split.
  - intros r Hr. apply hybrid_search_from_candidates in Hr.
    eapply Forall_impl; [exact Hr|].
    intros c (i & Hi & Hc). exists i. split; [exact Hc|].
    apply Hlex in Hi. split; [exact Hi|].
    rewrite Hobj in Hi, Hc |- *.
    exact (proj2 (lexical_topn_text docs query 25 i c Hok Hi Hc)).
  - intros Hfit.
    destruct (libs_outcome docs ix query top_k Hok Hix) as (cands & Hc & Hm).
    destruct (KBIndex_hybrid_search ix query top_k) as [r|];
      [exists r; reflexivity|].
    exfalso. destruct Hm as (_ & He & Hnone). apply rerank_None in Hnone.
    pose proof (cands_nonempty ix query cands Hok He Hc) as Hne.
    destruct cands as [|[i t] cands']; [congruence|].
    destruct (Forall2_lookup_r _ _ _ 0%nat (i, t) (candidates_walk _ _ _ Hc) eq_refl)
      as (j & Hj & ch & Hch & [= -> ->]).
    assert (Hi : In j (lexical_topn ix query 25))
      by (apply Hlex, list_elem_of_lookup; eauto).
    rewrite Hobj in Hi, Hch.
    destruct (lexical_topn_text docs query 25 j ch Hok Hi Hch) as [Htxt Hpos].
    destruct (reranker ix) as [|predict]; [|discriminate].
    cbn [rerank_scores map snd] in Hnone.
    destruct (Hfit _ query j (text ch) Htxt Hpos query
                (text ch :: map snd cands')) as [scores Hs]; [left|].
    rewrite Hs in Hnone. discriminate.
Qed.


(** *** An index that counts as empty *)

Lemma empty_flag_silent ix query n :
  _empty ix = true ->
  lexical_topn ix query n = [] /\ bm25_topn ix query n = []
  /\ faiss_topn ix query n = [].
Proof.
  intros He. unfold lexical_topn, bm25_topn, faiss_topn. rewrite He.
  destruct (_bm25 ix); repeat split; reflexivity.
Qed.

(** A built index counts as empty exactly when it has no chunk or its
    chunk texts are the one text "placeholder"; an index that counts as
    empty answers every search with the empty list. *)
Theorem empty_index_iff (docs : list (string * list string)) (ix : KBIndex) :
  KBIndex_init docs = Some ix ->
  (_empty ix = true
   <-> chunks ix = [] \/ map text (chunks ix) = ["placeholder"%string])
  /\ (_empty ix = true ->
      forall query top_k, KBIndex_hybrid_search ix query top_k = Some []).
Proof.
  intros Hix. apply init_Some in Hix as ->. split.
  - rewrite init_empty, init_lex_mx, bool_decide_eq_true.
    destruct (chunks (KBIndex_object docs)) as [|c cs]; simpl.
    + split; [left; reflexivity|reflexivity].
    + split; [intros H; right; exact H|intros [H|H]; [discriminate|exact H]].
  - intros He query top_k. unfold KBIndex_hybrid_search.
    destruct (negb _); [reflexivity|]. unfold candidate_ids.
    destruct (empty_flag_silent _ query 25 He) as (-> & -> & ->).
    reflexivity.
Qed.

End SearchFacts.

(** ** The properties on the stand-in libraries *)

Lemma ref_libs_ok : LibsOk (env := ref_env).
Proof.
  constructor.
  - exact RefFacts.set_order_perm.
  - exact RefFacts.argsort_perm.
  - exact RefFacts.argsort_sorted.
  - exact RefFacts.tfidf_scores_length.
  - exact RefFacts.bm25_scores_length.
  - exact RefFacts.raw_search_labels.
  - exact RefFacts.tfidf_cosine_length.
  - exact RefFacts.predict_length.
Qed.

Lemma lexical_libs_ok : LibsOk (env := lexical_env).
Proof.
  constructor.
  - exact RefFacts.set_order_perm.
  - exact RefFacts.argsort_perm.
  - exact RefFacts.argsort_sorted.
  - exact RefFacts.tfidf_scores_length.
  - exact RefFacts.bm25_scores_length.
  - exact RefFacts.raw_search_labels.
  - exact RefFacts.tfidf_cosine_length.
  - exact RefFacts.predict_length.
Qed.

(** The stand-in vectorizer keeps its promise: a text that shares a kept
    term with a query has a kept term. *)
Lemma overlap_positive q t : (0 < Ref.overlap q t)%Q -> t <> [].
Proof.
  intros H ->. unfold Ref.overlap in H.
  assert (Hf : List.filter (fun w => existsb (String.eqb w) []) q = []).
  { clear H. induction q as [|w q IH]; [reflexivity|]. exact IH. }
  rewrite Hf in H. exact (Qlt_irrefl _ H).
Qed.

Lemma concat_terms_nil l t :
  concat (map Ref.terms l) = [] -> t ∈ l -> Ref.terms t = [].
Proof.
  induction l as [|x l IH]; intros Hc Ht; [inversion Ht|].
  cbn [map concat] in Hc. apply app_eq_nil in Hc as [Hx Hl].
  apply elem_of_cons in Ht as [->|Ht]; [exact Hx|exact (IH Hl Ht)].
Qed.

Lemma lexical_positive_fits : positive_fits (env := lexical_env).
Proof.
  intros texts q i t Ht Hpos q' texts' Hin.
  change (is_Some (Ref.tfidf_cosine q' texts')).
  change (0 < score_at (Ref.tfidf_scores texts q) i)%Q in Hpos.
  assert (Hs : score_at (Ref.tfidf_scores texts q) i
               = Ref.overlap (Ref.terms q) (Ref.terms t)).
  { unfold score_at, Ref.tfidf_scores. apply nth_lookup_Some.
    rewrite list_lookup_fmap, Ht. reflexivity. }
  rewrite Hs in Hpos. apply overlap_positive in Hpos.
  unfold Ref.tfidf_cosine, Ref.vec_fit.
  destruct (concat (map Ref.terms (q' :: texts'))) as [|w ws] eqn:Hc.
  - exfalso. apply Hpos, (concat_terms_nil (q' :: texts')); [exact Hc|].
    right. exact Hin.
  - eexists. reflexivity.
Qed.

Lemma lexical_index_built :
  KBIndex_init (env := lexical_env) Ref.docs = Some lexical_index.
Proof. vm_compute. reflexivity. Qed.

Lemma search_result_provenance_witness :
  KBIndex_init (env := ref_env) Ref.docs = Some ref_index
  /\ KBIndex_hybrid_search (env := ref_env) ref_index "alpha" 3
     = Some [chunk_b; chunk_a]
  /\ Forall (chunk_of_docs Ref.docs) [chunk_b; chunk_a].
Proof.
  assert (Hrun : KBIndex_hybrid_search (env := ref_env) ref_index "alpha" 3
                 = Some [chunk_b; chunk_a]) by (vm_compute; reflexivity).
  split; [exact RefFacts.ref_index_built|]. split; [exact Hrun|].
  exact (search_result_provenance (env := ref_env) Ref.docs ref_index
           "alpha"%string 3 [chunk_b; chunk_a] RefFacts.ref_index_built Hrun).
Defined.

Lemma search_result_NoDup_witness :
  LibsOk (env := ref_env) /\ NoDup (map fst Ref.docs)
  /\ KBIndex_init (env := ref_env) Ref.docs = Some ref_index
  /\ KBIndex_hybrid_search (env := ref_env) ref_index "alpha" 3
     = Some [chunk_b; chunk_a]
  /\ NoDup [chunk_b; chunk_a].
Proof.
  assert (Hrun : KBIndex_hybrid_search (env := ref_env) ref_index "alpha" 3
                 = Some [chunk_b; chunk_a]) by (vm_compute; reflexivity).
  split; [exact ref_libs_ok|]. split; [exact RefFacts.docs_NoDup|].
  split; [exact RefFacts.ref_index_built|]. split; [exact Hrun|].
  exact (search_result_NoDup (env := ref_env) Ref.docs ref_index
           "alpha"%string 3 [chunk_b; chunk_a] ref_libs_ok RefFacts.docs_NoDup
           RefFacts.ref_index_built Hrun).
Defined.

Lemma search_result_prefix_witness :
  1 <= 3
  /\ KBIndex_hybrid_search (env := ref_env) ref_index "alpha" 3
     = Some [chunk_b; chunk_a]
  /\ exists r,
       KBIndex_hybrid_search (env := ref_env) ref_index "alpha" 1 = Some r
       /\ r `prefix_of` [chunk_b; chunk_a].
Proof.
  assert (Hrun : KBIndex_hybrid_search (env := ref_env) ref_index "alpha" 3
                 = Some [chunk_b; chunk_a]) by (vm_compute; reflexivity).
  split; [lia|]. split; [exact Hrun|].
  apply (search_result_prefix (env := ref_env) ref_index "alpha"%string 1 3
           [chunk_b; chunk_a]); [lia|exact Hrun].
Defined.


Lemma lexical_only_search_witness :
  LibsOk (env := lexical_env)
  /\ (BM25Okapi (Env := lexical_env) = false
      \/ bm25_enabled (Env := lexical_env) = false)
  /\ (faiss_enabled (settings (Env := lexical_env)) = false
      \/ faiss_present (Env := lexical_env) = false)
  /\ KBIndex_init (env := lexical_env) Ref.docs = Some lexical_index
  /\ positive_fits (env := lexical_env)
  /\ candidate_ids (env := lexical_env) lexical_index "alpha"
     = list_to_set (lexical_topn (env := lexical_env) lexical_index "alpha" 25)
  /\ exists r,
       KBIndex_hybrid_search (env := lexical_env) lexical_index "alpha" 3 = Some r
       /\ Forall (fun c => exists i,
                    chunks lexical_index !! i = Some c
                    /\ In i (lexical_topn (env := lexical_env) lexical_index
                               "alpha" 25)
                    /\ (0 < score_at
                              (tfidf_scores (Env := lexical_env)
                                 (lex_mx lexical_index) "alpha") i)%Q) r.
Proof.
  split; [exact lexical_libs_ok|].
  split; [left; reflexivity|]. split; [right; reflexivity|].
  split; [exact lexical_index_built|]. split; [exact lexical_positive_fits|].
  destruct (lexical_only_search (env := lexical_env) Ref.docs lexical_index
              "alpha"%string 3 lexical_libs_ok (or_introl eq_refl)
              (or_intror eq_refl) lexical_index_built)
    as (Hcand & Hall & Hret).
  split; [exact Hcand|].
  destruct (Hret lexical_positive_fits) as [r Hr].
  exists r. split; [exact Hr|exact (Hall r Hr)].
Defined.


Lemma empty_index_iff_witness :
  KBIndex_init (env := ref_env) [] = Some (KBIndex_object (env := ref_env) [])
  /\ _empty (KBIndex_object (env := ref_env) []) = true
  /\ forall query top_k,
       KBIndex_hybrid_search (env := ref_env) (KBIndex_object (env := ref_env) [])
         query top_k = Some [].
Proof.
  assert (Hix : KBIndex_init (env := ref_env) []
                = Some (KBIndex_object (env := ref_env) []))
    by (vm_compute; reflexivity).
  split; [exact Hix|]. split; [reflexivity|].
  exact (proj2 (empty_index_iff (env := ref_env) [] _ Hix) eq_refl).
Defined.

(** ** The vector index answers only when it was fitted *)

(** A position is returned by [FaissIndex.search] exactly when faiss is
    installed, the vectorizer found at least three terms, the reduction
    was fitted and filled the index, the query is not blank, and the
    library's search ran and returned this position as a label. *)
Theorem faiss_search_iff (faiss_present : bool)
    (vec_fit : list string -> option Z) (svd_fit_add : list string -> Z -> bool)
    (raw_search : list string -> string -> Z -> option (list Z))
    (texts : list string) (dims : Z) (query : string) (top_k : Z) (i : nat) :
  In i (Faiss.search raw_search
          (Faiss.init faiss_present vec_fit svd_fit_add texts dims) query top_k)
  <-> faiss_present = true
      /\ Py.strip query <> EmptyString
      /\ exists n_features labels,
           vec_fit (Faiss.or_placeholder texts) = Some n_features
           /\ 3 <= n_features
           /\ svd_fit_add (Faiss.or_placeholder texts)
                (Faiss.eff_dims dims n_features) = true
           /\ raw_search (Faiss.or_placeholder texts) query top_k = Some labels
           /\ In (Z.of_nat i) labels.
Proof.
  unfold Faiss.search. rewrite FaissFacts.init_texts. unfold Faiss.init.
  assert (Hlab : forall labels,
            In i (map Z.to_nat (List.filter (fun j => 0 <=? j) labels))
            <-> In (Z.of_nat i) labels).
  { intros labels. rewrite in_map_iff. split.
    - intros (z & <- & Hz). apply filter_In in Hz as [Hz Hpos].
      apply Z.leb_le in Hpos. rewrite Z2Nat.id by exact Hpos. exact Hz.
    - intros Hin. exists (Z.of_nat i). split; [apply Nat2Z.id|].
      apply filter_In. split; [exact Hin|]. apply Z.leb_le. lia. }
  destruct (vec_fit _) as [nf|] eqn:Hfit; cbn [Faiss.enabled Faiss.disabled].
  - destruct faiss_present; cbn [negb orb].
    + destruct (Z.ltb_spec nf 3) as [Hlt|Hge]; cbn [Faiss.enabled Faiss.disabled].
      * cbn [negb orb]. split; [intros []|].
        intros (_ & _ & n & labels & [= <-] & Hn & _). lia.
      * destruct (svd_fit_add _ _) eqn:Hsvd; cbn [Faiss.enabled Faiss.disabled negb orb].
        -- destruct (Py.strip query) eqn:Hq; cbn [Py.truthy negb].
           ++ split; [intros []|]. intros (_ & Hne & _). congruence.
           ++ destruct (raw_search _ _ _) as [labels|] eqn:Hraw.
              ** rewrite Hlab. split.
                 --- intros Hin. split; [reflexivity|]. split; [discriminate|].
                     exists nf, labels. repeat split; try assumption; lia.
                 --- intros (_ & _ & n & labels' & _ & _ & _ & [= <-] & Hin).
                     exact Hin.
              ** split; [intros []|].
                 intros (_ & _ & n & labels' & _ & _ & _ & Hl & _). discriminate.
        -- split; [intros []|].
           intros (_ & _ & n & labels & [= <-] & _ & Hs & _). congruence.
    + split; [intros []|]. intros (H & _). discriminate.
  - cbn [negb orb]. split; [intros []|].
    intros (_ & _ & n & labels & Hn & _). discriminate.
Qed.

(** ** The tokenizer *)

Module TokenFacts.

Lemma append_nil_r s : s +:+ EmptyString = s.
Proof.
  induction s as [|c s IH]; [reflexivity|].
  change (String c (s +:+ EmptyString) = String c s). congruence.
Qed.

Lemma append_assoc a b c : (a +:+ b) +:+ c = a +:+ (b +:+ c).
Proof.
  induction a as [|x a IH]; [reflexivity|].
  change (String x ((a +:+ b) +:+ c) = String x (a +:+ (b +:+ c))). congruence.
Qed.

Lemma all_chars_app p a b : all_chars p (a +:+ b) = all_chars p a && all_chars p b.
Proof.
  induction a as [|c a IH]; simpl; [reflexivity|].
  rewrite IH. apply andb_assoc.
Qed.

Lemma truthy_app_r a c b : Py.truthy (a +:+ String c b) = true.
Proof. destruct a; reflexivity. Qed.

Lemma findall_tokens_nil cur : findall_tokens EmptyString cur = flush cur.
Proof. reflexivity. Qed.

(** A character outside the token alphabet ends the run and starts anew. *)
Lemma findall_tokens_sep a c b cur :
  is_token_char c = false ->
  findall_tokens (a +:+ String c b) cur
  = findall_tokens a cur ++ findall_tokens b EmptyString.
Proof.
  intros Hc. revert cur. induction a as [|x a IH]; intros cur; simpl.
  - rewrite Hc. reflexivity.
  - destruct (is_token_char x); [apply IH|].
    rewrite IH, app_assoc. reflexivity.
Qed.

Lemma findall_tokens_run t cur :
  all_chars is_token_char t = true ->
  findall_tokens t cur = flush (cur +:+ t).
Proof.
  revert cur. induction t as [|x t IH]; intros cur Ht.
  - rewrite append_nil_r. reflexivity.
  - cbn [all_chars] in Ht. apply andb_true_iff in Ht as [Hx Ht].
    cbn [findall_tokens]. rewrite Hx, IH by exact Ht.
    rewrite append_assoc. reflexivity.
Qed.

Lemma findall_tokens_runs text cur :
  all_chars is_token_char cur = true ->
  Forall (fun t => Py.truthy t && all_chars is_token_char t = true)
         (findall_tokens text cur).
Proof.
  revert cur. induction text as [|x text IH]; intros cur Hcur; simpl.
  - destruct (Py.truthy cur) eqn:Ht; constructor; [|constructor].
    rewrite Ht, Hcur. reflexivity.
  - destruct (is_token_char x) eqn:Hx.
    + apply IH. rewrite all_chars_app, Hcur. simpl. rewrite Hx. reflexivity.
    + apply Forall_app. split; [|apply IH; reflexivity].
      destruct (Py.truthy cur) eqn:Ht; constructor; [|constructor].
      rewrite Ht, Hcur. reflexivity.
Qed.

Lemma lower_char_token c :
  is_token_char c = true -> is_lower_token_char (lower_char c) = true.
Proof.
  destruct c as [[] [] [] [] [] [] [] []]; intros H;
    try discriminate H; reflexivity.
Qed.

Lemma lower_char_fixed c : is_lower_token_char c = true -> lower_char c = c.
Proof.
  destruct c as [[] [] [] [] [] [] [] []]; intros H;
    try discriminate H; reflexivity.
Qed.

Lemma lower_token_is_token c :
  is_lower_token_char c = true -> is_token_char c = true.
Proof.
  destruct c as [[] [] [] [] [] [] [] []]; intros H;
    try discriminate H; reflexivity.
Qed.

Lemma space_not_token c : Py.is_space c = true -> is_token_char c = false.
Proof.
  destruct c as [[] [] [] [] [] [] [] []]; intros H;
    try discriminate H; reflexivity.
Qed.

Lemma lower_clean t :
  Py.truthy t && all_chars is_token_char t = true -> clean_token (lower t) = true.
Proof.
  unfold clean_token. intros H. apply andb_true_iff in H as [Ht Hc].
  apply andb_true_iff. split; [destruct t; [discriminate|reflexivity]|].
  induction t as [|x t IH]; simpl in *; [reflexivity|].
  apply andb_true_iff in Hc as [Hx Hc]. rewrite (lower_char_token x Hx). simpl.
  destruct t; [reflexivity|]. apply IH; [reflexivity|exact Hc].
Qed.

Lemma lower_fixed t : all_chars is_lower_token_char t = true -> lower t = t.
Proof.
  induction t as [|x t IH]; simpl; [reflexivity|]. intros H.
  apply andb_true_iff in H as [Hx Ht].
  rewrite (lower_char_fixed x Hx), IH by exact Ht. reflexivity.
Qed.

Lemma all_chars_impl (p q : ascii -> bool) t :
  (forall c, p c = true -> q c = true) ->
  all_chars p t = true -> all_chars q t = true.
Proof.
  intros Hpq. induction t as [|x t IH]; simpl; [reflexivity|]. intros H.
  apply andb_true_iff in H as [Hx Ht]. rewrite (Hpq x Hx), IH by exact Ht.
  reflexivity.
Qed.

(** A stored token is its own tokenization. *)
Lemma tokenize_clean_token t : clean_token t = true -> _tokenize t = [t].
Proof.
  unfold clean_token, _tokenize. intros H. apply andb_true_iff in H as [Ht Hc].
  rewrite findall_tokens_run
    by (eapply all_chars_impl; [apply lower_token_is_token|exact Hc]).
  unfold flush. destruct t as [|x t]; [discriminate|].
  change ([lower (String x t)] = [String x t]).
  rewrite lower_fixed by exact Hc. reflexivity.
Qed.

Lemma tokenize_sep a c b :
  is_token_char c = false -> _tokenize (a +:+ String c b) = _tokenize a ++ _tokenize b.
Proof.
  intros Hc. unfold _tokenize. rewrite findall_tokens_sep by exact Hc.
  apply map_app.
Qed.

Lemma tokenize_nil : _tokenize EmptyString = [].
Proof. reflexivity. Qed.

(** Tokens never span a separator that holds a character outside the
    token alphabet. *)
Lemma tokenize_join c (xs : list string) :
  is_token_char c = false ->
  _tokenize (Py.join (String c EmptyString) xs) = flat_map _tokenize xs.
Proof.
  intros Hc. induction xs as [|x xs IH]; [reflexivity|].
  destruct xs as [|y xs].
  - simpl. rewrite app_nil_r. reflexivity.
  - change (Py.join (String c EmptyString) (x :: y :: xs))
      with (x +:+ String c (Py.join (String c EmptyString) (y :: xs))).
    rewrite tokenize_sep by exact Hc. rewrite IH. reflexivity.
Qed.

Lemma findall_tokens_lstrip s :
  findall_tokens (Py.lstrip s) EmptyString = findall_tokens s EmptyString.
Proof.
  induction s as [|c s IH]; [reflexivity|]. simpl.
  destruct (Py.is_space c) eqn:Hc; [|reflexivity].
  rewrite (space_not_token c Hc). simpl. exact IH.
Qed.

Lemma findall_tokens_rstrip s cur :
  findall_tokens (Py.rstrip s) cur = findall_tokens s cur.
Proof.
  revert cur. induction s as [|c s IH]; intros cur; [reflexivity|].
  cbn [Py.rstrip]. destruct (Py.rstrip s) as [|r0 r] eqn:Hr.
  - destruct (Py.is_space c) eqn:Hc.
    + cbn [findall_tokens]. rewrite (space_not_token c Hc), <- IH.
      simpl. rewrite app_nil_r. reflexivity.
    + cbn [findall_tokens]. destruct (is_token_char c).
      * rewrite <- IH. reflexivity.
      * rewrite <- IH. reflexivity.
  - cbn [findall_tokens]. destruct (is_token_char c).
    + rewrite <- IH. reflexivity.
    + rewrite <- IH. reflexivity.
Qed.

(** Trimming white space changes no token. *)
Lemma tokenize_strip s : _tokenize (Py.strip s) = _tokenize s.
Proof.
  unfold _tokenize, Py.strip.
  rewrite findall_tokens_rstrip, findall_tokens_lstrip. reflexivity.
Qed.

End TokenFacts.

(** Every token is a non-empty word of lower-case letters, digits and
    underscores, whatever the text. *)
Theorem tokenize_clean (text : string) :
  Forall (fun t => clean_token t = true) (_tokenize text).
Proof.
  unfold _tokenize. apply Forall_map.
  eapply Forall_impl; [apply TokenFacts.findall_tokens_runs; reflexivity|].
  intros t Ht. apply TokenFacts.lower_clean, Ht.
Qed.

(** Joining the tokens with spaces and tokenizing again gives the same
    tokens: the string handed to the fuzzy matcher loses none. *)
Theorem tokenize_join_round_trip (text : string) :
  _tokenize (Py.join space (_tokenize text)) = _tokenize text.
Proof.
  unfold space. rewrite TokenFacts.tokenize_join by reflexivity.
  assert (H : Forall (fun t => clean_token t = true) (_tokenize text)).
  { unfold _tokenize. apply Forall_map.
    eapply Forall_impl; [apply TokenFacts.findall_tokens_runs; reflexivity|].
    intros t Ht. apply TokenFacts.lower_clean, Ht. }
  induction H as [|t ts Ht _ IH]; [reflexivity|].
  simpl. rewrite (TokenFacts.tokenize_clean_token t Ht), IH. reflexivity.
Qed.

(** The token list BM25 holds for a chunk is the tokens of the lines the
    chunk cites, line after line: trimming and joining add and lose
    none. *)
Theorem bm25_corpus_is_line_tokens {env : Env}
    (docs : list (string * list string)) (ix : KBIndex)
    (corpus : list (list string)) :
  KBIndex_init docs = Some ix ->
  _bm25 ix = Some corpus ->
  Forall2 (fun c toks =>
             exists lines,
               (doc_id c, lines) ∈ docs
               /\ toks = flat_map _tokenize
                           (lines_between lines (start_line c) (end_line c)))
          (chunks ix) corpus.
Proof.
  intros Hix Hbm. apply init_Some in Hix as ->.
  assert (Hchunks : forall c, c ∈ chunks (KBIndex_object docs) -> chunk_of_docs docs c)
    by (intros c; apply init_chunk_of_docs).
  revert Hbm Hchunks. cbn [KBIndex_object _bm25 chunks].
  set (cs := build_chunks docs).
  destruct (BM25Okapi && negb _ && bm25_enabled) eqn:Huse; [|discriminate].
  intros [= <-] Hchunks.
  assert (Htexts : Faiss.or_placeholder (map text cs) = map text cs).
  { apply andb_true_iff in Huse as [Huse _].
    apply andb_true_iff in Huse as [_ Hne].
    destruct (map text cs) eqn:Hm; [|reflexivity].
    cbn [Faiss.or_placeholder] in Hne. rewrite bool_decide_eq_true_2 in Hne
      by reflexivity. discriminate. }
  rewrite Htexts. clear Htexts Huse.
  induction cs as [|c cs IH]; [constructor|]. cbn [map]. constructor.
  - destruct (Hchunks c) as (lines & Hin & _ & _ & Htxt & _); [left|].
    exists lines. split; [exact Hin|]. rewrite Htxt.
    rewrite TokenFacts.tokenize_strip. apply TokenFacts.tokenize_join. reflexivity.
  - apply IH. intros c' Hc'. apply Hchunks. right. exact Hc'.
Qed.

(** ** The loader *)

Module LoaderFacts.

Lemma rstrip_idem s : Py.rstrip (Py.rstrip s) = Py.rstrip s.
Proof.
  induction s as [|c s IH]; [reflexivity|].
  cbn [Py.rstrip]. destruct (Py.rstrip s) as [|r0 r] eqn:Hr.
  - destruct (Py.is_space c) eqn:Hc; [reflexivity|].
    cbn [Py.rstrip]. rewrite Hc. reflexivity.
  - cbn [Py.rstrip] in *. rewrite IH. reflexivity.
Qed.

Lemma rstrip_head c t :
  Py.is_space c = false -> exists t', Py.rstrip (String c t) = String c t'.
Proof.
  intros Hc. cbn [Py.rstrip]. destruct (Py.rstrip t) as [|r0 r].
  - rewrite Hc. eexists. reflexivity.
  - eexists. reflexivity.
Qed.

(** Trimming twice is trimming once. *)
Lemma strip_idem s : Py.strip (Py.strip s) = Py.strip s.
Proof.
  unfold Py.strip.
  destruct (PyFacts.lstrip_shape s) as [[_ Hl]|[_ (c & t & Hl & Hc)]]; rewrite Hl.
  - reflexivity.
  - destruct (rstrip_head c t Hc) as [t' Ht']. rewrite Ht'.
    cbn [Py.lstrip]. rewrite Hc, <- Ht'. apply rstrip_idem.
Qed.

Lemma len_pos s : s <> EmptyString -> 1 <= Py.len s.
Proof. destruct s; [congruence|]. unfold Py.len. simpl. lia. Qed.

(** The threshold on the share of letters, without the quotient. *)
Lemma letters_share letters m :
  1 <= m ->
  Qlt_bool (inject_Z letters / inject_Z m) (25 # 100) = false
  <-> m <= 4 * letters.
Proof.
  intros Hm. unfold Qlt_bool. rewrite negb_false_iff, Qle_bool_iff.
  destruct m as [|p|p]; try lia.
  unfold Qle, Qdiv, Qmult, Qinv, inject_Z. simpl. lia.
Qed.

Lemma noise_line_iff ln : _is_noise_line ln = false <-> clean_line ln.
Proof.
  unfold _is_noise_line, clean_line. cbv zeta.
  destruct (Py.strip ln) as [|c s] eqn:Hs.
  - simpl. split; [discriminate|]. intros [H _]. congruence.
  - cbn [Py.truthy negb].
    destruct (Py.startswith _ "http://"); cbn [orb];
      [split; [discriminate|intros (_ & H & _); discriminate]|].
    destruct (Py.startswith _ "https://"); cbn [orb];
      [split; [discriminate|intros (_ & _ & H & _); discriminate]|].
    destruct (Py.startswith _ "www."); cbn [orb];
      [split; [discriminate|intros (_ & _ & _ & H & _); discriminate]|].
    destruct (Py.contains _ _);
      [split; [discriminate|intros (_ & _ & _ & _ & H & _); discriminate]|].
    assert (Hlen : 1 <= Py.len (String c s)) by (apply len_pos; discriminate).
    rewrite Z.max_r by exact Hlen. rewrite letters_share by exact Hlen.
    split; [intros H; repeat split; try discriminate; exact H|].
    intros (_ & _ & _ & _ & _ & H). exact H.
Qed.

Lemma clean_not_blank ln : clean_line ln -> not_blank ln.
Proof. intros [H _]. exact H. Qed.

Lemma keep_line_clean ln : keep_line ln = true -> clean_line ln.
Proof.
  unfold keep_line. intros H. apply andb_true_iff in H as [_ H].
  apply negb_true_iff in H. apply noise_line_iff, H.
Qed.

Section Disk.

Context {files : Files}.

Lemma page_lines_clean txt :
  Forall (fun ln => clean_line ln /\ Py.strip ln = ln) (page_lines txt).
Proof.
  unfold page_lines. apply Forall_forall. intros ln Hin.
  apply list_elem_of_In, filter_In in Hin as [Hin Hk].
  split; [apply keep_line_clean, Hk|].
  apply in_map_iff in Hin as (x & <- & _). apply strip_idem.
Qed.

Lemma read_doc_lines_shape path :
  Forall (fun ln =>
            clean_line ln
            /\ (is_text_ext (Py.lower (Py.splitext path)) = true
                \/ Py.strip ln = ln))
         (read_doc_lines path).
Proof.
  unfold read_doc_lines. cbv zeta.
  destruct (is_text_ext _) eqn:Hext.
  - destruct (read_text path) as [content|]; [|constructor].
    apply Forall_forall. intros ln Hin.
    apply list_elem_of_In, filter_In in Hin as [_ Hk].
    apply negb_true_iff in Hk. split; [apply noise_line_iff, Hk|left; reflexivity].
  - destruct (String.eqb _ ".pdf" && PyPDF2).
    + destruct (pdf_pages path) as [pages|]; [|constructor].
      apply Forall_forall. intros ln Hin.
      apply list_elem_of_In, in_flat_map in Hin as (pg & _ & Hin).
      pose proof (page_lines_clean (Py.or_empty pg)) as Hall.
      rewrite Forall_forall in Hall.
      destruct (Hall ln) as [Hc Hs]; [apply list_elem_of_In, Hin|].
      split; [exact Hc|right; exact Hs].
    + destruct (String.eqb _ ".docx" && docx); [|constructor].
      destruct (docx_paragraphs path) as [paragraphs|]; [|constructor].
      apply Forall_forall. intros ln Hin.
      apply list_elem_of_In, filter_In in Hin as [Hin Hk].
      split; [apply keep_line_clean, Hk|right].
      apply in_map_iff in Hin as (x & <- & _). apply strip_idem.
Qed.

Lemma iter_docs_elem kb_dir fn lines :
  (fn, lines) ∈ iter_docs kb_dir ->
  isdir kb_dir = true /\ fn ∈ listdir kb_dir /\ supported fn = true
  /\ lines = read_doc_lines (Py.path_join kb_dir fn) /\ lines <> [].
Proof.
  unfold iter_docs. destruct (isdir kb_dir); cbn [negb]; [|intros H; inversion H].
  intros H. apply list_elem_of_In, in_flat_map in H as (fn' & Hfn & H).
  destruct (supported fn') eqn:Hsup; cbn [negb] in H; [|destruct H].
  destruct (read_doc_lines _) as [|l ls] eqn:Hl; [destruct H|].
  destruct H as [[= <- <-]|[]].
  split; [reflexivity|]. split; [apply list_elem_of_In, Hfn|].
  split; [exact Hsup|]. split; [symmetry; exact Hl|discriminate].
Qed.

Lemma iter_docs_clean kb_dir fn lines :
  (fn, lines) ∈ iter_docs kb_dir -> Forall clean_line lines.
Proof.
  intros H. apply iter_docs_elem in H as (_ & _ & _ & -> & _).
  eapply Forall_impl; [apply read_doc_lines_shape|]. intros ln [H _]. exact H.
Qed.

(** The names [iter_docs] yields are names of the listing, in its order. *)
Lemma iter_docs_names kb_dir :
  map fst (iter_docs kb_dir) `sublist_of` listdir kb_dir.
Proof.
  unfold iter_docs. destruct (isdir kb_dir); cbn [negb]; [|apply sublist_nil_l].
  induction (listdir kb_dir) as [|fn fns IH]; [constructor|].
  cbn [flat_map]. rewrite map_app.
  destruct (supported fn); cbn [negb]; [|apply sublist_cons, IH].
  destruct (read_doc_lines _); [apply sublist_cons, IH|].
  cbn [map app fst]. apply sublist_skip, IH.
Qed.

Lemma iter_docs_NoDup kb_dir :
  NoDup (listdir kb_dir) -> NoDup (map fst (iter_docs kb_dir)).
Proof. intros H. eapply sublist_NoDup; [exact H|apply iter_docs_names]. Qed.

End Disk.

End LoaderFacts.

(** What the loader yields: names of the listing with a supported
    extension, each with at least one line; every line is clean, and a
    line of a PDF or DOCX file has no white space at its ends; names that
    are distinct in the listing stay distinct. *)
Theorem loader_yields_clean_documents {files : Files} (kb_dir : string) :
  Forall (fun d : string * list string =>
            In (fst d) (listdir kb_dir) /\ supported (fst d) = true
            /\ snd d <> []
            /\ Forall (fun ln =>
                         clean_line ln
                         /\ (is_text_ext (Py.lower (Py.splitext
                                            (Py.path_join kb_dir (fst d)))) = true
                             \/ Py.strip ln = ln))
                      (snd d))
         (iter_docs kb_dir)
  /\ (NoDup (listdir kb_dir) -> NoDup (map fst (iter_docs kb_dir))).
Proof.
  split; [|apply LoaderFacts.iter_docs_NoDup].
  apply Forall_forall. intros [fn lines] Hin.
  apply LoaderFacts.iter_docs_elem in Hin as (_ & Hfn & Hsup & -> & Hne).
  cbn [fst snd]. split; [apply list_elem_of_In, Hfn|]. split; [exact Hsup|].
  split; [exact Hne|]. apply LoaderFacts.read_doc_lines_shape.
Qed.

(** ** Where the chunks of a document lie *)

Section LayoutFacts.

Variable lines : list string.
Variables window stride : Z.

#[local] Abbreviation n := (n_lines lines).
#[local] Abbreviation step := (Z.max 1 stride).
#[local] Abbreviation loop := (chunk_loop lines window stride).

#[local] Abbreviation window_range := (window_range lines window stride).
#[local] Abbreviation windows_left := (windows_left lines stride).

Lemma windows_left_done i : n <= i -> windows_left i = O.
Proof.
  intros H. unfold windows_left.
  assert ((n - i + step - 1) / step < 1)
    by (apply Z.div_lt_upper_bound; lia).
  lia.
Qed.

Lemma windows_left_step i : i < n -> windows_left i = S (windows_left (i + step)).
Proof.
  intros H. unfold windows_left.
  replace (n - i + step - 1) with ((n - (i + step) + step - 1) + 1 * step) by lia.
  rewrite Z.div_add by lia.
  assert (0 <= (n - (i + step) + step - 1) / step)
    by (apply Z.div_pos; lia).
  lia.
Qed.

Lemma window_not_blank i :
  1 <= window -> Forall not_blank lines -> 0 <= i < n ->
  Py.truthy (Py.strip (Py.join Py.nl
               (Py.slice lines i (Z.min (n - 1) (i + window - 1) + 1)))) = true.
Proof.
  intros Hw Hnb Hi.
  set (e := Z.min (n - 1) (i + window - 1)).
  assert (He : i <= e < n) by (unfold e; lia).
  destruct (PyFacts.slice_inside_head lines i (e + 1))
    as (x & rest & Hsl & Hx); [lia|lia|unfold n_lines in He; lia|].
  rewrite Hsl, PyFacts.truthy_strip.
  assert (Hxb : all_space x = false).
  { apply list_elem_of_lookup_2 in Hx.
    rewrite Forall_forall in Hnb. specialize (Hnb x Hx).
    unfold not_blank in Hnb. rewrite PyFacts.strip_empty_iff in Hnb.
    destruct (all_space x); congruence. }
  rewrite PyFacts.join_head_not_blank by exact Hxb. reflexivity.
Qed.

Lemma chunk_loop_layout :
  1 <= window -> Forall not_blank lines ->
  forall fuel i out p res k,
    0 <= i -> loop fuel i out p = Some (res, k) ->
    map fst res = map fst out ++ map (window_range i) (seq 0 (windows_left i)).
Proof.
  intros Hw Hnb. induction fuel as [|fuel IH]; intros i out p res k Hi Hrun.
  - simpl in Hrun. destruct (Z.ltb_spec i n); [discriminate|].
    injection Hrun as <- <-. rewrite windows_left_done by lia.
    simpl. rewrite app_nil_r. reflexivity.
  - destruct (Z.lt_ge_cases i n) as [Hlt|Hge].
    2:{ rewrite chunk_loop_exit in Hrun by lia. injection Hrun as <- <-.
        rewrite windows_left_done by lia. simpl. rewrite app_nil_r. reflexivity. }
    rewrite chunk_loop_step in Hrun by exact Hlt.
    apply IH in Hrun; [|rewrite chunk_body_index; lia].
    rewrite chunk_body_index in Hrun. unfold chunk_body in Hrun. cbn [snd] in Hrun.
    rewrite window_not_blank in Hrun by (assumption || lia).
    rewrite Hrun, map_app, <- app_assoc. f_equal.
    rewrite (windows_left_step i Hlt). cbn [seq map app fst].
    f_equal.
    + unfold window_range. f_equal; lia.
    + rewrite <- seq_shift, map_map. apply map_ext. intros j.
      unfold window_range. f_equal; lia.
Qed.

End LayoutFacts.


(** When no line is blank the chunks start every [max(1, stride)] lines
    from line 0 and each runs to the end of its window or of the document:
    there are as many as the stride goes into the line count, rounded
    up. *)
Theorem make_chunks_layout (lines : list string) (window stride : Z) :
  1 <= window -> Forall not_blank lines ->
  map fst (make_chunks lines window stride)
  = map (fun k => (Z.of_nat k * Z.max 1 stride,
                   Z.min (n_lines lines - 1)
                         (Z.of_nat k * Z.max 1 stride + window - 1)))
        (seq 0 (Z.to_nat ((n_lines lines + Z.max 1 stride - 1) / Z.max 1 stride))).
Proof.
  intros Hw Hnb.
  destruct (make_chunks_run_some lines window stride) as (k & Hrun & _).
  apply (chunk_loop_layout lines window stride Hw Hnb) in Hrun; [|lia].
  rewrite Hrun. cbn [map app]. unfold windows_left.
  replace (n_lines lines - 0 + Z.max 1 stride - 1)
    with (n_lines lines + Z.max 1 stride - 1) by lia.
  apply map_ext. intros j. unfold window_range. f_equal; lia.
Qed.

(** ** The index of a directory *)

Section DirectoryFacts.

Context {env : Env} {files : Files}.

Lemma doc_chunks_ranges id lines :
  Forall not_blank lines ->
  map (fun c => (doc_id c, start_line c, end_line c)) (doc_chunks (id, lines))
  = map (fun k => (id, 3 * Z.of_nat k,
                   Z.min (n_lines lines - 1) (3 * Z.of_nat k + 3)))
        (seq 0 (Z.to_nat ((n_lines lines + 2) / 3))).
Proof.
  intros Hnb. unfold doc_chunks. rewrite map_map.
  transitivity (map (fun r : Z * Z => (id, fst r, snd r))
                    (map fst (make_chunks lines 4 3))).
  { rewrite map_map. apply map_ext. intros [[s e] txt]. reflexivity. }
  destruct (make_chunks_run_some lines 4 3) as (p & Hrun & _).
  apply (chunk_loop_layout lines 4 3) in Hrun; [|lia|exact Hnb|lia].
  rewrite Hrun. cbn [map app]. rewrite map_map. unfold windows_left.
  change (Z.max 1 3) with 3.
  replace (n_lines lines - 0 + 3 - 1) with (n_lines lines + 2) by lia.
  apply map_ext. intros k. unfold window_range. cbn [fst snd].
  change (Z.max 1 3) with 3.
  replace (0 + Z.of_nat k * 3) with (3 * Z.of_nat k) by lia.
  replace (3 * Z.of_nat k + 4 - 1) with (3 * Z.of_nat k + 3) by lia.
  reflexivity.
Qed.

Lemma iter_docs_not_blank kb_dir :
  Forall (fun d : string * list string => Forall not_blank (snd d))
         (iter_docs kb_dir).
Proof.
  apply Forall_forall. intros [fn lines] Hin. cbn [snd].
  eapply Forall_impl; [exact (LoaderFacts.iter_docs_clean kb_dir fn lines Hin)|].
  apply LoaderFacts.clean_not_blank.
Qed.

(** The citations an index of a directory can give: the chunks that
    [KBIndex.__init__] makes of the directory, which are the chunks of
    every index built from it, have for every file the loader yields,
    with [n] lines kept, the ranges [3k .. min(n-1, 3k+3)] for [k] below
    [n/3] rounded up, file after file. *)
Theorem directory_chunk_ranges (kb_dir : string) :
  map (fun c => (doc_id c, start_line c, end_line c))
      (build_chunks (iter_docs kb_dir))
  = flat_map (fun d : string * list string =>
                map (fun k => (fst d, 3 * Z.of_nat k,
                               Z.min (n_lines (snd d) - 1) (3 * Z.of_nat k + 3)))
                    (seq 0 (Z.to_nat ((n_lines (snd d) + 2) / 3))))
             (iter_docs kb_dir)
  /\ forall ix, KBIndex_init (iter_docs kb_dir) = Some ix ->
                chunks ix = build_chunks (iter_docs kb_dir).
Proof.
  split; [|intros ix Hix; apply init_Some in Hix as ->; reflexivity].
  unfold build_chunks.
  pose proof (iter_docs_not_blank kb_dir) as Hnb.
  induction Hnb as [|[fn lines] docs Hd _ IH]; [reflexivity|].
  cbn [flat_map]. rewrite map_app, IH. f_equal.
  apply doc_chunks_ranges, Hd.
Qed.

(** No line the loader kept is lost: every line of every loaded file lies
    in the range of a chunk that [KBIndex.__init__] makes of that file. *)
Theorem directory_lines_covered (kb_dir fn : string) (lines : list string)
    (j : Z) :
  (fn, lines) ∈ iter_docs kb_dir -> 0 <= j < n_lines lines ->
  exists c,
    c ∈ build_chunks (iter_docs kb_dir)
    /\ doc_id c = fn /\ start_line c <= j <= end_line c.
Proof.
  intros Hin Hj.
  assert (Hnb : Forall not_blank lines).
  { eapply Forall_impl; [exact (LoaderFacts.iter_docs_clean kb_dir fn lines Hin)|].
    apply LoaderFacts.clean_not_blank. }
  destruct (make_chunks_run_some lines 4 3) as (k & Hrun & _).
  assert (Hcov : covered (make_chunks lines 4 3) j = true).
  { eapply (chunk_loop_covers lines 4 3); [lia|lia|exact Hnb| | |exact Hrun|exact Hj];
      [lia|]. intros j' Hj'. lia. }
  unfold covered in Hcov. apply existsb_exists in Hcov as ([[s e] txt] & Hc & Hse).
  apply andb_true_iff in Hse as [Hs He].
  apply Z.leb_le in Hs. apply Z.leb_le in He.
  exists (mkChunk fn s e txt). split; [|split; [reflexivity|cbn; lia]].
  unfold build_chunks. apply list_elem_of_In, in_flat_map.
  exists (fn, lines). split; [apply list_elem_of_In, Hin|].
  unfold doc_chunks. apply in_map_iff. exists (s, e, txt). split; [reflexivity|exact Hc].
Qed.

Lemma basename_from_plain p cur :
  Py.contains p "/" = false -> Py.basename_from p cur = cur +:+ p.
Proof.
  revert cur. induction p as [|c p IH]; intros cur H.
  - cbn [Py.basename_from]. rewrite TokenFacts.append_nil_r. reflexivity.
  - cbn [Py.contains Py.startswith] in H.
    apply orb_false_iff in H as [Hc Hp].
    replace (Py.startswith p EmptyString) with true in Hc by (destruct p; reflexivity).
    rewrite andb_true_r in Hc.
    cbn [Py.basename_from].
    replace (Ascii.eqb c Py.slash) with false
      by (symmetry; rewrite Ascii.eqb_sym; exact Hc).
    rewrite IH by exact Hp. apply TokenFacts.append_assoc.
Qed.

Lemma basename_plain p : Py.contains p "/" = false -> Py.basename p = p.
Proof. intros H. unfold Py.basename. rewrite basename_from_plain by exact H. reflexivity. Qed.

Lemma filter_all {A} (f : A -> bool) (l : list A) :
  Forall (fun x => f x = true) l -> List.filter f l = l.
Proof.
  induction 1 as [|x l Hx _ IH]; [reflexivity|].
  cbn [List.filter]. rewrite Hx, IH. reflexivity.
Qed.

(** What [/kb/raw] returns for the range of a chunk that
    [KBIndex.__init__] makes of the directory is, white space at both
    ends aside, the text of the chunk: for a PDF or DOCX file always, for
    a text file when the loader dropped none of its lines. *)
Theorem kb_raw_returns_chunk (kb_dir : string) (c : Chunk) :
  c ∈ build_chunks (iter_docs kb_dir) ->
  Py.contains (doc_id c) "/" = false ->
  isfile (Py.path_join kb_dir (doc_id c)) = true ->
  (forall content,
     is_text_ext (Py.lower (Py.splitext (Py.path_join kb_dir (doc_id c)))) = true ->
     read_text (Py.path_join kb_dir (doc_id c)) = Some content ->
     Forall (fun ln => _is_noise_line ln = false) (Py.splitlines content)) ->
  exists body,
    kb_raw kb_dir (doc_id c) (start_line c) (end_line c) = PlainTextResponse body
    /\ Py.strip body = text c.
Proof.
  intros Hc Hplain Hfile Hclean.
  unfold build_chunks in Hc.
  apply list_elem_of_In, in_flat_map in Hc as ([fn lines] & Hd & Hc).
  apply list_elem_of_In, LoaderFacts.iter_docs_elem in Hd as (_ & _ & _ & Hlines & _).
  unfold doc_chunks in Hc. apply in_map_iff in Hc as ([[s e] txt] & <- & Hin).
  apply list_elem_of_In, make_chunks_elem in Hin as (Hs & He & Htxt & Hne).
  cbn [doc_id start_line end_line text] in *.
  unfold kb_raw. rewrite (basename_plain fn Hplain), Hfile. cbn [negb].
  set (path := Py.path_join kb_dir fn) in *.
  assert (Hl : (if is_text_ext (Py.lower (Py.splitext path))
                then Py.splitlines <$> read_text path
                else Some (read_doc_lines path)) = Some lines).
  { destruct (is_text_ext _) eqn:Hext; [|rewrite Hlines; reflexivity].
    rewrite Hlines. unfold read_doc_lines. cbv zeta. rewrite Hext.
    destruct (read_text path) as [content|] eqn:Hread.
    - cbn. f_equal. symmetry. apply filter_all.
      eapply Forall_impl; [exact (Hclean content eq_refl eq_refl)|].
      intros ln Hn. rewrite Hn. reflexivity.
    - exfalso. unfold n_lines in Hs. rewrite Hlines in Hs.
      unfold read_doc_lines in Hs. cbv zeta in Hs. rewrite Hext, Hread in Hs.
      simpl in Hs. lia. }
  rewrite Hl.
  replace (Z.max 0 s) with s by lia.
  replace (Z.max s e) with e by lia.
  destruct (Py.join Py.nl (Py.slice lines s (e + 1))) as [|x xs] eqn:Hj.
  - exfalso. apply Hne. rewrite Htxt. reflexivity.
  - eexists. split; [reflexivity|]. symmetry. exact Htxt.
Qed.

(** The chunks of a directory: for every file the loader yields, a third
    of its kept lines, rounded up. *)
Lemma build_chunks_count kb_dir :
  length (build_chunks (iter_docs kb_dir))
  = sum_list_with (fun d : string * list string =>
                     Z.to_nat ((n_lines (snd d) + 2) / 3))
                  (iter_docs kb_dir).
Proof.
  unfold build_chunks.
  pose proof (iter_docs_not_blank kb_dir) as Hnb.
  induction Hnb as [|[fn lines] docs Hd _ IH]; [reflexivity|].
  cbn [flat_map sum_list_with snd]. rewrite length_app, IH. f_equal.
  rewrite <- (length_map (fun c => (doc_id c, start_line c, end_line c))).
  rewrite (doc_chunks_ranges fn lines Hd), length_map, length_seq. reflexivity.
Qed.

(** Whatever index was there before, [/kb/reindex] drops it and builds
    the index of the directory as it is now.  When the build returns,
    the endpoint leaves that index in place and reports its size: for
    every file the loader yields, a third of its kept lines, rounded up.
    When the build raises, so does the endpoint, and no index is left. *)
Theorem kb_reindex_counts (kb_dir : string) (_index : option KBIndex)
    (t0 t1 : Q) :
  match KBIndex_init (iter_docs kb_dir) with
  | Some ix =>
      kb_reindex kb_dir _index t0 t1
      = (Some (true,
               Z.of_nat (sum_list_with
                           (fun d : string * list string =>
                              Z.to_nat ((n_lines (snd d) + 2) / 3))
                           (iter_docs kb_dir)),
               Py.int ((t1 - t0) * 1000)),
         Some ix)
  | None => kb_reindex kb_dir _index t0 t1 = (None, None)
  end.
Proof.
  unfold kb_reindex, rebuild_index, get_index.
  destruct (KBIndex_init (iter_docs kb_dir)) as [ix|] eqn:Hix; [|reflexivity].
  rewrite (init_chunks _ _ Hix), build_chunks_count. reflexivity.
Qed.

End DirectoryFacts.

(** ** The guardrail *)

Module GuardFacts.

Lemma after_word_app w : forall s rest b,
  after_word w s = Some rest -> after_word w (s +:+ b) = Some (rest +:+ b).
Proof.
  induction w as [|a w IH]; intros s rest b H.
  - injection H as <-. reflexivity.
  - destruct s as [|c s]; [discriminate|]. cbn [after_word] in H.
    change (String c s +:+ b) with (String c (s +:+ b)). cbn [after_word].
    destruct (Ascii.eqb a (Py.lower_char c)); [|discriminate].
    apply IH, H.
Qed.

Lemma lstrip_app s b :
  Py.lstrip (s +:+ b)
  = match Py.lstrip s with
    | EmptyString => Py.lstrip b
    | r => r +:+ b
    end.
Proof.
  induction s as [|c s IH]; [reflexivity|].
  change (String c s +:+ b) with (String c (s +:+ b)). cbn [Py.lstrip].
  destruct (Py.is_space c); [exact IH|reflexivity].
Qed.

(** An alternative that matches the empty text matches every text. *)
Lemma match_here_empty p : forall x,
  match_here p EmptyString = true -> match_here p x = true.
Proof.
  induction p as [|[w| |] p IH]; intros x H; [reflexivity| |discriminate|].
  - destruct w; [|discriminate]. cbn [match_here after_word] in *. apply IH, H.
  - cbn [match_here Py.lstrip] in *. apply IH, H.
Qed.

Lemma match_here_app p : forall s b,
  match_here p s = true -> match_here p (s +:+ b) = true.
Proof.
  induction p as [|[w| |] p IH]; intros s b H; [reflexivity| | |].
  - cbn [match_here] in *.
    destruct (after_word w s) as [rest|] eqn:Hw; [|discriminate].
    rewrite (after_word_app w s rest b Hw). apply IH, H.
  - destruct s as [|c s]; [discriminate|].
    change (String c s +:+ b) with (String c (s +:+ b)). cbn [match_here] in *.
    apply andb_true_iff in H as [Hc H]. rewrite Hc. cbn [andb].
    rewrite lstrip_app. destruct (Py.lstrip s) as [|r0 r] eqn:Hl.
    + apply match_here_empty, H.
    + apply IH, H.
  - cbn [match_here] in *. rewrite lstrip_app.
    destruct (Py.lstrip s) as [|r0 r] eqn:Hl.
    + apply match_here_empty, H.
    + apply IH, H.
Qed.

Lemma search_app_r p s b : search p s = true -> search p (s +:+ b) = true.
Proof.
  induction s as [|c s IH]; intros H.
  - cbn [search] in H. rewrite orb_false_r in H.
    apply (match_here_app p EmptyString b) in H.
    change (match_here p b = true) in H.
    change (search p b = true).
    destruct b; cbn [search]; rewrite H; reflexivity.
  - change (String c s +:+ b) with (String c (s +:+ b)). cbn [search] in *.
    apply orb_true_iff in H as [H|H]; apply orb_true_iff.
    + left. exact (match_here_app p (String c s) b H).
    + right. apply IH, H.
Qed.

Lemma search_app_l p a s : search p s = true -> search p (a +:+ s) = true.
Proof.
  intros H. induction a as [|c a IH]; [exact H|].
  change (String c a +:+ s) with (String c (a +:+ s)). cbn [search].
  rewrite IH. apply orb_true_r.
Qed.

Lemma detect_injection_search text :
  detect_injection text = true <-> exists p, In p _INJECTION /\ search p text = true.
Proof.
  unfold detect_injection. destruct text as [|c t].
  - cbn [Py.truthy negb]. split; [discriminate|].
    intros (p & Hp & Hs). exfalso. revert Hs. clear -Hp.
    repeat (destruct Hp as [<-|Hp]; [discriminate|]). destruct Hp.
  - cbn [Py.truthy negb]. apply existsb_exists.
Qed.

Lemma startswith_after_word w : forall s,
  Py.startswith (Py.lower s) w = true -> exists rest, after_word w s = Some rest.
Proof.
  induction w as [|a w IH]; intros s H; [eexists; reflexivity|].
  destruct s as [|c s]; [discriminate|]. cbn [Py.lower Py.startswith] in H.
  apply andb_true_iff in H as [Ha H]. cbn [after_word]. rewrite Ha.
  apply IH, H.
Qed.

Lemma contains_search w s :
  Py.contains (Py.lower s) w = true -> search [word w] s = true.
Proof.
  induction s as [|c s IH]; intros H.
  - cbn [Py.lower Py.contains] in H. rewrite orb_false_r in H.
    destruct (startswith_after_word w EmptyString H) as [rest Hr].
    cbn [search match_here]. rewrite Hr. reflexivity.
  - cbn [Py.lower Py.contains] in H. cbn [search].
    apply orb_true_iff in H as [H|H]; apply orb_true_iff.
    + left. destruct (startswith_after_word w (String c s) H) as [rest Hr].
      cbn [match_here]. rewrite Hr. reflexivity.
    + right. apply IH, H.
Qed.

(** The words that are alternatives of the pattern on their own. *)
Lemma trigger_word w t :
  In w ["jailbreak"; "pretend"; "override"]%string ->
  Py.contains (Py.lower t) w = true -> detect_injection t = true.
Proof.
  intros Hw Ht. apply detect_injection_search. exists [word w].
  split; [|apply contains_search, Ht].
  destruct Hw as [<-|[<-|[<-|[]]]]; unfold _INJECTION; simpl; tauto.
Qed.

End GuardFacts.

(** An instruction the detector flags stays flagged whatever text is put
    before and after it. *)
Theorem detect_injection_monotone (a t b : string) :
  detect_injection t = true -> detect_injection (a +:+ t +:+ b) = true.
Proof.
  intros H. apply GuardFacts.detect_injection_search in H as (p & Hp & Hs).
  apply GuardFacts.detect_injection_search. exists p. split; [exact Hp|].
  apply GuardFacts.search_app_l, GuardFacts.search_app_r, Hs.
Qed.

(** ** The orchestrator *)

Section OrchestratorFacts.

Context {env : Env}.

Variable scrub_pii : string -> string.
Variable compose_answer : string -> list Ask.Citation -> string.
Variable default_top_k : Z.

#[local] Abbreviation ask := (handle_ask scrub_pii compose_answer default_top_k).

#[local] Instance citation_of_inj : Inj eq eq citation_of.
Proof. intros [a b c d] [a' b' c' d'] [= -> -> -> ->]. reflexivity. Qed.

(** A question that holds one of the words jailbreak, pretend or override
    after scrubbing, in any letter case and also inside a longer word, is
    refused: no citation, and the index is neither built nor searched. *)
Theorem handle_ask_refuses_trigger (docs : list (string * list string))
    (_index : option KBIndex) (t0 t1 : Q) (req : Ask.Request) (w : string) :
  In w ["jailbreak"; "pretend"; "override"]%string ->
  Py.contains (Py.lower (scrub_pii (Ask.question req))) w = true ->
  exists latency,
    ask docs _index t0 t1 req
    = (Some (Ask.mkResponse refusal [] (Ask.mkMetrics latency 0 0) true), _index).
Proof.
  intros Hw Hq. pose proof (GuardFacts.trigger_word w _ Hw Hq) as Hinj.
  unfold handle_ask. rewrite Hinj. eexists. reflexivity.
Qed.

(** [handle_ask] raises exactly what [hybrid_search] raised, and only
    when the detector did not fire. *)
Lemma handle_ask_raises (docs : list (string * list string))
    (_index : option KBIndex) (t0 t1 : Q) (req : Ask.Request)
    (st : option KBIndex) :
  ask docs _index t0 t1 req = (None, st)
  <-> detect_injection (scrub_pii (Ask.question req)) = false
      /\ hybrid_search docs _index (scrub_pii (Ask.question req))
            (Z.max 1 (if Ask.top_k req =? 0 then default_top_k
                      else Ask.top_k req))
          = (None, st).
Proof.
  unfold handle_ask.
  set (q := scrub_pii (Ask.question req)).
  set (k := Z.max 1 (if Ask.top_k req =? 0 then default_top_k else Ask.top_k req)).
  destruct (detect_injection q).
  { cbn [orb]. split; [discriminate|]. intros [H _]. discriminate H. }
  destruct (hybrid_search docs _index q k) as [[[|c r]|] st'].
  - cbn [orb]. split; [discriminate|]. intros [_ H]. discriminate H.
  - cbn [orb]. split; [discriminate|]. intros [_ H]. discriminate H.
  - split; [intros [= <-]; split; reflexivity|].
    intros [_ [= <-]]. reflexivity.
Qed.

(** On a fresh process, or one whose index was built from the directory
    as it is, every response [handle_ask] returns leaves the index built
    (untouched when the detector fired) and has at most [max(1, k)]
    citations, [k] being the requested count or the default when that is
    0, no citation twice, every citation a chunk of a document with its
    text as the snippet; the response is marked insufficient exactly when
    it has no citation, and then carries the refusal and ratio 0, and
    otherwise the composed answer and ratio 1. *)
Theorem handle_ask_grounded (docs : list (string * list string))
    (_index : option KBIndex) (t0 t1 : Q) (req : Ask.Request)
    (resp : Ask.Response) (st : option KBIndex) :
  LibsOk -> NoDup (map fst docs) ->
  (forall ix, _index = Some ix -> KBIndex_init docs = Some ix) ->
  ask docs _index t0 t1 req = (Some resp, st) ->
  (if detect_injection (scrub_pii (Ask.question req)) then st = _index
   else exists ix, st = Some ix /\ KBIndex_init docs = Some ix)
  /\ Z.of_nat (length (Ask.citations resp))
     <= Z.max 1 (if Ask.top_k req =? 0 then default_top_k else Ask.top_k req)
  /\ NoDup (Ask.citations resp)
  /\ Forall (fun cit => exists c, chunk_of_docs docs c /\ cit = citation_of c)
            (Ask.citations resp)
  /\ (Ask.insufficient_context resp = true <-> Ask.citations resp = [])
  /\ (Ask.citations resp = [] ->
      Ask.answer resp = refusal
      /\ Ask.grounded_ratio (Ask.metrics resp) = 0%Q)
  /\ (Ask.citations resp <> [] ->
      Ask.answer resp
      = compose_answer (scrub_pii (Ask.question req)) (Ask.citations resp)
      /\ Ask.grounded_ratio (Ask.metrics resp) = 1%Q).
Proof.
  intros Hok Hdocs Hst. unfold handle_ask.
  set (q := scrub_pii (Ask.question req)).
  set (k := Z.max 1 (if Ask.top_k req =? 0 then default_top_k else Ask.top_k req)).
  destruct (detect_injection q).
  { cbn [orb]. intros [= <- <-]. cbn.
    split; [reflexivity|]. split; [lia|]. split; [constructor|].
    split; [constructor|]. split; [tauto|]. split; [tauto|].
    intros H. congruence. }
  destruct (hybrid_search docs _index q k) as [[r|] st'] eqn:Hrun;
    [|discriminate].
  destruct (hybrid_search_Some _ _ _ _ _ _ Hrun) as (ix & -> & Hfrom & Hr).
  assert (Hix : KBIndex_init docs = Some ix)
    by (destruct Hfrom as [H|[_ H]]; [apply Hst, H|exact H]).
  destruct (search_returned docs ix q k r Hok Hix Hr) as (Hlen & Hprov & Hnd).
  destruct r as [|c r].
  { cbn [orb]. intros [= <- <-]. cbn.
    split; [exists ix; split; [reflexivity|exact Hix]|].
    split; [lia|]. split; [constructor|].
    split; [constructor|]. split; [tauto|]. split; [tauto|].
    intros H. congruence. }
  cbn [orb]. intros [= <- <-].
  cbn [Ask.citations Ask.insufficient_context Ask.answer Ask.metrics
       Ask.grounded_ratio].
  split; [exists ix; split; [reflexivity|exact Hix]|].
  change (citation_of c :: map citation_of r) with (map citation_of (c :: r)).
  split; [rewrite length_map; lia|].
  split; [apply (NoDup_fmap_2 citation_of), Hnd, Hdocs|].
  split.
  { apply Forall_map. eapply Forall_impl; [exact Hprov|].
    intros c' Hc'. exists c'. split; [exact Hc'|reflexivity]. }
  split; [split; discriminate|].
  split; [discriminate|]. intros _. split; reflexivity.
Qed.

End OrchestratorFacts.

(** ** The properties on the stand-in disk *)

(** A text file with an empty line: the loader drops the line, the chunk
    cites lines 0 to 3 of what is left, and [/kb/raw] counts the lines of
    the file as it is. *)
Example kb_raw_counts_raw_lines :
  mkChunk "notes.md" 0 3
    ("one" +:+ Py.nl +:+ "two" +:+ Py.nl +:+ "three" +:+ Py.nl +:+ "four")
    ∈ build_chunks (iter_docs (files := ref_files) "kb")
  /\ kb_raw (files := ref_files) "kb" "notes.md" 0 3
     = PlainTextResponse
         ("one" +:+ Py.nl +:+ Py.nl +:+ "two" +:+ Py.nl +:+ "three").
Proof.
  split; [|vm_compute; reflexivity].
  apply list_elem_of_In. vm_compute. tauto.
Qed.

(** The stand-in directory has three files the loader yields, with 2, 5
    and 1 kept lines: four chunks. *)
Example kb_reindex_stand_in :
  kb_reindex (env := ref_env) (files := ref_files) "kb" None 10 (21 # 2)
  = (Some (true, 4, 500),
     Some (KBIndex_object (env := ref_env) (iter_docs (files := ref_files) "kb"))).
Proof. vm_compute. reflexivity. Qed.

Lemma bm25_corpus_is_line_tokens_witness :
  KBIndex_init (env := ref_env) Ref.docs = Some ref_index
  /\ _bm25 ref_index = Some ref_corpus
  /\ Forall2 (fun c toks =>
                exists lines,
                  (doc_id c, lines) ∈ Ref.docs
                  /\ toks = flat_map _tokenize
                              (lines_between lines (start_line c) (end_line c)))
             (chunks ref_index) ref_corpus.
Proof.
  split; [exact RefFacts.ref_index_built|]. split; [reflexivity|].
  exact (bm25_corpus_is_line_tokens (env := ref_env) Ref.docs ref_index
           ref_corpus RefFacts.ref_index_built eq_refl).
Defined.

Lemma make_chunks_layout_witness :
  1 <= 4
  /\ Forall not_blank ["a"; "b"; "c"; "d"; "e"]%string
  /\ map fst (make_chunks ["a"; "b"; "c"; "d"; "e"]%string 4 3)
     = map (fun k => (Z.of_nat k * Z.max 1 3,
                      Z.min (n_lines ["a"; "b"; "c"; "d"; "e"]%string - 1)
                            (Z.of_nat k * Z.max 1 3 + 4 - 1)))
           (seq 0 (Z.to_nat ((n_lines ["a"; "b"; "c"; "d"; "e"]%string
                              + Z.max 1 3 - 1) / Z.max 1 3))).
Proof.
  assert (Hnb : Forall not_blank ["a"; "b"; "c"; "d"; "e"]%string)
    by (repeat constructor; intros H; vm_compute in H; discriminate).
  split; [lia|]. split; [exact Hnb|].
  apply make_chunks_layout; [lia|exact Hnb].
Defined.

Lemma directory_lines_covered_witness :
  ("notes.md"%string, ["one"; "two"; "three"; "four"; "five"]%string)
    ∈ iter_docs (files := ref_files) "kb"
  /\ 0 <= 4 < n_lines ["one"; "two"; "three"; "four"; "five"]%string
  /\ exists c,
       c ∈ build_chunks (iter_docs (files := ref_files) "kb")
       /\ doc_id c = "notes.md"%string /\ start_line c <= 4 <= end_line c.
Proof.
  assert (Hin : ("notes.md"%string, ["one"; "two"; "three"; "four"; "five"]%string)
                  ∈ iter_docs (files := ref_files) "kb")
    by (apply list_elem_of_In; vm_compute; tauto).
  assert (Hj : 0 <= 4 < n_lines ["one"; "two"; "three"; "four"; "five"]%string)
    by (vm_compute; split; [discriminate|reflexivity]).
  split; [exact Hin|]. split; [exact Hj|].
  exact (directory_lines_covered (files := ref_files)
           "kb" "notes.md"
           ["one"; "two"; "three"; "four"; "five"]%string 4 Hin Hj).
Defined.

Lemma kb_raw_returns_chunk_witness :
  exists body,
    kb_raw (files := ref_files) "kb" "a.md" 0 1 = PlainTextResponse body
    /\ Py.strip body
       = ("Alpha is a test term." +:+ Py.nl +:+ "Beta is unrelated.")%string.
Proof.
  apply (kb_raw_returns_chunk (files := ref_files) "kb"
           (mkChunk "a.md" 0 1
              ("Alpha is a test term." +:+ Py.nl +:+ "Beta is unrelated."))).
  - apply list_elem_of_In. vm_compute. tauto.
  - reflexivity.
  - reflexivity.
  - intros content _ Hread. vm_compute in Hread. injection Hread as <-.
    apply Forall_forall. intros ln Hin. apply list_elem_of_In in Hin.
    vm_compute in Hin. destruct Hin as [<-|[<-|[]]]; vm_compute; reflexivity.
Defined.

Lemma detect_injection_monotone_witness :
  detect_injection "ignore previous" = true
  /\ detect_injection ("Please " +:+ "ignore previous" +:+ " instructions.") = true.
Proof.
  split; [reflexivity|].
  apply (detect_injection_monotone "Please " "ignore previous" " instructions.").
  reflexivity.
Defined.

Lemma handle_ask_refuses_trigger_witness :
  exists latency,
    handle_ask (env := ref_env) ref_scrub_pii ref_compose_answer 3
      Ref.docs None 10 (21 # 2)
      (Ask.mkRequest "How do I OVERRIDE a setting?" 3)
    = (Some (Ask.mkResponse refusal [] (Ask.mkMetrics latency 0 0) true), None).
Proof.
  apply (handle_ask_refuses_trigger (env := ref_env) ref_scrub_pii
           ref_compose_answer 3 Ref.docs None 10 (21 # 2)
           (Ask.mkRequest "How do I OVERRIDE a setting?" 3) "override").
  - simpl. tauto.
  - reflexivity.
Defined.

Lemma handle_ask_grounded_witness :
  exists resp,
    handle_ask (env := ref_env) ref_scrub_pii ref_compose_answer 3
      Ref.docs None 10 (21 # 2) (Ask.mkRequest "What is Alpha?" 0)
    = (Some resp, Some ref_index)
    /\ Z.of_nat (length (Ask.citations resp)) <= 3
    /\ NoDup (Ask.citations resp)
    /\ Ask.citations resp <> [].
Proof.
  assert (Hrun : { resp |
            handle_ask (env := ref_env) ref_scrub_pii ref_compose_answer 3
              Ref.docs None 10 (21 # 2) (Ask.mkRequest "What is Alpha?" 0)
            = (Some resp, Some ref_index) /\ Ask.citations resp <> [] }).
  { eexists. split; [vm_compute; reflexivity|]. discriminate. }
  destruct Hrun as (resp & Hrun & Hne). exists resp. split; [exact Hrun|].
  assert (Hfresh : forall ix, None = Some ix ->
                     KBIndex_init (env := ref_env) Ref.docs = Some ix)
    by (intros ix H; discriminate H).
  destruct (handle_ask_grounded (env := ref_env) ref_scrub_pii
              ref_compose_answer 3 Ref.docs None 10 (21 # 2)
              (Ask.mkRequest "What is Alpha?" 0) resp (Some ref_index)
              ref_libs_ok RefFacts.docs_NoDup Hfresh Hrun)
    as (_ & Hlen & Hnd & _).
  split; [exact Hlen|]. split; [exact Hnd|exact Hne].
Defined.
